(** * go-sql-store: the transactional order-processing core

    A shallow embedding of [internal/database] (error classification and
    the retrying transaction wrapper) and [internal/store] (inventory
    locking and reading, order assembly and lookup, the job queue,
    offset and cursor pagination), with the properties of the
    specification, and further properties of the code, stated over it.

    Conventions.
    - A Go [error] interface value is [option error]: [None] is [nil].
    - Go [int], [int64] and [time.Duration] are [Z]; where the source can
      overflow, the 64-bit wrap-around is written out with [wrap64].
    - The PostgreSQL server, the driver and the caller's context are the
      environment: what they answer is read from explicit records, and
      what the code asks of them is recorded in a trace of events. *)

From Stdlib Require Import ZArith String Ascii List Lia Bool DecimalString DecimalZ DecimalPos.
From Stdlib Require Import Permutation Sorted.
From stdpp Require Import base decidable option gmap strings list.

Open Scope string_scope.
Open Scope Z_scope.

(** ** Machine integers *)

Definition MaxInt64 : Z := 9223372036854775807.
Definition MinInt64 : Z := -9223372036854775808.

(** Two's-complement reduction of a mathematical integer to [int64]. *)
Definition wrap64 (z : Z) : Z := (z + 2 ^ 63) mod 2 ^ 64 - 2 ^ 63.

Definition in_int64 (z : Z) : Prop := MinInt64 <= z <= MaxInt64.

(** * Package database *)

Module database.

(** ** errors.go *)

(** The error values that flow through the core.  [PqError] is a
    [*pq.Error], of which only [Code] is ever inspected.  [Errorf] is
    [fmt.Errorf(prefix + ": %w", err)], which keeps [err] in the unwrap
    chain; [RollbackFailed] is the two-error message of the rollback
    path, where only the original error is wrapped with [%w]. *)
Inductive error : Type :=
| PqError (Code : string)
| ErrNoRows
| Canceled
| DeadlineExceeded
| ErrUserNotFound
| ErrProductNotFound
| ErrOrderNotFound
| ErrInsufficientStock
| ErrOptimisticLockFailed
| ErrLockTimeout
| Opaque (msg : string)
| Errorf (prefix : string) (err : error)
| RollbackFailed (rbErr : error) (err : error).

#[global] Instance error_eq_dec : EqDecision error.
Proof. solve_decision. Defined.

Inductive ErrorClass : Type :=
| ErrorClassPermanent
| ErrorClassTransient
| ErrorClassDeadlock
| ErrorClassSerialization.

#[global] Instance ErrorClass_eq_dec : EqDecision ErrorClass.
Proof. solve_decision. Defined.

(** [errors.Unwrap]: the next error of the chain, if any. *)
Definition Unwrap (e : error) : option error :=
  match e with
  | Errorf _ err => Some err
  | RollbackFailed _ err => Some err
  | _ => None
  end.

(** [errors.As(err, &pqErr)]: the code of the first [*pq.Error] of the
    chain. *)
Fixpoint As_pqError (e : error) : option string :=
  match e with
  | PqError c => Some c
  | Errorf _ err => As_pqError err
  | RollbackFailed _ err => As_pqError err
  | _ => None
  end.

(** [errors.Is(err, target)] for a comparable sentinel [target]. *)
Fixpoint Is (e target : error) : bool :=
  bool_decide (e = target) ||
  match e with
  | Errorf _ err => Is err target
  | RollbackFailed _ err => Is err target
  | _ => false
  end.

Definition ClassifyError (err : option error) : ErrorClass :=
  match err with
  | None => ErrorClassPermanent
  | Some e =>
    let fallthrough :=
      if Is e ErrNoRows then ErrorClassPermanent else ErrorClassPermanent in
    match As_pqError e with
    | Some code =>
      if String.eqb code "40001" then ErrorClassSerialization
      else if String.eqb code "40P01" then ErrorClassDeadlock
      else if String.eqb code "55P03" then ErrorClassTransient
      else if String.eqb code "23505" || String.eqb code "23503"
              || String.eqb code "23502" || String.eqb code "23514"
           then ErrorClassPermanent
      else fallthrough
    | None => fallthrough
    end
  end.

Definition IsRetryable (err : option error) : bool :=
  let class := ClassifyError err in
  bool_decide (class = ErrorClassTransient) ||
  bool_decide (class = ErrorClassDeadlock) ||
  bool_decide (class = ErrorClassSerialization).

(** ** tx.go *)

(** [strconv]-style decimal rendering, as [%d] prints an integer. *)
Definition itoa (z : Z) : string := DecimalString.NilZero.string_of_int (Z.to_int z).

Inductive IsolationLevel : Type :=
| LevelDefault
| LevelReadUncommitted
| LevelReadCommitted
| LevelWriteCommitted
| LevelRepeatableRead
| LevelSnapshot
| LevelSerializable
| LevelLinearizable.

Record TxOptions : Type := {
  Isolation : IsolationLevel;
  ReadOnly : bool;
  MaxRetries : Z
}.

Definition DefaultTxOptions : TxOptions :=
  {| Isolation := LevelReadCommitted; ReadOnly := false; MaxRetries := 3 |}.

(** [time.Duration] counts nanoseconds in an [int64]. *)
Definition Millisecond : Z := 1000000.

(** [rand.Int63n(n)]: panics unless [n > 0], else reduces the generator's
    63-bit draw into [0, n). *)
Definition Int63n (draw n : Z) : option Z :=
  if n <=? 0 then None else Some (draw mod n).

(** What a finished call left behind. *)
Inductive Outcome : Type :=
| Returned (err : option error)
| Panicked (msg : string)
| OutOfFuel.

Section Transactions.

(** [Tx] is what a transaction handle gives access to; [Captured] is the
    state of the variables the unit of work closes over and assigns. *)
Context {Tx Captured : Type}.

(** The environment's answers during attempt number [attempt]. *)
Record Attempt : Type := {
  ctx_done : bool;              (* <-ctx.Done() is ready when the attempt opens *)
  begin_tx : error + Tx;        (* db.BeginTx *)
  rollback_err : option error;  (* tx.Rollback *)
  commit_err : option error;    (* tx.Commit *)
  rand_draw : Z;                (* the draw behind rand.Int63n *)
  ctx_done_in_sleep : bool      (* the backoff select receives from ctx.Done() *)
}.

Record Env : Type := {
  attempts : Z -> Attempt;
  ctx_deadline : bool           (* the context ends by its deadline, not by cancel() *)
}.

(** [ctx.Err()] once [ctx.Done()] is closed. *)
Definition ctx_err (env : Env) : error :=
  if ctx_deadline env then DeadlineExceeded else Canceled.

(** What the executor did, in order. *)
Inductive Event : Type :=
| EvCtxCheck (attempt : Z) (done : bool)
| EvBeginTx (attempt : Z) (iso : IsolationLevel) (ro : bool) (failed : option error)
| EvCall (attempt : Z) (err : option error)
| EvRollback (attempt : Z) (err : option error)
| EvCommit (attempt : Z) (tx : Tx) (err : option error)
| EvSleep (attempt : Z) (backoff jitter sleepDuration : Z) (cancelled : bool).

Record Run : Type := {
  outcome : Outcome;
  captured : Captured;
  trace : list Event
}.

Definition finish (o : Outcome) (c : Captured) : Run :=
  {| outcome := o; captured := c; trace := [] |}.

Definition emit (ev : Event) (r : Run) : Run :=
  {| outcome := outcome r; captured := captured r; trace := ev :: trace r |}.

(** The attempt an event belongs to, and whether it is one of the two
    selects finding the context done. *)
Definition event_attempt (ev : Event) : Z :=
  match ev with
  | EvCtxCheck k _ | EvBeginTx k _ _ _ | EvCall k _ | EvRollback k _
  | EvCommit k _ _ | EvSleep k _ _ _ _ => k
  end.

Definition observed_cancel (ev : Event) : bool :=
  match ev with
  | EvCtxCheck _ true | EvSleep _ _ _ _ true => true
  | _ => false
  end.

(** The invocations of the unit of work, and the durations of the timers
    the executor waits on between attempts. *)
Definition is_call (ev : Event) : bool :=
  match ev with EvCall _ _ => true | _ => false end.

Definition slept (ev : Event) : Z :=
  match ev with EvSleep _ _ _ sleepDuration _ => sleepDuration | _ => 0 end.

Definition total_sleep (t : list Event) : Z :=
  foldr (fun ev acc => slept ev + acc) 0 t.

Variable env : Env.
Variable opts : TxOptions.
Variable fn : Tx -> Captured -> option error * Tx * Captured.

(** [WithTransaction]: one attempt, the attempt 0 of the environment; the
    context is not consulted and the error is not classified. *)
Definition WithTransaction (cap : Captured) : Run :=
  let a := attempts env 0 in
  match begin_tx a with
  | inl err =>
    emit (EvBeginTx 0 (Isolation opts) (ReadOnly opts) (Some err))
      (finish (Returned (Some (Errorf "begin transaction" err))) cap)
  | inr tx =>
    emit (EvBeginTx 0 (Isolation opts) (ReadOnly opts) None)
    match fn tx cap with
    | (Some err, _, cap') =>
      emit (EvCall 0 (Some err))
      match rollback_err a with
      | Some rbErr =>
        emit (EvRollback 0 (Some rbErr))
          (finish (Returned (Some (RollbackFailed rbErr err))) cap')
      | None =>
        emit (EvRollback 0 None) (finish (Returned (Some err)) cap')
      end
    | (None, tx', cap') =>
      emit (EvCall 0 None)
      match commit_err a with
      | Some err =>
        emit (EvCommit 0 tx' (Some err))
          (finish (Returned (Some (Errorf "commit transaction" err))) cap')
      | None =>
        emit (EvCommit 0 tx' None) (finish (Returned None) cap')
      end
    end
  end.

(** The [for attempt := 0; attempt <= opts.MaxRetries; attempt++] loop of
    [WithRetry], entered with the current [attempt], [backoff] and
    [lastErr]. *)
Fixpoint retry_loop (fuel : nat) (attempt backoff : Z) (lastErr : option error)
    (cap : Captured) : Run :=
  match fuel with
  | O => finish OutOfFuel cap
  | S fuel' =>
    if negb (attempt <=? MaxRetries opts) then finish (Returned lastErr) cap else
    let a := attempts env attempt in
    if ctx_done a then
      emit (EvCtxCheck attempt true) (finish (Returned (Some (ctx_err env))) cap)
    else
    emit (EvCtxCheck attempt false)
    match begin_tx a with
    | inl err =>
      emit (EvBeginTx attempt (Isolation opts) (ReadOnly opts) (Some err))
        (finish (Returned (Some (Errorf "begin transaction" err))) cap)
    | inr tx =>
      emit (EvBeginTx attempt (Isolation opts) (ReadOnly opts) None)
      match fn tx cap with
      | (Some err, _, cap') =>
        emit (EvCall attempt (Some err))
        match rollback_err a with
        | Some rbErr =>
          emit (EvRollback attempt (Some rbErr))
            (finish (Returned (Some (RollbackFailed rbErr err))) cap')
        | None =>
          emit (EvRollback attempt None)
          (let errClass := ClassifyError (Some err) in
           if bool_decide (errClass = ErrorClassPermanent) then
             finish (Returned (Some err)) cap'
           else if attempt =? MaxRetries opts then
             finish (Returned (Some
               (Errorf ("max retries (" +:+ itoa (MaxRetries opts) +:+ ") exceeded") err))) cap'
           else
             match Int63n (rand_draw a) (Z.quot backoff 4) with
             | None => finish (Panicked "invalid argument to Int63n") cap'
             | Some jitter =>
               let sleepDuration := wrap64 (backoff + jitter) in
               if ctx_done_in_sleep a then
                 emit (EvSleep attempt backoff jitter sleepDuration true)
                   (finish (Returned (Some (ctx_err env))) cap')
               else
                 emit (EvSleep attempt backoff jitter sleepDuration false)
                   (retry_loop fuel' (attempt + 1) (wrap64 (backoff * 2)) (Some err) cap')
             end)
        end
      | (None, tx', cap') =>
        emit (EvCall attempt None)
        match commit_err a with
        | Some err =>
          emit (EvCommit attempt tx' (Some err))
          (let errClass := ClassifyError (Some err) in
           if bool_decide (errClass = ErrorClassPermanent) then
             finish (Returned (Some (Errorf "commit transaction" err))) cap'
           else if attempt =? MaxRetries opts then
             finish (Returned (Some
               (Errorf ("max retries (" +:+ itoa (MaxRetries opts) +:+ ") exceeded on commit") err))) cap'
           else
             match Int63n (rand_draw a) (Z.quot backoff 4) with
             | None => finish (Panicked "invalid argument to Int63n") cap'
             | Some jitter =>
               let sleepDuration := wrap64 (backoff + jitter) in
               if ctx_done_in_sleep a then
                 emit (EvSleep attempt backoff jitter sleepDuration true)
                   (finish (Returned (Some (ctx_err env))) cap')
               else
                 emit (EvSleep attempt backoff jitter sleepDuration false)
                   (retry_loop fuel' (attempt + 1) (wrap64 (backoff * 2)) (Some err) cap')
             end)
        | None =>
          emit (EvCommit attempt tx' None) (finish (Returned None) cap')
        end
      end
    end
  end.

(** The loop body runs for [attempt = 0 .. MaxRetries] at most, so this
    much fuel is never used up (see [WithRetry_terminates]). *)
Definition WithRetry_fuel : nat := S (Z.to_nat (MaxRetries opts + 1)).

Definition WithRetry (cap : Captured) : Run :=
  retry_loop WithRetry_fuel 0 (50 * Millisecond) None cap.

End Transactions.

Arguments Attempt : clear implicits.
Arguments Env : clear implicits.
Arguments Event : clear implicits.
Arguments Run : clear implicits.

(** Fuel that lets the loop entered at attempt [k] run to its end. *)
Definition enough (opts : TxOptions) (fuel : nat) (k : Z) : Prop :=
  (Z.to_nat (MaxRetries opts + 1 - k) < fuel)%nat.

End database.

(** * Package models *)

Module models.

(** [time.Time], as the instant it denotes: nanoseconds since the Unix
    epoch, UTC.  [decimal.Decimal] amounts of the [DECIMAL(10, 2)]
    columns, in hundredths. *)
Definition Time : Type := Z.
Definition Decimal : Type := Z.

Record Product : Type := {
  Product_ID : Z;
  Product_SKU : string;
  Product_Name : string;
  Product_Description : string;
  Product_Price : Decimal;
  Product_StockQuantity : Z;
  Product_CreatedAt : Time;
  Product_UpdatedAt : Time;
  Product_Version : Z
}.

Record OrderItem : Type := {
  OrderItem_ID : Z;
  OrderItem_OrderID : Z;
  OrderItem_ProductID : Z;
  OrderItem_Quantity : Z;
  OrderItem_UnitPrice : Decimal;
  OrderItem_Subtotal : Decimal;
  OrderItem_CreatedAt : Time
}.

Record Order : Type := {
  Order_ID : Z;
  Order_UserID : Z;
  Order_OrderNumber : string;
  Order_Status : string;
  Order_TotalAmount : Decimal;
  Order_CreatedAt : Time;
  Order_UpdatedAt : Time;
  Order_Version : Z;
  Order_Items : list OrderItem
}.

Definition OrderStatusPending : string := "pending".
Definition OrderStatusConfirmed : string := "confirmed".
Definition OrderStatusShipped : string := "shipped".
Definition OrderStatusDelivered : string := "delivered".
Definition OrderStatusCancelled : string := "cancelled".

End models.

(** * The PostgreSQL store, as the migrations declare it *)

Module pg.
Import database models.

(** The tables of [migrations/], the row locks other transactions hold,
    the two clocks, and the failures the server or the driver may raise
    at a statement whatever its text (a deadlock, a serialization
    failure, a lost connection): [faults n] is raised by the [n]-th
    statement issued. *)
Record DB : Type := {
  users : gset Z;
  products : gmap Z Product;
  orders : list Order;
  order_items : list OrderItem;
  orders_id_seq : Z;
  order_items_id_seq : Z;
  locked : gset Z;
  pg_now : Time;                (* NOW() *)
  go_now : Time;                (* time.Now() of the calling process *)
  faults : nat -> option error;
  stmts : nat
}.

Definition tick (db : DB) : DB :=
  {| users := users db; products := products db; orders := orders db;
     order_items := order_items db; orders_id_seq := orders_id_seq db;
     order_items_id_seq := order_items_id_seq db; locked := locked db;
     pg_now := pg_now db; go_now := go_now db; faults := faults db;
     stmts := S (stmts db) |}.

Definition set_products (f : gmap Z Product -> gmap Z Product) (db : DB) : DB :=
  {| users := users db; products := f (products db); orders := orders db;
     order_items := order_items db; orders_id_seq := orders_id_seq db;
     order_items_id_seq := order_items_id_seq db; locked := locked db;
     pg_now := pg_now db; go_now := go_now db; faults := faults db;
     stmts := stmts db |}.

Definition add_order (o : Order) (db : DB) : DB :=
  {| users := users db; products := products db; orders := orders db ++ [o];
     order_items := order_items db; orders_id_seq := Order_ID o;
     order_items_id_seq := order_items_id_seq db; locked := locked db;
     pg_now := pg_now db; go_now := go_now db; faults := faults db;
     stmts := stmts db |}.

Definition add_order_item (i : OrderItem) (db : DB) : DB :=
  {| users := users db; products := products db; orders := orders db;
     order_items := order_items db ++ [i]; orders_id_seq := orders_id_seq db;
     order_items_id_seq := OrderItem_ID i; locked := locked db;
     pg_now := pg_now db; go_now := go_now db; faults := faults db;
     stmts := stmts db |}.

(** A computation that talks to the store: it fails with an error or
    yields a value, and leaves the store in a new state. *)
Definition M (A : Type) : Type := DB -> (error + A) * DB.

Definition ret {A} (a : A) : M A := fun db => (inr a, db).
Definition fail {A} (e : error) : M A := fun db => (inl e, db).
Definition bind {A B} (m : M A) (k : A -> M B) : M B :=
  fun db => match m db with
            | (inl e, db') => (inl e, db')
            | (inr a, db') => k a db'
            end.

(** [if err != nil { return f(err) }] *)
Definition map_err {A} (f : error -> error) (m : M A) : M A :=
  fun db => match m db with
            | (inl e, db') => (inl (f e), db')
            | r => r
            end.

(** One round trip to the server. *)
Definition stmt {A} (sem : M A) : M A :=
  fun db => match faults db (stmts db) with
            | Some e => (inl e, tick db)
            | None => sem (tick db)
            end.

(** SQLSTATE codes of the constraint violations. *)
Definition unique_violation : error := PqError "23505".
Definition foreign_key_violation : error := PqError "23503".
Definition check_violation : error := PqError "23514".
Definition lock_not_available : error := PqError "55P03".
Definition invalid_row_count_in_limit_clause : error := PqError "2201W".

(** [SELECT ... FROM products WHERE id = $1 FOR UPDATE [NOWAIT]], scanned
    by [QueryRowContext(...).Scan]: no row is [sql.ErrNoRows].  With
    [NOWAIT] a row locked by another transaction is SQLSTATE 55P03;
    without it the statement waits for the holder, and the state read is
    the one found once the lock is granted. *)
Definition select_product_for_update (nowait : bool) (id : Z) : M Product :=
  stmt (fun db =>
    match products db !! id with
    | None => (inl ErrNoRows, db)
    | Some p =>
      if nowait && bool_decide (id ∈ locked db) then (inl lock_not_available, db)
      else (inr p, db)
    end).

(** The row [p] after an [UPDATE] that sets its quantity, its revision
    and [updated_at]. *)
Definition restocked (p : Product) (stock version : Z) (now : Time) : Product :=
  {| Product_ID := Product_ID p; Product_SKU := Product_SKU p;
     Product_Name := Product_Name p; Product_Description := Product_Description p;
     Product_Price := Product_Price p; Product_StockQuantity := stock;
     Product_CreatedAt := Product_CreatedAt p; Product_UpdatedAt := now;
     Product_Version := version |}.

(** [UPDATE products SET stock_quantity = stock_quantity - $1,
    updated_at = NOW() WHERE id = $2 AND stock_quantity >= $1]; the
    result is [RowsAffected]. *)
Definition update_stock_guarded (quantity id : Z) : M Z :=
  stmt (fun db =>
    match products db !! id with
    | None => (inr 0, db)
    | Some p =>
      if Product_StockQuantity p >=? quantity then
        let stock' := Product_StockQuantity p - quantity in
        if stock' <? 0 then (inl check_violation, db)
        else
          (inr 1, set_products
                    (insert id (restocked p stock' (Product_Version p) (pg_now db))) db)
      else (inr 0, db)
    end).

(** [UPDATE products SET stock_quantity = $1, version = version + 1,
    updated_at = NOW() WHERE id = $2 AND version = $3]. *)
Definition update_stock_versioned (newStock id version : Z) : M Z :=
  stmt (fun db =>
    match products db !! id with
    | None => (inr 0, db)
    | Some p =>
      if Product_Version p =? version then
        if newStock <? 0 then (inl check_violation, db)
        else
          (inr 1, set_products
                    (insert id (restocked p newStock (Product_Version p + 1) (pg_now db))) db)
      else (inr 0, db)
    end).

(** [SELECT EXISTS(SELECT 1 FROM users WHERE id = $1)]. *)
Definition select_user_exists (id : Z) : M bool :=
  stmt (fun db => (inr (bool_decide (id ∈ users db)), db)).

Definition valid_status (s : string) : bool :=
  bool_decide (s ∈ [OrderStatusPending; OrderStatusConfirmed; OrderStatusShipped;
                    OrderStatusDelivered; OrderStatusCancelled]).

(** [INSERT INTO orders (...) VALUES ($1, $2, $3, $4, NOW(), NOW(), 1)
    RETURNING id].  The server enforces the CHECK constraints on the new
    row, then the unique indexes, then the foreign keys. *)
Definition insert_order (userID : Z) (orderNumber status : string)
    (totalAmount : Decimal) : M Z :=
  stmt (fun db =>
    let id := orders_id_seq db + 1 in
    if negb (valid_status status) || (totalAmount <? 0) then (inl check_violation, db)
    else if existsb (fun o => String.eqb (Order_OrderNumber o) orderNumber) (orders db)
    then (inl unique_violation, db)
    else if negb (bool_decide (userID ∈ users db)) then (inl foreign_key_violation, db)
    else
      (inr id, add_order
         {| Order_ID := id; Order_UserID := userID; Order_OrderNumber := orderNumber;
            Order_Status := status; Order_TotalAmount := totalAmount;
            Order_CreatedAt := pg_now db; Order_UpdatedAt := pg_now db;
            Order_Version := 1; Order_Items := [] |} db)).

(** [INSERT INTO order_items (...) VALUES ($1, $2, $3, $4, $5, NOW())]. *)
Definition insert_order_item (orderID productID quantity : Z)
    (unitPrice subtotal : Decimal) : M unit :=
  stmt (fun db =>
    let id := order_items_id_seq db + 1 in
    if negb (quantity >? 0) || (unitPrice <? 0) || (subtotal <? 0)
    then (inl check_violation, db)
    else if existsb (fun i => (OrderItem_OrderID i =? orderID)
                              && (OrderItem_ProductID i =? productID)) (order_items db)
    then (inl unique_violation, db)
    else if negb (existsb (fun o => Order_ID o =? orderID) (orders db))
            || negb (bool_decide (is_Some (products db !! productID)))
    then (inl foreign_key_violation, db)
    else
      (inr tt, add_order_item
         {| OrderItem_ID := id; OrderItem_OrderID := orderID;
            OrderItem_ProductID := productID; OrderItem_Quantity := quantity;
            OrderItem_UnitPrice := unitPrice; OrderItem_Subtotal := subtotal;
            OrderItem_CreatedAt := pg_now db |} db)).

(** [SELECT ... FROM orders WHERE id = $1], scanned by [QueryRowContext]. *)
Definition select_order (id : Z) : M Order :=
  stmt (fun db =>
    match find (fun o => Order_ID o =? id) (orders db) with
    | None => (inl ErrNoRows, db)
    | Some o => (inr o, db)
    end).

(** ** The statements of the readers *)

Definition invalid_row_count_in_result_offset_clause : error := PqError "2201X".

(** [SELECT ... FROM products WHERE id = $1], scanned by
    [QueryRowContext(...).Scan]: a plain read takes no row lock and waits
    for none. *)
Definition select_product (id : Z) : M Product :=
  stmt (fun db =>
    match products db !! id with
    | None => (inl ErrNoRows, db)
    | Some p => (inr p, db)
    end).

(** [SELECT COUNT( * ) FROM products]. *)
Definition select_count_products : M Z :=
  stmt (fun db => (inr (Z.of_nat (size (products db))), db)).

(** [ORDER BY created_at DESC]: [newest_first a b] when [a] may come
    before [b].  Rows of equal [created_at] come in an order the server
    is free to choose; here it is the order in which the table is
    enumerated. *)
Definition newest_first (a b : Product) : bool :=
  Product_CreatedAt b <=? Product_CreatedAt a.

Fixpoint insert_newest (p : Product) (l : list Product) : list Product :=
  match l with
  | [] => [p]
  | x :: r => if newest_first p x then p :: l else x :: insert_newest p r
  end.

Definition sort_newest (l : list Product) : list Product := foldr insert_newest [] l.

(** [SELECT ... FROM products ORDER BY created_at DESC LIMIT $1 OFFSET $2].
    The server refuses a negative [OFFSET], then a negative [LIMIT]. *)
Definition select_products_page (limit offset : Z) : M (list Product) :=
  stmt (fun db =>
    if offset <? 0 then (inl invalid_row_count_in_result_offset_clause, db)
    else if limit <? 0 then (inl invalid_row_count_in_limit_clause, db)
    else (inr (take (Z.to_nat limit)
                 (drop (Z.to_nat offset) (sort_newest (map snd (map_to_list (products db)))))),
          db)).


(** [ORDER BY created_at]: [oldest_first a b] when [a] may come before
    [b]; rows of equal [created_at] come as the table holds them. *)
Definition oldest_first (a b : Order) : bool :=
  Order_CreatedAt a <=? Order_CreatedAt b.

Fixpoint insert_oldest (o : Order) (l : list Order) : list Order :=
  match l with
  | [] => [o]
  | x :: r => if oldest_first o x then o :: l else x :: insert_oldest o r
  end.

Definition sort_oldest (l : list Order) : list Order := foldr insert_oldest [] l.

(** [SELECT ... FROM orders WHERE status = $1 ORDER BY created_at
    FOR UPDATE SKIP LOCKED LIMIT 1]: the rows of that status in order,
    those whose lock another transaction holds passed over, the first of
    the rest locked and returned.  [held] are the identifiers of the
    rows of [orders] that other transactions hold locked. *)
Definition select_next_order (held : gset Z) (status : string) : M Order :=
  stmt (fun db =>
    match List.filter (fun o => negb (bool_decide (Order_ID o ∈ held)))
            (sort_oldest (List.filter (fun o => String.eqb (Order_Status o) status)
                            (orders db))) with
    | [] => (inl ErrNoRows, db)
    | o :: _ => (inr o, db)
    end).

End pg.

(** * Go's standard library, as far as the cursor codec uses it *)

(** Bytes of a Go [string] or [[]byte] are the characters of a [string]. *)
Definition byte_val (a : ascii) : Z := Z.of_N (N_of_ascii a).
Definition byte_of (z : Z) : ascii := ascii_of_N (Z.to_N z).

(** ** encoding/base64, [URLEncoding] (padded, not strict) *)

Module base64.
Import database.

Definition encodeURL : string :=
  "ABCDEFGHIJKLMNOPQRSTUVWXYZabcdefghijklmnopqrstuvwxyz0123456789-_".

Definition padChar : ascii := "="%char.

Definition enc (v : Z) : ascii :=
  match String.get (Z.to_nat v) encodeURL with
  | Some c => c
  | None => padChar
  end.

Fixpoint index_of (c : ascii) (s : string) (i : Z) : option Z :=
  match s with
  | EmptyString => None
  | String a s' => if Ascii.eqb a c then Some i else index_of c s' (i + 1)
  end.

Definition dec (c : ascii) : option Z := index_of c encodeURL 0.

Fixpoint EncodeToString (src : string) : string :=
  match src with
  | EmptyString => EmptyString
  | String a EmptyString =>
    let a := byte_val a in
    String (enc (a / 4)) (String (enc (a mod 4 * 16))
      (String padChar (String padChar EmptyString)))
  | String a (String b EmptyString) =>
    let a := byte_val a in
    let b := byte_val b in
    String (enc (a / 4)) (String (enc (a mod 4 * 16 + b / 16))
      (String (enc (b mod 16 * 4)) (String padChar EmptyString)))
  | String a (String b (String c rest)) =>
    let a := byte_val a in
    let b := byte_val b in
    let c := byte_val c in
    String (enc (a / 4)) (String (enc (a mod 4 * 16 + b / 16))
      (String (enc (b mod 16 * 4 + c / 64)) (String (enc (c mod 64))
        (EncodeToString rest))))
  end.

Definition CorruptInputError : error := Opaque "illegal base64 data".

(** Quanta of four characters; padding is accepted in the last quantum
    only, and the bits a padded quantum leaves over are dropped. *)
Fixpoint DecodeString (s : string) : error + string :=
  match s with
  | EmptyString => inr EmptyString
  | String c0 (String c1 (String c2 (String c3 rest))) =>
    match dec c0, dec c1 with
    | Some v0, Some v1 =>
      let b0 := byte_of (v0 * 4 + v1 / 16) in
      if Ascii.eqb c2 padChar then
        if Ascii.eqb c3 padChar && String.eqb rest EmptyString
        then inr (String b0 EmptyString)
        else inl CorruptInputError
      else
        match dec c2 with
        | None => inl CorruptInputError
        | Some v2 =>
          let b1 := byte_of (v1 mod 16 * 16 + v2 / 4) in
          if Ascii.eqb c3 padChar then
            if String.eqb rest EmptyString
            then inr (String b0 (String b1 EmptyString))
            else inl CorruptInputError
          else
            match dec c3 with
            | None => inl CorruptInputError
            | Some v3 =>
              let b2 := byte_of (v2 mod 4 * 64 + v3) in
              match DecodeString rest with
              | inl e => inl e
              | inr t => inr (String b0 (String b1 (String b2 t)))
              end
            end
        end
    | _, _ => inl CorruptInputError
    end
  | _ => inl CorruptInputError
  end.

End base64.

(** ** time: the proleptic Gregorian calendar and RFC 3339 *)

Module time.
Import models.

Definition Second : Z := 1000000000.
Definition secondsPerDay : Z := 86400.

(** Days since 1970-01-01 to (year, month, day) and back. *)
Definition civil_of_doe (doe : Z) : Z * Z * Z :=
  let yoe := (doe - doe / 1460 + doe / 36524 - doe / 146096) / 365 in
  let doy := doe - (365 * yoe + yoe / 4 - yoe / 100) in
  let mp := (5 * doy + 2) / 153 in
  let d := doy - (153 * mp + 2) / 5 + 1 in
  let m := if mp <? 10 then mp + 3 else mp - 9 in
  ((if m <=? 2 then yoe + 1 else yoe), m, d).

Definition civil_from_days (z : Z) : Z * Z * Z :=
  let z := z + 719468 in
  let era := z / 146097 in
  let doe := z mod 146097 in
  let '(y, m, d) := civil_of_doe doe in
  (y + era * 400, m, d).

Definition days_from_civil (y m d : Z) : Z :=
  let y := if m <=? 2 then y - 1 else y in
  let era := y / 400 in
  let yoe := y mod 400 in
  let doy := (153 * (if m >? 2 then m - 3 else m + 9) + 2) / 5 + d - 1 in
  let doe := yoe * 365 + yoe / 4 - yoe / 100 + doy in
  era * 146097 + doe - 719468.

Definition isLeap (y : Z) : bool :=
  (y mod 4 =? 0) && (negb (y mod 100 =? 0) || (y mod 400 =? 0)).

Definition daysIn (m y : Z) : Z :=
  if m =? 2 then (if isLeap y then 29 else 28)
  else if (m =? 4) || (m =? 6) || (m =? 9) || (m =? 11) then 30
  else 31.

Definition Year (t : Time) : Z :=
  let '(y, _, _) := civil_from_days (t / Second / secondsPerDay) in y.

(** [f] holds of every integer in [0, n). *)
Definition all_below (n : positive) (f : Z -> bool) : bool :=
  snd (Pos.iter (fun '(i, ok) => (i + 1, ok && f i)) (0, true) n).

(** Day [doe] of a 400-year era maps to a date of the calendar from which
    [days_from_civil] computes [doe] again. *)
Definition civil_ok (doe : Z) : bool :=
  let '(y0, m, d) := civil_of_doe doe in
  let yoe := if m <=? 2 then y0 - 1 else y0 in
  (0 <=? yoe) && (yoe <? 400) && (1 <=? m) && (m <=? 12) && (1 <=? d) && (d <=? daysIn m y0)
  && (yoe * 365 + yoe / 4 - yoe / 100
      + ((153 * (if m >? 2 then m - 3 else m + 9) + 2) / 5 + d - 1) =? doe).

(** [time.Date(y, m, d, hh, mm, ss, ns, time.UTC)] for fields in range. *)
Definition Date (y m d hh mm ss ns : Z) : Time :=
  ((days_from_civil y m d * secondsPerDay + hh * 3600 + mm * 60 + ss) * Second + ns).

Definition digit (n : Z) : ascii := byte_of (48 + n).

Definition digit_val (c : ascii) : option Z :=
  let v := byte_val c - 48 in
  if (0 <=? v) && (v <=? 9) then Some v else None.

Definition pad2 (n : Z) (k : string) : string :=
  String (digit (n / 10 mod 10)) (String (digit (n mod 10)) k).

Definition pad4 (n : Z) (k : string) : string :=
  String (digit (n / 1000 mod 10)) (String (digit (n / 100 mod 10)) (pad2 n k)).

(** The nine digits of the nanosecond field, without trailing zeros. *)
Definition digits9 (ns : Z) : list Z :=
  map (fun w => ns / w mod 10)
      [100000000; 10000000; 1000000; 100000; 10000; 1000; 100; 10; 1].

Fixpoint trim0 (l : list Z) : list Z :=
  match l with
  | [] => []
  | d :: r =>
    match trim0 r with
    | [] => if d =? 0 then [] else [d]
    | r' => d :: r'
    end
  end.

Fixpoint digits_string (l : list Z) (k : string) : string :=
  match l with
  | [] => k
  | d :: r => String (digit d) (digits_string r k)
  end.

Definition frac (ns : Z) (k : string) : string :=
  match trim0 (digits9 ns) with
  | [] => k
  | l => String "."%char (digits_string l k)
  end.

(** [t.AppendFormat(b, time.RFC3339Nano)] for a UTC time, followed by [k]. *)
Definition format_RFC3339Nano (t : Time) (k : string) : string :=
  let sec := t / Second in
  let ns := t mod Second in
  let '(y, m, d) := civil_from_days (sec / secondsPerDay) in
  let sod := sec mod secondsPerDay in
  let clock :=
    pad2 (sod / 3600) (String ":"%char (pad2 (sod / 60 mod 60) (String ":"%char
      (pad2 (sod mod 60) (frac ns (String "Z"%char k)))))) in
  pad4 y (String "-"%char (pad2 m (String "-"%char (pad2 d (String "T"%char clock))))).

(** Reading back: a run of decimal digits, most significant first. *)
Fixpoint number (cs : list ascii) (acc : Z) : option Z :=
  match cs with
  | [] => Some acc
  | c :: r =>
    match digit_val c with
    | Some v => number r (acc * 10 + v)
    | None => None
    end
  end.

Fixpoint take_digits (s : string) : list Z * string :=
  match s with
  | EmptyString => ([], EmptyString)
  | String c r =>
    match digit_val c with
    | Some v => let '(l, k) := take_digits r in (v :: l, k)
    | None => ([], s)
    end
  end.

(** The value of a fraction's digits in nanoseconds; digits past the
    ninth carry no weight. *)
Fixpoint nanos (l : list Z) (w : Z) : Z :=
  match l with
  | [] => 0
  | d :: r => d * w + nanos r (w / 10)
  end.

Definition parse_frac (s : string) : option (Z * string) :=
  match s with
  | String c r =>
    if Ascii.eqb c "."%char then
      match take_digits r with
      | ([], _) => None
      | (l, k) => Some (nanos l 100000000, k)
      end
    else Some (0, s)
  | EmptyString => Some (0, s)
  end.

(** [time.Parse(time.RFC3339, s)] on the UTC form [YYYY-MM-DDTHH:MM:SS[.f]Z];
    what follows the [Z] is returned.  Forms with a numeric zone offset,
    which Go also reads, are not recognised. *)
Definition parse_RFC3339 (s : string) : option (Time * string) :=
  match s with
  | String y3 (String y2 (String y1 (String y0 (String c1
    (String m1 (String m0 (String c2
    (String d1 (String d0 (String c3
    (String h1 (String h0 (String c4
    (String i1 (String i0 (String c5
    (String s1 (String s0 rest)))))))))))))))))) =>
    if negb (Ascii.eqb c1 "-"%char && Ascii.eqb c2 "-"%char && Ascii.eqb c3 "T"%char
             && Ascii.eqb c4 ":"%char && Ascii.eqb c5 ":"%char) then None else
    match number [y3; y2; y1; y0] 0, number [m1; m0] 0, number [d1; d0] 0,
          number [h1; h0] 0, number [i1; i0] 0, number [s1; s0] 0,
          parse_frac rest with
    | Some y, Some m, Some d, Some hh, Some mm, Some ss, Some (ns, String z k) =>
      if Ascii.eqb z "Z"%char && (1 <=? m) && (m <=? 12) && (1 <=? d) && (d <=? daysIn m y)
         && (hh <? 24) && (mm <? 60) && (ss <? 60)
      then Some (Date y m d hh mm ss ns, k)
      else None
    | _, _, _, _, _, _, _ => None
    end
  | _ => None
  end.

End time.

(** * Package store *)

Module store.
Import database models pg.

(** What a call that may also panic hands back. *)
Inductive Result (A : Type) : Type :=
| Ok (a : A)
| Err (e : error)
| Panic (msg : string).
Arguments Ok {A} a.
Arguments Err {A} e.
Arguments Panic {A} msg.

(** ** products.go *)

Definition ReserveStock (productID quantity : Z) : M Product :=
  bind
    (map_err (fun err => if bool_decide (err = ErrNoRows) then ErrProductNotFound
                         else Errorf "lock product" err)
             (select_product_for_update false productID))
    (fun product =>
       if Product_StockQuantity product <? quantity then fail ErrInsufficientStock
       else ret product).

Definition ReserveStockNoWait (productID quantity : Z) : M Product :=
  bind
    (map_err (fun err =>
                match err with
                | PqError code =>
                  if String.eqb code "55P03" then ErrLockTimeout
                  else Errorf "lock product (nowait)" err
                | _ =>
                  if bool_decide (err = ErrNoRows) then ErrProductNotFound
                  else Errorf "lock product (nowait)" err
                end)
             (select_product_for_update true productID))
    (fun product =>
       if Product_StockQuantity product <? quantity then fail ErrInsufficientStock
       else ret product).

(** [result.RowsAffected()] cannot fail with lib/pq, so that branch of the
    two updates below has no counterpart here. *)
Definition UpdateStockOptimistic (productID newStock version : Z) : M unit :=
  bind (map_err (Errorf "update stock") (update_stock_versioned newStock productID version))
    (fun rowsAffected =>
       if rowsAffected =? 0 then fail ErrOptimisticLockFailed else ret tt).

Definition DecrementStock (productID quantity : Z) : M unit :=
  bind (map_err (Errorf "decrement stock") (update_stock_guarded quantity productID))
    (fun rowsAffected =>
       if rowsAffected =? 0 then fail ErrInsufficientStock else ret tt).

(** ** pagination.go *)

Record CursorPage : Type := {
  Items : list Order;
  NextCursor : string;
  HasMore : bool
}.

Record OrderCursor : Type := {
  CreatedAt : Time;
  ID : Z
}.

(** [encoding/json] on an [OrderCursor]: the object
    [{"created_at":"<RFC 3339>","id":<decimal>}].  [Time.MarshalJSON]
    refuses a year outside [0,9999]. *)
Definition dq : ascii := "034"%char.

Definition key_created_at : string :=
  String "{"%char (String dq ("created_at" +:+ String dq (String ":"%char (String dq "")))).

Definition key_id : string :=
  String dq (String ","%char (String dq ("id" +:+ String dq ":"))).

Definition json_Marshal (cursor : OrderCursor) : error + string :=
  let y := time.Year (CreatedAt cursor) in
  if (y <? 0) || (y >=? 10000) then
    inl (Opaque "json: error calling MarshalJSON for type time.Time: Time.MarshalJSON: year outside of range [0,9999]")
  else
    inr (key_created_at +:+
         time.format_RFC3339Nano (CreatedAt cursor)
           (key_id +:+ itoa (ID cursor) +:+ "}")).

Fixpoint strip_prefix (p s : string) : option string :=
  match p, s with
  | EmptyString, _ => Some s
  | String a p', String b s' => if Ascii.eqb a b then strip_prefix p' s' else None
  | String _ _, EmptyString => None
  end.

Definition is_number_char (c : ascii) : bool :=
  Ascii.eqb c "-"%char || bool_decide (is_Some (time.digit_val c)).

Fixpoint take_number (s : string) : string * string :=
  match s with
  | EmptyString => (EmptyString, EmptyString)
  | String c r =>
    if is_number_char c then let '(n, k) := take_number r in (String c n, k)
    else (EmptyString, s)
  end.

(** The zero [time.Time] is January 1, year 1, 00:00:00 UTC. *)
Fixpoint all_number (s : string) : bool :=
  match s with
  | EmptyString => true
  | String c r => is_number_char c && all_number r
  end.

Definition zeroTime : Time := time.Date 1 1 1 0 0 0 0.
Definition zeroCursor : OrderCursor := {| CreatedAt := zeroTime; ID := 0 |}.

(** Reads back the object as [json_Marshal] lays it out.  Other
    spellings of the same object that Go accepts (white space, reordered
    or repeated keys, zone offsets) are reported as syntax errors here. *)
Definition json_Unmarshal (data : string) : OrderCursor * option error :=
  let syntax := (zeroCursor, Some (Opaque "json: cannot unmarshal into OrderCursor")) in
  match strip_prefix key_created_at data with
  | None => syntax
  | Some r1 =>
    match time.parse_RFC3339 r1 with
    | None => syntax
    | Some (t, r2) =>
      match strip_prefix key_id r2 with
      | None => syntax
      | Some r3 =>
        let '(num, r4) := take_number r3 in
        match DecimalString.NilZero.int_of_string num with
        | None => syntax
        | Some d =>
          let id := Z.of_int d in
          if (MinInt64 <=? id) && (id <=? MaxInt64) && String.eqb r4 "}"
          then ({| CreatedAt := t; ID := id |}, None)
          else syntax
        end
      end
    end
  end.

Definition EncodeCursor (cursor : OrderCursor) : string :=
  match json_Marshal cursor with
  | inl _ => ""
  | inr data => base64.EncodeToString data
  end.

(** [now] is what [time.Now()] reads. *)
Definition DecodeCursor (now : Time) (encoded : string) : OrderCursor * option error :=
  if String.eqb encoded "" then
    ({| CreatedAt := now; ID := MaxInt64 |}, None)
  else
    match base64.DecodeString encoded with
    | inl err => (zeroCursor, Some err)
    | inr data => json_Unmarshal data
    end.

(** ** orders.go: listing *)

(** The row comparison [(created_at, id) < ($2, $3)]. *)
Definition row_lt (createdAt id : Z) (c : OrderCursor) : bool :=
  (createdAt <? CreatedAt c) || ((createdAt =? CreatedAt c) && (id <? ID c)).

(** [ORDER BY created_at DESC, id DESC]: [order_desc a b] when [a] may
    come before [b]. *)
Definition order_desc (a b : Order) : bool :=
  (Order_CreatedAt b <? Order_CreatedAt a)
  || ((Order_CreatedAt b =? Order_CreatedAt a) && (Order_ID b <=? Order_ID a)).

Fixpoint insert_desc (o : Order) (l : list Order) : list Order :=
  match l with
  | [] => [o]
  | x :: r => if order_desc o x then o :: l else x :: insert_desc o r
  end.

Definition sort_desc (l : list Order) : list Order := foldr insert_desc [] l.

Definition desc (a b : Order) : Prop := order_desc a b = true.

(** The columns the listing scans: [user_id] and the lines are not among
    them and keep their zero values. *)
Definition scan_listed (o : Order) : Order :=
  {| Order_ID := Order_ID o; Order_UserID := 0; Order_OrderNumber := Order_OrderNumber o;
     Order_Status := Order_Status o; Order_TotalAmount := Order_TotalAmount o;
     Order_CreatedAt := Order_CreatedAt o; Order_UpdatedAt := Order_UpdatedAt o;
     Order_Version := Order_Version o; Order_Items := [] |}.

(** [SELECT ... FROM orders WHERE user_id = $1 AND (created_at, id) < ($2, $3)
    ORDER BY created_at DESC, id DESC LIMIT $4]. *)
Definition selected (userID : Z) (c : OrderCursor) (o : Order) : bool :=
  (Order_UserID o =? userID) && row_lt (Order_CreatedAt o) (Order_ID o) c.

(** The rows are read with [rows.Next] and [rows.Scan]; a failure of
    either, or of [rows.Err], is a failure of the statement here. *)
Definition select_orders_before (userID : Z) (c : OrderCursor) (n : Z) : M (list Order) :=
  stmt (fun db =>
    if n <? 0 then (inl invalid_row_count_in_limit_clause, db)
    else (inr (firstn (Z.to_nat n)
                 (sort_desc (List.filter (selected userID c) (orders db)))), db)).

Definition ListOrdersCursor (db : DB) (userID : Z) (cursor : string) (limit : Z)
    : Result CursorPage :=
  match DecodeCursor (go_now db) cursor with
  | (_, Some err) => Err (Errorf "decode cursor" err)
  | (cursorData, None) =>
    match select_orders_before userID cursorData (wrap64 (limit + 1)) db with
    | (inl err, _) => Err (Errorf "list orders" err)
    | (inr rows, _) =>
      let orders := map scan_listed rows in
      let hasMore := Z.of_nat (length orders) >? limit in
      if hasMore && (limit <? 0) then Panic "slice bounds out of range" else
      let orders := if hasMore then firstn (Z.to_nat limit) orders else orders in
      let nextCursor :=
        match hasMore, last orders with
        | true, Some lastOrder =>
          EncodeCursor {| CreatedAt := Order_CreatedAt lastOrder; ID := Order_ID lastOrder |}
        | _, _ => ""
        end in
      Ok {| Items := orders; NextCursor := nextCursor; HasMore := hasMore |}
    end
  end.

(** ** orders.go: order assembly *)

(** No statement of the transaction is failed by the server or the
    driver for reasons of its own. *)
Definition quiet (db : DB) : Prop := forall n, faults db n = None.

Record OrderItemRequest : Type := {
  ProductID : Z;
  Quantity : Z
}.

Record CreateOrderRequest : Type := {
  UserID : Z;
  Request_Items : list OrderItemRequest
}.

(** The line's product exists, no other transaction holds its row, and
    its stock covers the line. *)
Definition available (db : DB) (item : OrderItemRequest) : Prop :=
  exists p, products db !! (ProductID item) = Some p /\
            (ProductID item ∉ locked db) /\
            Quantity item <= Product_StockQuantity p.

(** ["ORD-%d"] of [time.Now().UnixNano()]. *)
Definition generateOrderNumber (now : Time) : string := "ORD-" +:+ itoa now.

(** First loop of the unit of work: lock every line's product with
    [FOR UPDATE NOWAIT], check its stock, record its price. *)
Fixpoint lock_items (items : list OrderItemRequest) (productPrices : gmap Z Decimal)
    (totalAmount : Decimal) : M (gmap Z Decimal * Decimal) :=
  match items with
  | [] => ret (productPrices, totalAmount)
  | item :: rest =>
    bind
      (map_err (fun err => if bool_decide (err = ErrNoRows) then ErrProductNotFound
                           else Errorf ("lock product " +:+ itoa (ProductID item)) err)
               (select_product_for_update true (ProductID item)))
      (fun p =>
         if Product_StockQuantity p <? Quantity item then fail ErrInsufficientStock
         else lock_items rest (<[ProductID item := Product_Price p]> productPrices)
                (totalAmount + Product_Price p * Quantity item))
  end.

(** Second loop: one [order_items] row per line; a product the map does
    not hold reads as the zero price. *)
Fixpoint insert_items (items : list OrderItemRequest) (orderID : Z)
    (productPrices : gmap Z Decimal) : M unit :=
  match items with
  | [] => ret tt
  | item :: rest =>
    let unitPrice := default 0 (productPrices !! (ProductID item)) in
    let subtotal := unitPrice * Quantity item in
    bind (map_err (Errorf "create order item")
            (insert_order_item orderID (ProductID item) (Quantity item) unitPrice subtotal))
      (fun _ => insert_items rest orderID productPrices)
  end.

(** Third loop: the guarded decrement of every line. *)
Fixpoint decrement_items (items : list OrderItemRequest) : M unit :=
  match items with
  | [] => ret tt
  | item :: rest =>
    bind (map_err (Errorf "update stock")
            (update_stock_guarded (Quantity item) (ProductID item)))
      (fun rowsAffected =>
         if rowsAffected =? 0 then fail ErrInsufficientStock
         else decrement_items rest)
  end.

(** The unit of work up to the assignment of [order]. *)
Definition assemble (req : CreateOrderRequest) : M Z :=
  bind (map_err (Errorf "check user exists") (select_user_exists (UserID req)))
    (fun exists_ =>
  if negb exists_ then fail ErrUserNotFound else
  bind (lock_items (Request_Items req) ∅ 0)
    (fun '(productPrices, totalAmount) =>
  bind (fun db => map_err (Errorf "create order")
          (insert_order (UserID req) (generateOrderNumber (go_now db))
             OrderStatusPending totalAmount) db)
    (fun orderID =>
  bind (insert_items (Request_Items req) orderID productPrices)
    (fun _ =>
  bind (decrement_items (Request_Items req))
    (fun _ => ret orderID))))).

Definition zeroOrder (id : Z) : Order :=
  {| Order_ID := id; Order_UserID := 0; Order_OrderNumber := "";
     Order_Status := ""; Order_TotalAmount := 0;
     Order_CreatedAt := zeroTime; Order_UpdatedAt := zeroTime;
     Order_Version := 0; Order_Items := [] |}.

(** The closure passed to [WithRetry]; the captured variable is [order]. *)
Definition CreateOrder_fn (req : CreateOrderRequest) (tx : DB) (order : option Order)
    : option error * DB * option Order :=
  match assemble req tx with
  | (inl err, tx') => (Some err, tx', order)
  | (inr orderID, tx') =>
    match map_err (Errorf "fetch created order") (select_order orderID) tx' with
    | (inl err, tx'') => (Some err, tx'', Some (zeroOrder orderID))
    | (inr row, tx'') =>
      (None, tx'',
       Some {| Order_ID := orderID; Order_UserID := Order_UserID row;
               Order_OrderNumber := Order_OrderNumber row;
               Order_Status := Order_Status row;
               Order_TotalAmount := Order_TotalAmount row;
               Order_CreatedAt := Order_CreatedAt row;
               Order_UpdatedAt := Order_UpdatedAt row;
               Order_Version := Order_Version row; Order_Items := [] |})
    end
  end.

Definition CreateOrder_opts : TxOptions :=
  {| Isolation := LevelSerializable; ReadOnly := false; MaxRetries := 3 |}.

(** [CreateOrder]: the order and the error it returns, with the trace of
    the retrying executor underneath. *)
Definition CreateOrder_run (env : Env DB) (req : CreateOrderRequest) : Run DB (option Order) :=
  WithRetry env CreateOrder_opts (CreateOrder_fn req) None.

Definition CreateOrder (env : Env DB) (req : CreateOrderRequest)
    : option Order * Outcome :=
  let r := CreateOrder_run env req in
  match outcome r with
  | Returned None => (captured r, Returned None)
  | o => (None, o)
  end.

(** ** products.go: reading *)

(** [GetProduct]: [sql.ErrNoRows] becomes [ErrProductNotFound], any other
    failure is wrapped. *)
Definition GetProduct (id : Z) : M Product :=
  map_err (fun err => if bool_decide (err = ErrNoRows) then ErrProductNotFound
                      else Errorf "get product" err)
          (select_product id).

(** [OffsetPage] of pagination.go; its [Items] are products here. *)
Record OffsetPage (A : Type) : Type := {
  Page_Items : list A;
  Total : Z;
  Page : Z;
  PageSize : Z;
  TotalPages : Z
}.
Arguments Page_Items {A} _.
Arguments Total {A} _.
Arguments Page {A} _.
Arguments PageSize {A} _.
Arguments TotalPages {A} _.

(** Go's [/] and [%] on [int] truncate toward zero and panic on a zero
    divisor.  [total] is a row count, so the quotient and its increment
    stay within [int]; the offset is computed from the caller's numbers
    and may wrap around. *)
Definition ListProducts (db : DB) (page pageSize : Z) : Result (OffsetPage Product) :=
  match map_err (Errorf "count products") select_count_products db with
  | (inl err, _) => Err err
  | (inr total, db) =>
    let offset := wrap64 ((page - 1) * pageSize) in
    match map_err (Errorf "list products") (select_products_page pageSize offset) db with
    | (inl err, _) => Err err
    | (inr products, _) =>
      if pageSize =? 0 then Panic "runtime error: integer divide by zero" else
      let totalPages := Z.quot total pageSize in
      let totalPages := if Z.rem total pageSize >? 0 then totalPages + 1 else totalPages in
      Ok {| Page_Items := products; Total := total; Page := page; PageSize := pageSize;
            TotalPages := totalPages |}
    end
  end.

(** ** orders.go: reading *)

(** The order as [GetOrder] returns it: the columns of the row, and the
    lines read by the second query. *)
Definition with_items (o : Order) (items : list OrderItem) : Order :=
  {| Order_ID := Order_ID o; Order_UserID := Order_UserID o;
     Order_OrderNumber := Order_OrderNumber o; Order_Status := Order_Status o;
     Order_TotalAmount := Order_TotalAmount o; Order_CreatedAt := Order_CreatedAt o;
     Order_UpdatedAt := Order_UpdatedAt o; Order_Version := Order_Version o;
     Order_Items := items |}.


(** [GetNextPendingOrder], run inside a transaction of the caller; the
    lines are not read and stay empty. *)
Definition GetNextPendingOrder (held : gset Z) : M Order :=
  bind (map_err (fun err => if bool_decide (err = ErrNoRows) then ErrOrderNotFound
                            else Errorf "get next pending order" err)
                (select_next_order held OrderStatusPending))
    (fun order => ret (with_items order [])).

(** ** The unit of work of the integration tests *)

(** The unit of work of the stock-reservation test: reserve, then
    decrement, the same quantity of one product. *)
Definition reserve_and_decrement (productID quantity : Z) (tx : DB) (cap : unit)
    : option error * DB * unit :=
  match bind (ReserveStock productID quantity)
             (fun _ => DecrementStock productID quantity) tx with
  | (inl err, tx') => (Some err, tx', cap)
  | (inr _, tx') => (None, tx', cap)
  end.

(** A server and a context that do as asked: every transaction begins
    on [db], and its rollback or commit succeeds. *)
Definition obliging (db : DB) : Env DB :=
  {| attempts := fun _ =>
       {| ctx_done := false; begin_tx := inr db; rollback_err := None;
          commit_err := None; rand_draw := 0; ctx_done_in_sleep := false |};
     ctx_deadline := false |}.

(** What a transaction leaves behind: the state its commit made durable
    or, without a commit that succeeded, the state it began on. *)
Definition committed (db : DB) (r : Run DB unit) : DB :=
  match last (trace r) with
  | Some (EvCommit _ tx' None) => tx'
  | _ => db
  end.

(** The goroutines of [TestConcurrentStockReservation], let through one
    at a time as the row lock taken by [ReserveStock] orders them: each
    transaction begins on what the ones before it committed.  The result
    is [successCount] and the store that the final [GetProduct] reads. *)
Fixpoint reservations (concurrency : nat) (productID quantity : Z) (db : DB) : Z * DB :=
  match concurrency with
  | O => (0, db)
  | S rest =>
    let r := WithTransaction (obliging db) DefaultTxOptions
               (reserve_and_decrement productID quantity) tt in
    let (successCount, db') := reservations rest productID quantity (committed db r) in
    (match outcome r with
     | Returned None => successCount + 1
     | _ => successCount
     end, db')
  end.

(** ** Vocabulary of the properties *)

(** What an inventory operation leaves of the catalogue: the same rows,
    each with its identity and its price, and no negative quantity. *)
Definition catalogue_kept (db db' : DB) : Prop :=
  dom (products db') = dom (products db) /\
  forall id p', products db' !! id = Some p' ->
    exists p, products db !! id = Some p /\
      Product_ID p' = Product_ID p /\ Product_SKU p' = Product_SKU p /\
      Product_Name p' = Product_Name p /\ Product_Price p' = Product_Price p /\
      Product_CreatedAt p' = Product_CreatedAt p /\
      (Product_StockQuantity p' = Product_StockQuantity p \/ 0 <= Product_StockQuantity p').

(** The orders in which the two sorted readers return rows. *)
Definition newest (a b : Product) : Prop := Product_CreatedAt b <= Product_CreatedAt a.

Definition oldest (a b : Order) : Prop := Order_CreatedAt a <= Order_CreatedAt b.

(** The price the catalogue of [db] gives the product [id]. *)
Definition price_of (db : DB) (id : Z) : Decimal :=
  default 0 (Product_Price <$> products db !! id).

(** The rows of [order_items] an order of [items] consists of, numbered
    from [next] on. *)
Fixpoint order_lines (unitPrice : Z -> Decimal) (now : Time) (orderID next : Z)
    (items : list OrderItemRequest) : list OrderItem :=
  match items with
  | [] => []
  | item :: rest =>
    {| OrderItem_ID := next; OrderItem_OrderID := orderID;
       OrderItem_ProductID := ProductID item; OrderItem_Quantity := Quantity item;
       OrderItem_UnitPrice := unitPrice (ProductID item);
       OrderItem_Subtotal := unitPrice (ProductID item) * Quantity item;
       OrderItem_CreatedAt := now |}
    :: order_lines unitPrice now orderID (next + 1) rest
  end.

Definition subtotals (lines : list OrderItem) : Decimal :=
  foldr (fun line acc => OrderItem_Subtotal line + acc) 0 lines.

(** A line the store can serve: its product exists, is not locked by
    another transaction, is priced, and the quantity is positive and
    covered by the stock. *)
Definition orderable (db : DB) (item : OrderItemRequest) : Prop :=
  exists p, products db !! (ProductID item) = Some p /\
            (ProductID item ∉ locked db) /\
            0 < Quantity item <= Product_StockQuantity p /\
            0 <= Product_Price p.

(** The identifiers the table holds were drawn from its sequence. *)
Definition sequences_ahead (db : DB) : Prop :=
  Forall (fun o => Order_ID o <= orders_id_seq db) (orders db) /\
  Forall (fun i => OrderItem_OrderID i <= orders_id_seq db) (order_items db).

(** The row [CreateOrder] inserts for [req] in the transaction [tx]. *)
Definition new_order (tx : DB) (req : CreateOrderRequest) : Order :=
  {| Order_ID := orders_id_seq tx + 1; Order_UserID := UserID req;
     Order_OrderNumber := generateOrderNumber (go_now tx);
     Order_Status := OrderStatusPending;
     Order_TotalAmount :=
       subtotals (order_lines (price_of tx) (pg_now tx) (orders_id_seq tx + 1)
                    (order_items_id_seq tx + 1) (Request_Items req));
     Order_CreatedAt := pg_now tx; Order_UpdatedAt := pg_now tx;
     Order_Version := 1; Order_Items := [] |}.

(** What a statement leaves of the store besides the tables. *)
Definition frame (db db' : DB) : Prop :=
  users db' = users db /\ locked db' = locked db /\ pg_now db' = pg_now db /\
  go_now db' = go_now db /\ faults db' = faults db.

(** The price map the locking loop builds. *)
Definition priced (db : DB) (prices : gmap Z Decimal) (items : list OrderItemRequest)
    : gmap Z Decimal :=
  foldl (fun m item => <[ProductID item := price_of db (ProductID item)]> m) prices items.

(** The strict version of the listing order. *)
Definition before (a b : Order) : Prop :=
  row_lt (Order_CreatedAt b) (Order_ID b)
    {| CreatedAt := Order_CreatedAt a; ID := Order_ID a |} = true.

Definition position (o : Order) : OrderCursor :=
  {| CreatedAt := Order_CreatedAt o; ID := Order_ID o |}.

(** The listing of an account, all of it. *)
Definition listing (db : DB) (userID : Z) : list Order :=
  sort_desc (List.filter (fun o => Order_UserID o =? userID) (orders db)).

(** A character of the URL-safe alphabet, or the padding character. *)
Definition url_safe (c : ascii) : bool :=
  bool_decide (is_Some (base64.dec c)) || Ascii.eqb c base64.padChar.

Fixpoint string_forall (f : ascii -> bool) (s : string) : bool :=
  match s with
  | EmptyString => true
  | String c r => f c && string_forall f r
  end.

End store.

(** * Scenarios

    Concrete stores, environments and requests on which the properties
    below are exercised. *)

Module scenario.
Import database models pg store.

Definition widget (stock version : Z) : Product :=
  {| Product_ID := 1; Product_SKU := "WIDGET-001"; Product_Name := "Premium Widget";
     Product_Description := "High-quality widget"; Product_Price := 2999;
     Product_StockQuantity := stock; Product_CreatedAt := 1705314000000000000;
     Product_UpdatedAt := 1705314000000000000; Product_Version := version |}.

Definition placed (id userID : Z) (createdAt : Time) : Order :=
  {| Order_ID := id; Order_UserID := userID;
     Order_OrderNumber := "ORD-" +:+ itoa createdAt; Order_Status := OrderStatusPending;
     Order_TotalAmount := 2999; Order_CreatedAt := createdAt; Order_UpdatedAt := createdAt;
     Order_Version := 1; Order_Items := [] |}.

(** One account (7), one product (1) with [stock] on hand, the rows of
    [lk] locked by other transactions, and the orders [os]. *)
Definition shop_with (os : list Order) (lk : gset Z) (stock : Z) : DB :=
  {| users := {[ 7 ]}; products := {[ 1 := widget stock 1 ]}; orders := os;
     order_items := []; orders_id_seq := Z.of_nat (length os); order_items_id_seq := 0;
     locked := lk;
     pg_now := 1705314600000000000; go_now := 1705314600000000001;
     faults := fun _ => None; stmts := 0 |}.

Definition shop : gset Z -> Z -> DB := shop_with [].

(** Three orders of account 7 and one of account 8, in insertion order. *)
Definition busy_shop : DB :=
  shop_with [placed 1 7 1705314100000000000; placed 2 8 1705314200000000000;
             placed 3 7 1705314300000000000; placed 4 7 1705314300000000000] ∅ 5.

(** The store's clock runs ahead of the process clock: the one order of
    account 7 is stamped a nanosecond after [go_now]. *)
Definition skewed_shop : DB :=
  shop_with [placed 1 7 1705314600000000002] ∅ 5.

(** An attempt during which nothing goes wrong outside the unit of work. *)
Definition calm (db : DB) : Attempt DB :=
  {| ctx_done := false; begin_tx := inr db; rollback_err := None; commit_err := None;
     rand_draw := 123456789; ctx_done_in_sleep := false |}.

(** The widget row is locked by another checkout during the first
    attempt only. *)
Definition locked_once : Env DB :=
  {| attempts := fun k => if k =? 0 then calm (shop {[ 1 ]} 5) else calm (shop ∅ 5);
     ctx_deadline := false |}.

(** The same, and the caller cancels while the executor sleeps. *)
Definition cancelled_asleep : Env DB :=
  {| attempts := fun k =>
       {| ctx_done := false; begin_tx := inr (shop {[ 1 ]} 5); rollback_err := None;
          commit_err := None; rand_draw := 123456789; ctx_done_in_sleep := true |};
     ctx_deadline := false |}.


Definition never_locked : Env DB :=
  {| attempts := fun _ => calm (shop ∅ 5); ctx_deadline := false |}.

Definition two_widgets : CreateOrderRequest :=
  {| UserID := 7; Request_Items := [ {| ProductID := 1; Quantity := 2 |} ] |}.

Definition eight_widgets : CreateOrderRequest :=
  {| UserID := 7; Request_Items := [ {| ProductID := 1; Quantity := 8 |} ] |}.

Definition lock_product_1 : error := Errorf "lock product 1" (PqError "55P03").

Definition no_attempts : TxOptions :=
  {| Isolation := LevelReadCommitted; ReadOnly := false; MaxRetries := -1 |}.

(** 2024-01-15T10:30:00Z, order 42. *)
Definition a_position : OrderCursor :=
  {| CreatedAt := 1705314600000000000; ID := 42 |}.


(** An order in the queue of the workers. *)
Definition queued (id : Z) (status : string) (createdAt : Time) : Order :=
  {| Order_ID := id; Order_UserID := 7; Order_OrderNumber := "ORD-" +:+ itoa createdAt;
     Order_Status := status; Order_TotalAmount := 2999; Order_CreatedAt := createdAt;
     Order_UpdatedAt := createdAt; Order_Version := 1; Order_Items := [] |}.

(** A shipped order, then three pending ones of which the oldest is
    locked by another worker. *)
Definition queue_shop : DB :=
  shop_with
    [queued 1 OrderStatusShipped 1705314100000000000;
     queued 2 OrderStatusPending 1705314400000000000;
     queued 3 OrderStatusPending 1705314200000000000;
     queued 4 OrderStatusPending 1705314300000000000] ∅ 5.

(** The one order of the account was numbered at the very instant the
    process clock shows. *)
Definition same_instant_shop : DB :=
  shop_with [placed 1 7 1705314600000000001] ∅ 5.

End scenario.

(** * Properties *)

Import database models pg store.

(** ** Tactics *)

Ltac loop_paths :=
  cbn [retry_loop]; cbv zeta;
  repeat match goal with
         | |- context [match ?x with _ => _ end] =>
           match x with
           | context [retry_loop] => fail 1
           | _ => destruct x eqn:?
           end
         end;
  cbn [trace outcome captured emit finish].

Ltac in_list :=
  solve [ repeat first [ apply list_elem_of_here | apply list_elem_of_further ]; assumption ].

Ltac split_elem H :=
  repeat (rewrite elem_of_cons in H);
  repeat match type of H with
         | _ \/ _ => destruct H as [H|H]
         end.

Ltac norm_tests :=
  repeat match goal with
         | H : bool_decide _ = false |- _ => apply bool_decide_eq_false in H
         | H : bool_decide _ = true |- _ => apply bool_decide_eq_true in H
         | H : (_ =? _) = false |- _ => apply Z.eqb_neq in H
         | H : (_ =? _) = true |- _ => apply Z.eqb_eq in H
         | H : negb (_ <=? _) = false |- _ => apply negb_false_iff, Z.leb_le in H
         | H : negb (_ <=? _) = true |- _ => apply negb_true_iff, Z.leb_gt in H
         end.

(** ** Machine integers and bytes *)

Lemma wrap64_id (z : Z) : MinInt64 <= z <= MaxInt64 -> wrap64 z = z.
Proof.
  unfold wrap64, MinInt64, MaxInt64. intros H.
  rewrite Z.mod_small; lia.
Qed.


Lemma byte_val_range (a : ascii) : 0 <= byte_val a < 256.
Proof.
  unfold byte_val. pose proof (N_ascii_bounded a). lia.
Qed.

Lemma byte_of_val (a : ascii) : byte_of (byte_val a) = a.
Proof. unfold byte_of, byte_val. rewrite N2Z.id. apply ascii_N_embedding. Qed.

Lemma byte_val_of (z : Z) : 0 <= z < 256 -> byte_val (byte_of z) = z.
Proof.
  intros H. unfold byte_of, byte_val.
  rewrite N_ascii_embedding by lia. lia.
Qed.

Lemma below_cases (P : Z -> Prop) (n : nat) :
  (forall i : nat, (i < n)%nat -> P (Z.of_nat i)) ->
  forall v, 0 <= v < Z.of_nat n -> P v.
Proof.
  intros H v Hv. rewrite <- (Z2Nat.id v) by lia. apply H. lia.
Qed.

(** ** The classifier *)

Lemma Is_sentinel_no_pq (e target : error) :
  As_pqError target = None -> Is e target = true -> As_pqError e = None.
Proof.
  intros Ht.
  induction e; simpl; intros H; apply orb_true_iff in H as [H|H];
    first [ apply bool_decide_eq_true in H; by subst | done | auto ].
Qed.

Lemma ClassifyError_no_pq (e : error) :
  As_pqError e = None -> ClassifyError (Some e) = ErrorClassPermanent.
Proof. intros H. unfold ClassifyError. rewrite H. by destruct (Is e ErrNoRows). Qed.

Lemma ClassifyError_code (e : error) (code : string) :
  As_pqError e = Some code ->
  ClassifyError (Some e) =
    if String.eqb code "40001" then ErrorClassSerialization
    else if String.eqb code "40P01" then ErrorClassDeadlock
    else if String.eqb code "55P03" then ErrorClassTransient
    else ErrorClassPermanent.
Proof.
  intros H. unfold ClassifyError. rewrite H.
  repeat case_match; reflexivity.
Qed.

(** C5. For every error value: an error whose chain holds a [*pq.Error]
    is classified by its SQLSTATE code, the constraint violations 23505
    (uniqueness), 23503 (foreign key), 23502 (not null) and 23514 (check)
    as Permanent, 55P03 (lock not available, the lock-acquisition
    timeout) as Transient, 40P01 (deadlock detected) as Deadlock, 40001
    (serialization failure) as SerializationConflict, and every other
    code as Permanent; the not-found conditions are Permanent; an error
    the classifier does not recognise, the package's own sentinels
    among them, is Permanent, and so is [nil]; and [IsRetryable] holds
    exactly for the classes Transient, Deadlock and
    SerializationConflict. *)
Theorem classifier_policy (err : option error) :
  (forall e code, err = Some e -> As_pqError e = Some code ->
     (code ∈ ["23505"; "23503"; "23502"; "23514"] -> ClassifyError err = ErrorClassPermanent) /\
     (code = "55P03" -> ClassifyError err = ErrorClassTransient) /\
     (code = "40P01" -> ClassifyError err = ErrorClassDeadlock) /\
     (code = "40001" -> ClassifyError err = ErrorClassSerialization) /\
     (code ∉ ["55P03"; "40P01"; "40001"] -> ClassifyError err = ErrorClassPermanent)) /\
  (forall e, err = Some e ->
     Is e ErrNoRows = true \/ Is e ErrUserNotFound = true \/
     Is e ErrProductNotFound = true \/ Is e ErrOrderNotFound = true ->
     ClassifyError err = ErrorClassPermanent) /\
  (forall e, err = Some e -> As_pqError e = None -> ClassifyError err = ErrorClassPermanent) /\
  (err = None -> ClassifyError err = ErrorClassPermanent) /\
  (IsRetryable err = true <->
     ClassifyError err = ErrorClassTransient \/ ClassifyError err = ErrorClassDeadlock \/
     ClassifyError err = ErrorClassSerialization).
Proof.
  split.
  { intros e code -> Hc. rewrite (ClassifyError_code _ _ Hc).
    repeat split.
    - intros Hin. set_unfold in Hin. destruct Hin as [->|[->|[->|[->|[]]]]]; reflexivity.
    - by intros ->.
    - by intros ->.
    - by intros ->.
    - intros Hn. set_unfold in Hn.
      destruct (String.eqb_spec code "40001"); [tauto|].
      destruct (String.eqb_spec code "40P01"); [tauto|].
      destruct (String.eqb_spec code "55P03"); [tauto|]. reflexivity. }
  split.
  { intros e -> H. apply ClassifyError_no_pq.
    destruct H as [H|[H|[H|H]]]; by eapply Is_sentinel_no_pq in H. }
  split; [intros e -> H; by apply ClassifyError_no_pq|].
  split; [by intros ->|].
  unfold IsRetryable. cbv zeta.
  rewrite !orb_true_iff, !bool_decide_eq_true. tauto.
Qed.

Lemma classifier_policy_witness :
  ClassifyError (Some scenario.lock_product_1) = ErrorClassTransient /\
  IsRetryable (Some scenario.lock_product_1) = true /\
  ClassifyError (Some ErrLockTimeout) = ErrorClassPermanent.
Proof.
  destruct (classifier_policy (Some scenario.lock_product_1)) as (Hcode & _ & _ & _ & Hretry).
  destruct (Hcode scenario.lock_product_1 "55P03" eq_refl eq_refl) as (_ & Ht & _).
  destruct (classifier_policy (Some ErrLockTimeout)) as (_ & _ & Hunknown & _).
  split; [exact (Ht eq_refl)|].
  split; [apply Hretry; left; exact (Ht eq_refl)|].
  exact (Hunknown ErrLockTimeout eq_refl eq_refl).
Defined.

(** ** The retrying executor *)

Section RetryAttempts.
Context {Tx Captured : Type}.
Variables (env : Env Tx) (opts : TxOptions)
  (fn : Tx -> Captured -> option error * Tx * Captured).

(** The loop entered at attempt [k] only records events of attempts from
    [k] on. *)
Lemma retry_loop_attempts (fuel : nat) (k b : Z) (le : option error) cap :
  Forall (fun ev => k <= event_attempt ev) (trace (retry_loop env opts fn fuel k b le cap)).
Proof.
  revert k b le cap. induction fuel as [|fuel IH]; intros k b le cap.
  - constructor.
  - loop_paths; repeat constructor; simpl; try lia.
    all: eapply Forall_impl; [apply IH|]; simpl; intros; lia.
Qed.

End RetryAttempts.

Ltac in_tail :=
  match goal with
  | H : ?ev ∈ trace (retry_loop ?env ?opts ?fn ?f ?k ?b ?le ?c) |- _ =>
    let Hk := fresh "Hk" in
    pose proof (retry_loop_attempts env opts fn f k b le c) as Hk;
    rewrite Forall_forall in Hk; specialize (Hk _ H); simpl in Hk
  end.

Section RetryFacts.
Context {Tx Captured : Type}.
Variables (env : Env Tx) (opts : TxOptions)
  (fn : Tx -> Captured -> option error * Tx * Captured).


Lemma retry_loop_cancel (fuel : nat) (k b : Z) (le : option error) cap (ev : Event Tx) :
  let r := retry_loop env opts fn fuel k b le cap in
  ev ∈ trace r -> observed_cancel ev = true ->
  last (trace r) = Some ev /\ outcome r = Returned (Some (ctx_err env)).
Proof.
  revert k b le cap. induction fuel as [|fuel IH]; intros k b le cap; cbv zeta.
  - cbn. by intros ?%elem_of_nil.
  - loop_paths; intros Hin Hc; split_elem Hin; subst; try discriminate;
      try (by apply elem_of_nil in Hin); try done.
    all: destruct (IH _ _ _ _ Hin Hc) as [Hl Ho]; rewrite ?last_cons_cons, last_cons, Hl; done.
Qed.

Lemma retry_loop_flags (fuel : nat) (k b : Z) (le : option error) cap (ev : Event Tx) :
  ev ∈ trace (retry_loop env opts fn fuel k b le cap) ->
  match ev with
  | EvCtxCheck a done => done = ctx_done (attempts env a)
  | EvSleep a _ _ _ cancelled => cancelled = ctx_done_in_sleep (attempts env a)
  | _ => True
  end.
Proof.
  revert k b le cap. induction fuel as [|fuel IH]; intros k b le cap.
  - cbn. by intros ?%elem_of_nil.
  - loop_paths; intros Hin; split_elem Hin; subst; try done; try congruence;
      try (by apply elem_of_nil in Hin); eauto.
Qed.

Lemma retry_loop_check_before_begin (fuel : nat) (k b : Z) (le : option error) cap
    (i : nat) (a : Z) iso ro failed :
  trace (retry_loop env opts fn fuel k b le cap) !! i = Some (EvBeginTx a iso ro failed) ->
  exists i', i = S i' /\
    trace (retry_loop env opts fn fuel k b le cap) !! i' = Some (EvCtxCheck a false).
Proof.
  revert k b le cap i. induction fuel as [|fuel IH]; intros k b le cap i.
  - done.
  - loop_paths; intros Hi;
      do 5 (try (destruct i as [|i]; simplify_eq/=; eauto)).
    all: try (destruct i as [|i]; simplify_eq/=; eauto; fail).
    all: destruct (IH _ _ _ _ _ Hi) as (i' & -> & Hi'); exists (5 + i')%nat; done.
Qed.







Lemma retry_loop_no_attempts (fuel : nat) (k b : Z) le cap :
  MaxRetries opts < k ->
  retry_loop env opts fn (S fuel) k b le cap = finish (Returned le) cap.
Proof.
  intros H. cbn [retry_loop].
  destruct (Z.leb_spec k (MaxRetries opts)); [lia|]. reflexivity.
Qed.

Lemma retry_loop_terminates (fuel : nat) (k b : Z) le cap :
  enough opts fuel k ->
  outcome (retry_loop env opts fn fuel k b le cap) <> OutOfFuel.
Proof.
  revert k b le cap. induction fuel as [|fuel IH]; intros k b le cap Hf.
  - unfold enough in Hf. lia.
  - loop_paths; try done; norm_tests.
    all: apply IH; unfold enough in *; lia.
Qed.


Lemma backoff_no_overflow (k : Z) :
  0 <= k <= 37 ->
  let b := 50 * Millisecond * 2 ^ k in
  wrap64 b = b /\ 0 < b / 4 /\ Z.quot b 4 = b / 4 /\
  forall j, 0 <= j < b / 4 -> wrap64 (b + j) = b + j.
Proof.
  intros Hk b.
  assert (1 <= 2 ^ k <= 2 ^ 37) as Hp.
  { split; [apply (Z.pow_le_mono_r 2 0 k); lia | apply Z.pow_le_mono_r; lia]. }
  assert (50000000 <= b <= 50000000 * 2 ^ 37) as Hb by (unfold b, Millisecond; lia).
  change (2 ^ 37) with 137438953472 in Hb.
  assert (0 < b / 4) by (apply Z.div_str_pos; lia).
  assert (b / 4 * 4 <= b) by (pose proof (Z.mul_div_le b 4); lia).
  split; [apply wrap64_id; unfold MinInt64, MaxInt64; lia|].
  split; [done|].
  split; [apply Z.quot_div_nonneg; lia|].
  intros j Hj. apply wrap64_id. unfold MinInt64, MaxInt64. lia.
Qed.

Lemma Int63n_pos (draw n : Z) :
  0 < n -> Int63n draw n = Some (draw mod n) /\ 0 <= draw mod n < n.
Proof.
  intros Hn. unfold Int63n. destruct (Z.leb_spec n 0); [lia|].
  split; [done|]. apply Z.mod_pos_bound. lia.
Qed.

(** Up to attempt 37 the backoff is 50ms doubled [k] times, a quarter of
    it is positive, and the sleep does not overflow. *)
Lemma retry_sleeps (k draw : Z) :
  0 <= k <= 37 ->
  let b := 50 * Millisecond * 2 ^ k in
  let j := draw mod (b / 4) in
  wrap64 b = b /\ Z.quot b 4 = b / 4 /\ Int63n draw (b / 4) = Some j /\
  0 <= j < b / 4 /\ wrap64 (b + j) = b + j.
Proof.
  intros Hk b j.
  destruct (backoff_no_overflow k Hk) as (Hw & Hq & Hquot & Hsum).
  destruct (Int63n_pos draw _ Hq) as [HI Hj].
  repeat split; try done; try apply Hj. by apply Hsum.
Qed.


Lemma WithRetry_enough : enough opts (WithRetry_fuel opts) 0.
Proof. unfold enough, WithRetry_fuel. lia. Qed.

(** C10. With a strictly negative [MaxRetries], [WithRetry] returns
    [nil]: the loop body never runs, so no transaction is begun and the
    unit of work is never invoked (the trace is empty and the captured
    variables are untouched), and the initial [nil] of [lastErr] is what
    is returned. *)
Theorem WithRetry_negative_MaxRetries cap :
  MaxRetries opts < 0 ->
  WithRetry env opts fn cap = {| outcome := Returned None; captured := cap; trace := [] |}.
Proof. intros H. unfold WithRetry, WithRetry_fuel. by rewrite retry_loop_no_attempts. Qed.

(** C9. In every run of [WithRetry], each [BeginTx] comes right after a
    check of the context that found it not done; what the check before
    an attempt and the select of a backoff sleep record is the state of
    the caller's context; and once either of them finds the context
    done, that is the last thing the executor does and it returns
    [ctx.Err()] itself, which is [context.Canceled] or
    [context.DeadlineExceeded], unwrapped. *)
Theorem WithRetry_cancellation cap :
  let r := WithRetry env opts fn cap in
  (forall (i : nat) (a : Z) iso ro failed,
     trace r !! i = Some (EvBeginTx a iso ro failed) ->
     exists i', i = S i' /\ trace r !! i' = Some (EvCtxCheck a false)) /\
  (forall (a : Z) (done : bool),
     EvCtxCheck a done ∈ trace r -> done = ctx_done (attempts env a)) /\
  (forall (a b j d : Z) (cancelled : bool),
     EvSleep a b j d cancelled ∈ trace r ->
     cancelled = ctx_done_in_sleep (attempts env a)) /\
  (forall ev : Event Tx,
     ev ∈ trace r -> observed_cancel ev = true ->
     last (trace r) = Some ev /\
     outcome r = Returned (Some (ctx_err env)) /\
     (ctx_err env = Canceled \/ ctx_err env = DeadlineExceeded)).
Proof.
  cbv zeta. unfold WithRetry. repeat split.
  - intros i a iso ro failed. apply retry_loop_check_before_begin.
  - intros a done Hin. by apply retry_loop_flags in Hin.
  - intros a b j d c Hin. by apply retry_loop_flags in Hin.
  - by eapply retry_loop_cancel.
  - by eapply retry_loop_cancel.
  - unfold ctx_err. destruct (ctx_deadline env); auto.
Qed.


(** The fuel of [WithRetry] is never used up: the call returns or panics. *)
Theorem WithRetry_terminates cap :
  outcome (WithRetry env opts fn cap) <> OutOfFuel.
Proof. apply retry_loop_terminates, WithRetry_enough. Qed.

End RetryFacts.

Lemma WithRetry_negative_MaxRetries_witness :
  MaxRetries scenario.no_attempts < 0 /\
  WithRetry scenario.never_locked scenario.no_attempts
    (CreateOrder_fn scenario.two_widgets) None
  = {| outcome := Returned None; captured := None; trace := [] |}.
Proof.
  split; [reflexivity|].
  apply (WithRetry_negative_MaxRetries scenario.never_locked scenario.no_attempts
           (CreateOrder_fn scenario.two_widgets) None).
  reflexivity.
Defined.

Lemma WithRetry_cancellation_witness :
  let r := CreateOrder_run scenario.cancelled_asleep scenario.two_widgets in
  EvSleep 0 50000000 10956789 60956789 true ∈ trace r /\
  last (trace r) = Some (EvSleep 0 50000000 10956789 60956789 true) /\
  outcome r = Returned (Some Canceled).
Proof.
  cbv zeta.
  assert (EvSleep 0 50000000 10956789 60956789 true
          ∈ trace (CreateOrder_run scenario.cancelled_asleep scenario.two_widgets)) as Hin.
  { vm_compute. in_list. }
  destruct (WithRetry_cancellation scenario.cancelled_asleep CreateOrder_opts
              (CreateOrder_fn scenario.two_widgets) None) as (_ & _ & _ & H).
  destruct (H _ Hin eq_refl) as (Hl & Ho & _).
  split; [exact Hin|]. split; [exact Hl|exact Ho].
Defined.


(** ** Inventory locking *)

Lemma stmt_ok {A} (sem : M A) (db : DB) :
  faults db (stmts db) = None -> stmt sem db = sem (tick db).
Proof. intros H. unfold stmt. by rewrite H. Qed.

(** C3. A call to [UpdateStockOptimistic] with a revision other than the
    row's current one fails with [ErrOptimisticLockFailed] and leaves
    the products table as it was; a call for a row that does not exist
    fails in the very same way, since both update zero rows. *)
Theorem UpdateStockOptimistic_conflict (db : DB) (productID newStock version : Z) :
  faults db (stmts db) = None ->
  (forall p, products db !! productID = Some p -> Product_Version p <> version ->
     UpdateStockOptimistic productID newStock version db
     = (inl ErrOptimisticLockFailed, tick db)) /\
  (products db !! productID = None ->
     UpdateStockOptimistic productID newStock version db
     = (inl ErrOptimisticLockFailed, tick db)) /\
  products (tick db) = products db.
Proof.
  intros Hf. unfold UpdateStockOptimistic, bind, map_err, update_stock_versioned.
  rewrite stmt_ok by done. cbn [products tick].
  repeat split.
  - intros p -> Hv. destruct (Z.eqb_spec (Product_Version p) version); [done|]. reflexivity.
  - intros ->. reflexivity.
Qed.

Lemma UpdateStockOptimistic_conflict_witness :
  products (scenario.shop ∅ 5) !! 1 = Some (scenario.widget 5 1) /\
  UpdateStockOptimistic 1 3 9 (scenario.shop ∅ 5)
  = (inl ErrOptimisticLockFailed, tick (scenario.shop ∅ 5)).
Proof.
  split; [reflexivity|].
  destruct (UpdateStockOptimistic_conflict (scenario.shop ∅ 5) 1 3 9 eq_refl) as (H & _).
  apply (H (scenario.widget 5 1)); [reflexivity|discriminate].
Defined.

(** The stale revision 9 of the existing row 1 and the absent row 2 are
    answered alike: no not-found condition is reported. *)
Lemma UpdateStockOptimistic_missing_row :
  products (scenario.shop ∅ 5) !! 2 = None /\
  (UpdateStockOptimistic 2 3 1 (scenario.shop ∅ 5)).1 = inl ErrOptimisticLockFailed /\
  (UpdateStockOptimistic 2 3 1 (scenario.shop ∅ 5)).1
  = (UpdateStockOptimistic 1 3 9 (scenario.shop ∅ 5)).1.
Proof. repeat split. Qed.

Lemma UpdateStockOptimistic_never_insufficient (db : DB) (productID newStock version : Z) :
  (UpdateStockOptimistic productID newStock version db).1 <> inl ErrInsufficientStock.
Proof.
  unfold UpdateStockOptimistic, bind, map_err, update_stock_versioned, stmt.
  repeat case_match; simplify_eq/=; try done.
  all: repeat case_match; simplify_eq/=; done.
Qed.

(** C4. For the blocking reserve, the fail-fast reserve and the guarded
    decrement, on a row that exists (and, for the fail-fast reserve, is
    not locked by another transaction): when the stock is less than the
    requested quantity the operation returns [ErrInsufficientStock] and
    the products table is unchanged; when it is not, the two reserves
    return the row without writing and the decrement subtracts the
    quantity.  The optimistic update compares revisions only: it never
    returns [ErrInsufficientStock], and with the current revision it
    stores any non-negative quantity the caller passes. *)
Theorem insufficient_stock_guard (db : DB) (productID quantity : Z) (p : Product) :
  faults db (stmts db) = None ->
  products db !! productID = Some p ->
  (Product_StockQuantity p < quantity ->
     ReserveStock productID quantity db = (inl ErrInsufficientStock, tick db) /\
     (productID ∉ locked db ->
      ReserveStockNoWait productID quantity db = (inl ErrInsufficientStock, tick db)) /\
     DecrementStock productID quantity db = (inl ErrInsufficientStock, tick db) /\
     products (tick db) = products db) /\
  (quantity <= Product_StockQuantity p ->
     ReserveStock productID quantity db = (inr p, tick db) /\
     (productID ∉ locked db ->
      ReserveStockNoWait productID quantity db = (inr p, tick db)) /\
     DecrementStock productID quantity db
     = (inr tt, set_products
                  (insert productID
                     (restocked p (Product_StockQuantity p - quantity)
                        (Product_Version p) (pg_now db)))
                  (tick db))) /\
  (forall newStock version,
     (UpdateStockOptimistic productID newStock version db).1 <> inl ErrInsufficientStock /\
     (version = Product_Version p -> 0 <= newStock ->
      UpdateStockOptimistic productID newStock version db
      = (inr tt, set_products
                   (insert productID (restocked p newStock (Product_Version p + 1) (pg_now db)))
                   (tick db)))).
Proof.
  intros Hf Hp. split; [|split].
  - intros Hlt.
    assert ((Product_StockQuantity p <? quantity) = true) as Hb by (apply Z.ltb_lt; lia).
    assert ((Product_StockQuantity p >=? quantity) = false) as Hg
      by (rewrite Z.geb_leb; apply Z.leb_gt; lia).
    split; [|split; [|split]].
    + unfold ReserveStock, bind, map_err, select_product_for_update.
      rewrite stmt_ok by done. cbn [products tick]. rewrite Hp. cbn. by rewrite Hb.
    + intros Hl. unfold ReserveStockNoWait, bind, map_err, select_product_for_update.
      rewrite stmt_ok by done. cbn [products tick locked]. rewrite Hp.
      rewrite bool_decide_eq_false_2 by done. cbn. by rewrite Hb.
    + unfold DecrementStock, bind, map_err, update_stock_guarded.
      rewrite stmt_ok by done. cbn [products tick]. rewrite Hp, Hg. reflexivity.
    + reflexivity.
  - intros Hle.
    assert ((Product_StockQuantity p <? quantity) = false) as Hb by (apply Z.ltb_ge; lia).
    assert ((Product_StockQuantity p >=? quantity) = true) as Hg
      by (rewrite Z.geb_leb; apply Z.leb_le; lia).
    assert ((Product_StockQuantity p - quantity <? 0) = false) as Hn by (apply Z.ltb_ge; lia).
    split; [|split].
    + unfold ReserveStock, bind, map_err, select_product_for_update.
      rewrite stmt_ok by done. cbn [products tick]. rewrite Hp. cbn. by rewrite Hb.
    + intros Hl. unfold ReserveStockNoWait, bind, map_err, select_product_for_update.
      rewrite stmt_ok by done. cbn [products tick locked]. rewrite Hp.
      rewrite bool_decide_eq_false_2 by done. cbn. by rewrite Hb.
    + unfold DecrementStock, bind, map_err, update_stock_guarded.
      rewrite stmt_ok by done. cbn [products tick pg_now]. rewrite Hp, Hg, Hn. reflexivity.
  - intros newStock version. split; [apply UpdateStockOptimistic_never_insufficient|].
    intros -> Hpos.
    assert ((newStock <? 0) = false) as Hn by (apply Z.ltb_ge; lia).
    unfold UpdateStockOptimistic, bind, map_err, update_stock_versioned.
    rewrite stmt_ok by done. cbn [products tick pg_now]. rewrite Hp, Z.eqb_refl, Hn.
    reflexivity.
Qed.

Lemma insufficient_stock_guard_witness :
  products (scenario.shop ∅ 5) !! 1 = Some (scenario.widget 5 1) /\
  ReserveStock 1 8 (scenario.shop ∅ 5) = (inl ErrInsufficientStock, tick (scenario.shop ∅ 5)) /\
  ReserveStockNoWait 1 8 (scenario.shop ∅ 5)
  = (inl ErrInsufficientStock, tick (scenario.shop ∅ 5)) /\
  DecrementStock 1 8 (scenario.shop ∅ 5) = (inl ErrInsufficientStock, tick (scenario.shop ∅ 5)).
Proof.
  split; [reflexivity|].
  destruct (insufficient_stock_guard (scenario.shop ∅ 5) 1 8 (scenario.widget 5 1)
              eq_refl eq_refl) as (H & _).
  destruct H as (Hr & Hn & Hd & _); [reflexivity|].
  split; [exact Hr|]. split; [|exact Hd].
  apply Hn. exact (not_elem_of_empty (C:=gset Z) 1).
Defined.

(** Five widgets on hand and eight wanted: the caller of the optimistic
    update writes 5 - 8, which the CHECK constraint of the column
    refuses; the guarded decrement answers [ErrInsufficientStock]. *)
Lemma UpdateStockOptimistic_checks_no_stock :
  products (scenario.shop ∅ 5) !! 1 = Some (scenario.widget 5 1) /\
  (UpdateStockOptimistic 1 (5 - 8) 1 (scenario.shop ∅ 5)).1
  = inl (Errorf "update stock" (PqError "23514")) /\
  (UpdateStockOptimistic 1 (5 - 8) 1 (scenario.shop ∅ 5)).1 <> inl ErrInsufficientStock /\
  (DecrementStock 1 8 (scenario.shop ∅ 5)).1 = inl ErrInsufficientStock.
Proof. repeat split. discriminate. Qed.

(** ** The cursor codec *)

Module base64_facts.
Import base64.

Lemma dec_enc (v : Z) : 0 <= v < 64 -> dec (enc v) = Some v.
Proof.
  revert v. apply (below_cases _ 64). intros i Hi.
  do 64 (destruct i as [|i]; [reflexivity|]). lia.
Qed.

Lemma enc_not_pad (v : Z) : 0 <= v < 64 -> Ascii.eqb (enc v) padChar = false.
Proof.
  revert v. apply (below_cases _ 64). intros i Hi.
  do 64 (destruct i as [|i]; [reflexivity|]). lia.
Qed.

Lemma string_ind3 (P : string -> Prop) :
  P EmptyString ->
  (forall a, P (String a EmptyString)) ->
  (forall a b, P (String a (String b EmptyString))) ->
  (forall a b c rest, P rest -> P (String a (String b (String c rest)))) ->
  forall s, P s.
Proof.
  intros H0 H1 H2 H3.
  assert (forall s, P s /\ (forall a, P (String a s)) /\ (forall a b, P (String a (String b s))))
    as H.
  { induction s as [|c s (IH0 & IH1 & IH2)]; [by auto|].
    split; [apply IH1|]. split; [intros; apply IH2|]. intros a b. by apply H3. }
  intros s. apply H.
Qed.

Lemma sextets (a b c : Z) :
  0 <= a < 256 -> 0 <= b < 256 -> 0 <= c < 256 ->
  (0 <= a / 4 < 64) /\ (0 <= a mod 4 * 16 + b / 16 < 64) /\
  (0 <= b mod 16 * 4 + c / 64 < 64) /\ (0 <= c mod 64 < 64) /\
  a / 4 * 4 + (a mod 4 * 16 + b / 16) / 16 = a /\
  (a mod 4 * 16 + b / 16) mod 16 * 16 + (b mod 16 * 4 + c / 64) / 4 = b /\
  (b mod 16 * 4 + c / 64) mod 4 * 64 + c mod 64 = c.
Proof. intros. repeat split; Z.div_mod_to_equations; lia. Qed.

Theorem Decode_Encode (s : string) : DecodeString (EncodeToString s) = inr s.
Proof.
  induction s as [|a|a b|a b c rest IH] using string_ind3.
  - reflexivity.
  - pose proof (byte_val_range a) as Ha.
    destruct (sextets (byte_val a) 0 0) as (H0 & H1 & _ & _ & E0 & _); try lia.
    cbn [EncodeToString DecodeString]. cbv zeta.
    change (0 / 16) with 0 in *. rewrite Z.add_0_r in *.
    rewrite !dec_enc by lia. cbn. rewrite E0, byte_of_val. reflexivity.
  - pose proof (byte_val_range a) as Ha. pose proof (byte_val_range b) as Hb.
    destruct (sextets (byte_val a) (byte_val b) 0) as (H0 & H1 & H2 & _ & E0 & E1 & _); try lia.
    cbn [EncodeToString DecodeString]. cbv zeta.
    change (0 / 64) with 0 in *. rewrite Z.add_0_r in *.
    rewrite !dec_enc by lia. rewrite enc_not_pad by lia. cbn.
    rewrite E0, E1, !byte_of_val. reflexivity.
  - pose proof (byte_val_range a) as Ha. pose proof (byte_val_range b) as Hb.
    pose proof (byte_val_range c) as Hc.
    destruct (sextets (byte_val a) (byte_val b) (byte_val c))
      as (H0 & H1 & H2 & H3 & E0 & E1 & E2); try lia.
    cbn [EncodeToString DecodeString]. cbv zeta.
    rewrite !dec_enc by lia. rewrite !enc_not_pad by lia.
    rewrite IH, E0, E1, E2, !byte_of_val. reflexivity.
Qed.

Lemma Encode_nonempty (a : ascii) (s : string) : EncodeToString (String a s) <> EmptyString.
Proof. destruct s as [|b [|c s]]; discriminate. Qed.

End base64_facts.

Module time_facts.
Import time.

Lemma digit_val_digit (n : Z) : 0 <= n <= 9 -> digit_val (digit n) = Some n.
Proof.
  intros H. unfold digit_val, digit. rewrite byte_val_of by lia.
  replace (48 + n - 48) with n by lia.
  destruct (Z.leb_spec 0 n); [|lia]. destruct (Z.leb_spec n 9); [|lia]. reflexivity.
Qed.

Lemma number_pad2 (n : Z) :
  0 <= n < 100 -> number [digit (n / 10 mod 10); digit (n mod 10)] 0 = Some n.
Proof.
  intros H. cbn [number].
  rewrite !digit_val_digit by (Z.div_mod_to_equations; lia).
  f_equal. Z.div_mod_to_equations; lia.
Qed.

Lemma number_pad4 (n : Z) :
  0 <= n < 10000 ->
  number [digit (n / 1000 mod 10); digit (n / 100 mod 10);
          digit (n / 10 mod 10); digit (n mod 10)] 0 = Some n.
Proof.
  intros H. cbn [number].
  rewrite !digit_val_digit by (Z.div_mod_to_equations; lia).
  f_equal. Z.div_mod_to_equations; lia.
Qed.

Lemma nanos_trim0 (l : list Z) (w : Z) : nanos (trim0 l) w = nanos l w.
Proof.
  revert w. induction l as [|d r IH]; intros w; [done|].
  cbn [trim0 nanos]. specialize (IH (w / 10)).
  destruct (trim0 r) as [|x r'].
  - cbn [nanos] in IH. destruct (Z.eqb_spec d 0); cbn [nanos]; lia.
  - cbn [nanos] in *. lia.
Qed.

Lemma trim0_digits (l : list Z) :
  Forall (fun d => 0 <= d <= 9) l -> Forall (fun d => 0 <= d <= 9) (trim0 l).
Proof.
  induction 1 as [|d r Hd Hr IH]; [constructor|].
  cbn [trim0]. destruct (trim0 r); [destruct (d =? 0)|]; auto.
Qed.

Lemma digits9_digits (ns : Z) : Forall (fun d => 0 <= d <= 9) (digits9 ns).
Proof.
  unfold digits9. apply Forall_map, Forall_forall. intros w _. simpl.
  pose proof (Z.mod_pos_bound (ns / w) 10). lia.
Qed.

Lemma nanos_digits9 (ns : Z) : 0 <= ns < Second -> nanos (digits9 ns) 100000000 = ns.
Proof.
  unfold Second. intros H. unfold digits9. cbn [map nanos].
  change (100000000 / 10) with 10000000. change (10000000 / 10) with 1000000.
  change (1000000 / 10) with 100000. change (100000 / 10) with 10000.
  change (10000 / 10) with 1000. change (1000 / 10) with 100.
  change (100 / 10) with 10. change (10 / 10) with 1.
  rewrite Z.div_1_r.
  assert (ns / 10 = ns / 1 / 10) as E1 by (by rewrite Z.div_1_r).
  assert (ns / 100 = ns / 10 / 10) as E2 by (rewrite Z.div_div by lia; done).
  assert (ns / 1000 = ns / 100 / 10) as E3 by (rewrite Z.div_div by lia; done).
  assert (ns / 10000 = ns / 1000 / 10) as E4 by (rewrite Z.div_div by lia; done).
  assert (ns / 100000 = ns / 10000 / 10) as E5 by (rewrite Z.div_div by lia; done).
  assert (ns / 1000000 = ns / 100000 / 10) as E6 by (rewrite Z.div_div by lia; done).
  assert (ns / 10000000 = ns / 1000000 / 10) as E7 by (rewrite Z.div_div by lia; done).
  assert (ns / 100000000 = ns / 10000000 / 10) as E8 by (rewrite Z.div_div by lia; done).
  assert (ns / 100000000 < 10) by (apply Z.div_lt_upper_bound; lia).
  generalize dependent (ns / 100000000). generalize dependent (ns / 10000000).
  generalize dependent (ns / 1000000). generalize dependent (ns / 100000).
  generalize dependent (ns / 10000). generalize dependent (ns / 1000).
  generalize dependent (ns / 100). generalize dependent (ns / 10).
  intros. Z.div_mod_to_equations. lia.
Qed.

Lemma take_digits_string (l : list Z) (c : ascii) (k : string) :
  Forall (fun d => 0 <= d <= 9) l -> digit_val c = None ->
  take_digits (digits_string l (String c k)) = (l, String c k).
Proof.
  intros Hl Hc. induction Hl as [|d r Hd Hr IH]; cbn [digits_string take_digits].
  - by rewrite Hc.
  - by rewrite digit_val_digit, IH.
Qed.

Lemma parse_frac_frac (ns : Z) (k : string) :
  0 <= ns < Second ->
  parse_frac (frac ns (String "Z"%char k)) = Some (ns, String "Z"%char k).
Proof.
  intros H. unfold frac.
  pose proof (nanos_trim0 (digits9 ns) 100000000) as Hn.
  rewrite nanos_digits9 in Hn by done.
  pose proof (trim0_digits _ (digits9_digits ns)) as Hd.
  destruct (trim0 (digits9 ns)) as [|d r].
  - cbn in Hn. subst ns. reflexivity.
  - unfold parse_frac. change (Ascii.eqb "." ".") with true. cbv iota.
    rewrite take_digits_string by done. by rewrite Hn.
Qed.

Lemma all_below_spec (n : positive) (f : Z -> bool) :
  all_below n f = true -> forall i, 0 <= i < Z.pos n -> f i = true.
Proof.
  unfold all_below.
  set (step := fun '(i, ok) => (i + 1, ok && f i)).
  assert (forall p, let st := Pos.iter step (0, true) p in
            st.1 = Z.pos p /\ (st.2 = true -> forall i, 0 <= i < Z.pos p -> f i = true)) as H.
  { intros p. apply (Pos.iter_ind _ step (0, true)
      (fun p st => st.1 = Z.pos p /\ (st.2 = true -> forall i, 0 <= i < Z.pos p -> f i = true))).
    - simpl. split; [done|]. intros Hf i Hi. by replace i with 0 by lia.
    - intros q [i ok] [Hi Hok]. simpl in *. subst i. split; [lia|].
      intros [Ho Hf]%andb_true_iff i Hi.
      destruct (decide (i = Z.pos q)) as [->|]; [done|]. apply Hok; [done|lia]. }
  intros Hs. apply (H n). exact Hs.
Qed.

Lemma civil_ok_era : all_below 146097 civil_ok = true.
Proof. vm_compute. reflexivity. Qed.

Lemma isLeap_era (y era : Z) : isLeap (y + era * 400) = isLeap y.
Proof.
  unfold isLeap.
  replace ((y + era * 400) mod 4) with (y mod 4) by (Z.div_mod_to_equations; lia).
  replace ((y + era * 400) mod 100) with (y mod 100) by (Z.div_mod_to_equations; lia).
  replace ((y + era * 400) mod 400) with (y mod 400) by (Z.div_mod_to_equations; lia).
  reflexivity.
Qed.

Lemma civil_roundtrip (z y m d : Z) :
  civil_from_days z = (y, m, d) ->
  days_from_civil y m d = z /\ 1 <= m <= 12 /\ 1 <= d <= daysIn m y.
Proof.
  unfold civil_from_days. cbv zeta.
  set (era := (z + 719468) / 146097). set (doe := (z + 719468) mod 146097).
  assert (0 <= doe < 146097) as Hdoe by (apply Z.mod_pos_bound; lia).
  assert (z + 719468 = 146097 * era + doe) as Hz by (apply Z.div_mod; lia).
  pose proof (all_below_spec _ _ civil_ok_era doe Hdoe) as Hok.
  unfold civil_ok in Hok.
  destruct (civil_of_doe doe) as [[y0 m0] d0]. intros [= <- <- <-].
  cbv zeta in Hok.
  repeat (apply andb_true_iff in Hok as [Hok ?]).
  repeat match goal with
         | H : (_ <=? _) = true |- _ => apply Z.leb_le in H
         | H : (_ <? _) = true |- _ => apply Z.ltb_lt in H
         | H : (_ =? _) = true |- _ => apply Z.eqb_eq in H
         end.
  split; [|split; [lia|]].
  - unfold days_from_civil. cbv zeta.
    set (yoe := if m0 <=? 2 then y0 - 1 else y0) in *.
    replace (if m0 <=? 2 then y0 + era * 400 - 1 else y0 + era * 400)
      with (yoe + era * 400) by (unfold yoe; destruct (m0 <=? 2); lia).
    rewrite Z.div_add, Z.mod_add by lia.
    rewrite Z.div_small, Z.mod_small by lia. lia.
  - unfold daysIn in *. rewrite isLeap_era. lia.
Qed.

Lemma clock_fields (sod : Z) :
  0 <= sod < secondsPerDay ->
  0 <= sod / 3600 < 24 /\ 0 <= sod / 60 mod 60 < 60 /\ 0 <= sod mod 60 < 60 /\
  sod / 3600 * 3600 + sod / 60 mod 60 * 60 + sod mod 60 = sod.
Proof. unfold secondsPerDay. intros. repeat split; Z.div_mod_to_equations; lia. Qed.

Theorem parse_format (t : Time) (k : string) :
  0 <= Year t < 10000 ->
  parse_RFC3339 (format_RFC3339Nano t k) = Some (t, k).
Proof.
  unfold Year, format_RFC3339Nano. cbv zeta.
  set (sec := t / Second). set (ns := t mod Second).
  assert (0 <= ns < Second) as Hns by (apply Z.mod_pos_bound; done).
  assert (t = Second * sec + ns) as Ht by (apply Z.div_mod; done).
  set (days := sec / secondsPerDay). set (sod := sec mod secondsPerDay).
  assert (0 <= sod < secondsPerDay) as Hsod by (apply Z.mod_pos_bound; done).
  assert (sec = secondsPerDay * days + sod) as Hsec by (apply Z.div_mod; done).
  destruct (civil_from_days days) as [[y m] d] eqn:Hc.
  destruct (civil_roundtrip _ _ _ _ Hc) as (Hdays & Hm & Hd).
  destruct (clock_fields sod Hsod) as (Hhh & Hmm & Hss & Hclock).
  intros Hy.
  assert (d < 100) by (unfold daysIn in Hd; repeat case_match; lia).
  unfold pad4, pad2. cbn [parse_RFC3339].
  change (Ascii.eqb "-" "-") with true. change (Ascii.eqb "T" "T") with true.
  change (Ascii.eqb ":" ":") with true. cbn [andb negb].
  rewrite number_pad4 by lia. rewrite !number_pad2 by lia.
  rewrite parse_frac_frac by done.
  change (Ascii.eqb "Z" "Z") with true. cbn [andb].
  destruct (Z.leb_spec 1 m); [|lia]. destruct (Z.leb_spec m 12); [|lia].
  destruct (Z.leb_spec 1 d); [|lia]. destruct (Z.leb_spec d (daysIn m y)); [|lia].
  destruct (Z.ltb_spec (sod / 3600) 24); [|lia].
  destruct (Z.ltb_spec (sod / 60 mod 60) 60); [|lia].
  destruct (Z.ltb_spec (sod mod 60) 60); [|lia].
  cbn [andb]. do 2 f_equal. unfold Date. rewrite Hdays.
  unfold secondsPerDay in *. lia.
Qed.

End time_facts.

Lemma append_cons (a : ascii) (p s : string) : String a p +:+ s = String a (p +:+ s).
Proof. reflexivity. Qed.

Lemma strip_prefix_app (p s : string) : strip_prefix p (p +:+ s) = Some s.
Proof.
  induction p as [|a p IH]; [by destruct s|].
  rewrite append_cons. cbn [strip_prefix]. by rewrite Ascii.eqb_refl.
Qed.

Lemma string_of_uint_number (d : Decimal.uint) : all_number (NilEmpty.string_of_uint d) = true.
Proof. induction d; cbn [NilEmpty.string_of_uint all_number]; try rewrite IHd; reflexivity. Qed.

Lemma itoa_number (z : Z) : all_number (itoa z) = true.
Proof.
  unfold itoa. destruct (Z.to_int z) as [d|d]; cbn [NilZero.string_of_int].
  - destruct d; try apply (string_of_uint_number (_ d)); try reflexivity.
    all: cbn [NilZero.string_of_uint NilEmpty.string_of_uint all_number];
      rewrite string_of_uint_number; reflexivity.
  - cbn [all_number]. destruct d; try reflexivity.
    all: cbn [NilZero.string_of_uint NilEmpty.string_of_uint all_number];
      rewrite string_of_uint_number; reflexivity.
Qed.

Lemma take_number_app (s : string) (c : ascii) (k : string) :
  all_number s = true -> is_number_char c = false ->
  take_number (s +:+ String c k) = (s, String c k).
Proof.
  intros Hs Hc. induction s as [|a s IH].
  - change ("" +:+ String c k) with (String c k). cbn [take_number]. by rewrite Hc.
  - rewrite append_cons. cbn [take_number].
    cbn [all_number] in Hs. apply andb_true_iff in Hs as [Ha Hs].
    by rewrite Ha, IH.
Qed.

Lemma int_of_itoa (z : Z) : NilZero.int_of_string (itoa z) = Some (Z.to_int z).
Proof.
  unfold itoa. apply NilZero.isi.
  - destruct z; cbn; try discriminate. intros [= H]. by apply DecimalPos.Unsigned.to_uint_nonnil in H.
  - destruct z; cbn; try discriminate. intros [= H]. by apply DecimalPos.Unsigned.to_uint_nonnil in H.
Qed.

Theorem Unmarshal_Marshal (cursor : OrderCursor) (data : string) :
  in_int64 (ID cursor) ->
  json_Marshal cursor = inr data ->
  json_Unmarshal data = (cursor, None) /\ data <> "".
Proof.
  intros Hid. unfold json_Marshal. cbv zeta.
  destruct (Z.ltb_spec (time.Year (CreatedAt cursor)) 0) as [|Hy0]; [done|].
  destruct (Z.geb_spec (time.Year (CreatedAt cursor)) 10000) as [|Hy1]; [done|].
  cbn [orb]. intros [= <-]. split; [|done].
  unfold json_Unmarshal. cbv zeta.
  rewrite strip_prefix_app.
  rewrite time_facts.parse_format by lia.
  rewrite strip_prefix_app.
  rewrite take_number_app by (apply itoa_number || reflexivity).
  rewrite int_of_itoa, DecimalZ.of_to.
  unfold in_int64 in Hid.
  destruct (Z.leb_spec MinInt64 (ID cursor)); [|lia].
  destruct (Z.leb_spec (ID cursor) MaxInt64); [|lia].
  cbn. by destruct cursor.
Qed.




(** C2. The empty token decodes, without error, to the position made of
    the current time [time.Now()] and the largest [int64]: no identifier
    exceeds its identifier, and the row comparison of the first page
    lets through exactly the rows created before the current time, or at
    it with an identifier below the largest. *)
Theorem DecodeCursor_empty (now : Time) :
  let c := {| CreatedAt := now; ID := MaxInt64 |} in
  DecodeCursor now "" = (c, None) /\
  (forall id, in_int64 id -> id <= ID c) /\
  (forall createdAt id,
     row_lt createdAt id c = true <->
     createdAt < now \/ (createdAt = now /\ id < MaxInt64)).
Proof.
  cbv zeta. split; [reflexivity|]. split.
  - unfold in_int64. simpl. lia.
  - intros createdAt id. unfold row_lt. simpl. lia.
Qed.

Lemma DecodeCursor_empty_witness :
  in_int64 42 /\
  42 <= ID (DecodeCursor 1705314600000000001 "").1 /\
  row_lt 1705314600000000000 42 (DecodeCursor 1705314600000000001 "").1 = true.
Proof.
  destruct (DecodeCursor_empty 1705314600000000001) as (Hd & Hid & Hrow).
  assert (in_int64 42) as H42 by (unfold in_int64, MinInt64, MaxInt64; lia).
  split; [exact H42|]. rewrite Hd. split; [exact (Hid 42 H42)|].
  apply Hrow. left. lia.
Defined.

(** With the process clock at ...001, an order the store stamped one
    nanosecond later is not below the sentinel, whose timestamp is thus
    not the greatest: the first page leaves the order out. *)
Lemma DecodeCursor_empty_excludes_later_rows :
  DecodeCursor (go_now scenario.skewed_shop) ""
  = ({| CreatedAt := 1705314600000000001; ID := MaxInt64 |}, None) /\
  map Order_CreatedAt (orders scenario.skewed_shop) = [1705314600000000002] /\
  row_lt 1705314600000000002 1 (DecodeCursor (go_now scenario.skewed_shop) "").1 = false /\
  ListOrdersCursor scenario.skewed_shop 7 "" 10
  = Ok {| Items := []; NextCursor := ""; HasMore := false |}.
Proof. repeat split. Qed.

(** ** Listing *)

Lemma order_desc_total (a b : Order) : order_desc a b = true \/ order_desc b a = true.
Proof. unfold order_desc. lia. Qed.

Lemma insert_desc_perm (o : Order) (l : list Order) : Permutation (insert_desc o l) (o :: l).
Proof.
  induction l as [|x r IH]; simpl; [done|].
  destruct (order_desc o x); [done|].
  rewrite IH. apply perm_swap.
Qed.

Lemma sort_desc_perm (l : list Order) : Permutation (sort_desc l) l.
Proof.
  induction l as [|x r IH]; simpl; [done|].
  rewrite insert_desc_perm. by constructor.
Qed.

Lemma insert_desc_sorted (o : Order) (l : list Order) :
  Sorted desc l -> Sorted desc (insert_desc o l).
Proof.
  induction 1 as [|x r Hs IH Hd]; simpl.
  - repeat constructor.
  - destruct (order_desc o x) eqn:Hox.
    + constructor; [by constructor|]. by constructor.
    + constructor; [done|].
      assert (desc x o) by (destruct (order_desc_total o x); [congruence|done]).
      destruct r as [|y r]; simpl; [by constructor|].
      destruct (order_desc o y); constructor; try done. by inversion Hd.
Qed.

Lemma sort_desc_sorted (l : list Order) : Sorted desc (sort_desc l).
Proof.
  induction l as [|x r IH]; simpl; [constructor|]. by apply insert_desc_sorted.
Qed.

Lemma Sorted_take {A} (R : A -> A -> Prop) (n : nat) (l : list A) :
  Sorted R l -> Sorted R (take n l).
Proof.
  intros H. revert n. induction H as [|x r Hs IH Hd]; intros [|n]; simpl; try constructor.
  - apply IH.
  - destruct Hd; destruct n; simpl; by constructor.
Qed.



(** ** Order assembly *)

Lemma lock_items_available (tx : DB) (item : OrderItemRequest) (rest : list OrderItemRequest)
    (prices : gmap Z Decimal) (total : Decimal) (p : Product) :
  faults tx (stmts tx) = None ->
  products tx !! (ProductID item) = Some p ->
  ProductID item ∉ locked tx ->
  Quantity item <= Product_StockQuantity p ->
  lock_items (item :: rest) prices total tx =
  lock_items rest (<[ProductID item := Product_Price p]> prices)
    (total + Product_Price p * Quantity item) (tick tx).
Proof.
  intros Hf Hp Hl Hs. cbn [lock_items]. unfold bind, map_err, select_product_for_update.
  rewrite stmt_ok by done. cbn [products tick locked]. rewrite Hp.
  rewrite bool_decide_eq_false_2 by done. cbn [andb].
  destruct (Z.ltb_spec (Product_StockQuantity p) (Quantity item)); [lia|done].
Qed.










(** ** One attempt and many: [WithTransaction] and [WithRetry] *)

Lemma ClassifyError_Errorf (prefix : string) (e : error) :
  ClassifyError (Some (Errorf prefix e)) = ClassifyError (Some e).
Proof.
  unfold ClassifyError. cbn [As_pqError].
  destruct (As_pqError e); repeat case_match; reflexivity.
Qed.

Lemma ClassifyError_RollbackFailed (rbErr e : error) :
  ClassifyError (Some (RollbackFailed rbErr e)) = ClassifyError (Some e).
Proof.
  unfold ClassifyError. cbn [As_pqError].
  destruct (As_pqError e); repeat case_match; reflexivity.
Qed.

Lemma Is_refl (e : error) : Is e e = true.
Proof. destruct e; cbn [Is]; rewrite bool_decide_eq_true_2; done. Qed.

Lemma Is_Errorf (prefix : string) (e t : error) : Is e t = true -> Is (Errorf prefix e) t = true.
Proof. intros H. cbn [Is]. rewrite H. apply orb_true_r. Qed.

Lemma Is_RollbackFailed (rbErr e t : error) :
  Is e t = true -> Is (RollbackFailed rbErr e) t = true.
Proof. intros H. cbn [Is]. rewrite H. apply orb_true_r. Qed.

Section TxFacts.
Context {Tx Captured : Type}.
Variables (env : Env Tx) (opts : TxOptions)
  (fn : Tx -> Captured -> option error * Tx * Captured).

(** X1. When the context is not done at the start, [MaxRetries] is not
    negative and what [WithTransaction] returns is not a retryable
    error, [WithRetry] does what [WithTransaction] does, after checking
    the context once: the same events, the same result, the same
    captured variables. *)
Theorem WithRetry_single_attempt cap :
  ctx_done (attempts env 0) = false ->
  0 <= MaxRetries opts ->
  (forall err, outcome (WithTransaction env opts fn cap) = Returned err ->
     ClassifyError err = ErrorClassPermanent) ->
  WithRetry env opts fn cap = emit (EvCtxCheck 0 false) (WithTransaction env opts fn cap).
Proof.
  intros Hctx Hm Hperm.
  unfold WithRetry, WithRetry_fuel, WithTransaction in *. cbv zeta in *.
  cbn [retry_loop]. cbv zeta.
  destruct (Z.leb_spec 0 (MaxRetries opts)) as [_|]; [|lia]. cbn [negb].
  rewrite Hctx.
  destruct (begin_tx (attempts env 0)) as [err|tx]; [reflexivity|].
  destruct (fn tx cap) as [[[err|] tx'] cap'].
  - destruct (rollback_err (attempts env 0)) as [rbErr|]; [reflexivity|].
    cbn in Hperm. rewrite (Hperm _ eq_refl). reflexivity.
  - destruct (commit_err (attempts env 0)) as [err|]; [|reflexivity].
    cbn in Hperm. specialize (Hperm _ eq_refl). rewrite ClassifyError_Errorf in Hperm.
    rewrite Hperm. reflexivity.
Qed.


(** Every transaction the loop begins is closed in the same attempt:
    rolled back when the unit of work failed, committed when it did not. *)
Lemma retry_loop_closes (fuel : nat) (j b : Z) le cap (k : Z) iso ro :
  let t := trace (retry_loop env opts fn fuel j b le cap) in
  EvBeginTx k iso ro None ∈ t ->
  (exists e rb, EvCall k (Some e) ∈ t /\ EvRollback k rb ∈ t /\
     forall tx c, EvCommit k tx c ∉ t) \/
  (EvCall k None ∈ t /\ (exists tx c, EvCommit k tx c ∈ t) /\
     forall rb, EvRollback k rb ∉ t).
Proof.
  revert j b le cap. induction fuel as [|fuel IH]; intros j b le cap; cbv zeta.
  - cbn. by intros ?%elem_of_nil.
  - loop_paths; intros Hin; split_elem Hin; simplify_eq;
      try (by apply elem_of_nil in Hin).
    all: try (in_tail; destruct (IH _ _ _ _ Hin) as [(e' & rb' & Hc & Hr & Hn)|(Hc & (tx' & c' & Hm) & Hn)];
              [ left; exists e', rb'; split; [in_list|]; split; [in_list|];
                intros tx0 c0 H0; split_elem H0; simplify_eq; try lia; by eapply Hn
              | right; split; [in_list|]; split; [exists tx', c'; in_list|];
                intros rb0 H0; split_elem H0; simplify_eq; try lia; by eapply Hn ]).
    all: first
      [ left; eexists _, _; split; [in_list|]; split; [in_list|];
        intros tx0 c0 H0; split_elem H0; simplify_eq;
        try (by apply elem_of_nil in H0);
        in_tail; lia
      | right; split; [in_list|]; split; [eexists _, _; in_list|];
        intros rb0 H0; split_elem H0; simplify_eq;
        try (by apply elem_of_nil in H0);
        in_tail; lia ].
Qed.


(** The unit of work runs once in each attempt the loop makes, and the
    attempts are numbered consecutively from the one it was entered at. *)
Lemma retry_loop_calls (fuel : nat) (j b : Z) le cap :
  exists n : Z,
    0 <= n /\ (j <= MaxRetries opts + 1 -> j + n <= MaxRetries opts + 1) /\
    map event_attempt (List.filter is_call (trace (retry_loop env opts fn fuel j b le cap)))
    = seqZ j n.
Proof.
  revert j b le cap. induction fuel as [|fuel IH]; intros j b le cap.
  - exists 0. repeat split; try lia.
  - loop_paths; norm_tests.
    all: try (exists 0; repeat split; try lia; fail).
    all: try (exists 1; repeat split; try lia; fail).
    all: match goal with
         | |- context [retry_loop _ _ _ _ ?j' ?b' ?le' ?c'] =>
           destruct (IH j' b' le' c') as (n & Hn & Hb & Heq)
         end.
    all: exists (n + 1); split; [lia|]; split; [lia|].
    all: cbn [List.filter is_call map event_attempt]; rewrite Heq.
    all: rewrite (seqZ_cons j (n + 1)) by lia.
    all: do 2 f_equal; lia.
Qed.

(** The loop returns [nil] only from a committed attempt, or without
    having made any. *)
Lemma retry_loop_nil (fuel : nat) (j b : Z) le cap :
  let r := retry_loop env opts fn fuel j b le cap in
  outcome r = Returned None ->
  (MaxRetries opts < j /\ le = None /\ trace r = [] /\ captured r = cap) \/
  exists k tx cap0 tx',
    j <= k <= MaxRetries opts /\
    begin_tx (attempts env k) = inr tx /\
    fn tx cap0 = (None, tx', captured r) /\
    commit_err (attempts env k) = None /\
    last (trace r) = Some (EvCommit k tx' None).
Proof.
  revert j b le cap. induction fuel as [|fuel IH]; intros j b le cap; cbv zeta.
  - done.
  - loop_paths; norm_tests; intros Ho; simplify_eq.
    all: try (left; repeat split; try done; lia).
    all: try (destruct (IH _ _ _ _ Ho) as [(_ & ? & _)|(k & tx & cap0 & tx' & Hk & Hb & Hf & Hc & Hl)];
              [done|];
              right; exists k, tx, cap0, tx'; split; [lia|]; do 3 (split; [done|]);
              by rewrite ?last_cons_cons, last_cons, Hl).
    all: right; eexists j, _, _, _; split; [lia|]; split; [eassumption|];
         split; [eassumption|]; split; [eassumption|]; reflexivity.
Qed.

(** Where an error the loop returns comes from. *)
Lemma retry_loop_error (fuel : nat) (j b : Z) le cap (err : error) :
  let r := retry_loop env opts fn fuel j b le cap in
  outcome r = Returned (Some err) ->
  (MaxRetries opts < j /\ le = Some err) \/
  err = ctx_err env \/
  (exists k iso ro e, EvBeginTx k iso ro (Some e) ∈ trace r /\
     err = Errorf "begin transaction" e) \/
  (exists k e, (EvCall k (Some e) ∈ trace r \/ exists tx, EvCommit k tx (Some e) ∈ trace r) /\
     Is err e = true /\ ClassifyError (Some err) = ClassifyError (Some e)).
Proof.
  revert j b le cap. induction fuel as [|fuel IH]; intros j b le cap; cbv zeta.
  - done.
  - loop_paths; norm_tests; intros Ho; simplify_eq.
    all: try (left; split; [lia|done]).
    all: try (right; left; reflexivity).
    all: try (right; right; left; eexists _, _, _, _; split; [in_list|reflexivity]).
    all: try (destruct (IH _ _ _ _ Ho) as [[? ?]|[?|[(k & iso & ro & e' & Hin & ?)|(k & e' & Hin & His & Hcl)]]];
              [ lia
              | right; left; done
              | right; right; left; exists k, iso, ro, e'; split; [in_list|done]
              | right; right; right; exists k, e'; split;
                [destruct Hin as [Hin|[tx' Hin]]; [left|right; exists tx']; in_list|done] ]).
    all: right; right; right; eexists _, _; split;
      [ first [ left; in_list | right; eexists; in_list ] |];
      rewrite ?ClassifyError_Errorf, ?ClassifyError_RollbackFailed;
      split; [|reflexivity];
      first [ apply Is_refl | apply Is_Errorf, Is_refl | apply Is_RollbackFailed, Is_refl ].
Qed.

Lemma total_sleep_cons (ev : Event Tx) (t : list (Event Tx)) :
  total_sleep (ev :: t) = slept ev + total_sleep t.
Proof. reflexivity. Qed.

(** While the doubled backoff stays within [int64], what the loop asks
    to sleep from attempt [j] on is less than five quarters of the
    backoffs of the attempts that can be followed by another. *)
Lemma retry_loop_total_sleep (fuel : nat) (j b : Z) le cap :
  0 <= j -> MaxRetries opts <= 38 ->
  (j < MaxRetries opts -> b = 50 * Millisecond * 2 ^ j) ->
  let t := trace (retry_loop env opts fn fuel j b le cap) in
  0 <= total_sleep t /\
  (j <= MaxRetries opts ->
   4 * total_sleep t <= 5 * (50 * Millisecond) * (2 ^ MaxRetries opts - 2 ^ j)) /\
  (MaxRetries opts < j -> total_sleep t = 0).
Proof.
  revert j b le cap. induction fuel as [|fuel IH]; intros j b le cap Hj Hm Hb; cbv zeta.
  - cbn. split; [lia|]. split; [|done]. intros Hle.
    assert (2 ^ j <= 2 ^ MaxRetries opts) by (apply Z.pow_le_mono_r; lia).
    unfold Millisecond. lia.
  - assert (forall M, j <= M -> 2 ^ j <= 2 ^ M) as Hpow
      by (intros; apply Z.pow_le_mono_r; lia).
    loop_paths; norm_tests; rewrite ?total_sleep_cons; cbn [slept];
      change (total_sleep (@nil (Event Tx))) with 0.
    all: try (split; [lia|]; split; [intros Hle; specialize (Hpow _ Hle); unfold Millisecond; lia|lia]).
    all: try (split; [lia|]; split; [intros Hle; specialize (Hpow _ Hle); unfold Millisecond; lia|done]).
    all: rewrite Hb in * by lia.
    all: destruct (retry_sleeps j (rand_draw (attempts env j))) as (Hw & Hq & HI & Hjit & Hsum);
      [lia|].
    all: match goal with
         | H : Int63n _ _ = Some ?jit |- _ =>
           rewrite Hq, HI in H; injection H as <-
         end.
    all: rewrite ?Hsum.
    all: assert (2 ^ (j + 1) <= 2 ^ MaxRetries opts) as Hp1 by (apply Z.pow_le_mono_r; lia).
    all: rewrite Z.pow_add_r in Hp1 by lia; change (2 ^ 1) with 2 in Hp1.
    all: pose proof (Z.mul_div_le (50 * Millisecond * 2 ^ j) 4 ltac:(lia)) as Hdiv.
    all: set (jit := rand_draw (attempts env j) mod (50 * Millisecond * 2 ^ j / 4)) in *.
    all: set (q := 50 * Millisecond * 2 ^ j / 4) in *.
    all: clearbody jit q.
    all: try (assert (0 < 2 ^ j) by (apply Z.pow_pos_nonneg; lia);
              unfold Millisecond in *; split; [lia|]; split; [|lia]; intros Hle; lia).
    all: match goal with
         | |- context [retry_loop _ _ _ _ ?j' ?b' ?le' ?c'] =>
           destruct (IH j' b' le' c') as (H0 & Hb' & _); [lia|lia| |]
         end.
    all: try (intros Hlt; destruct (retry_sleeps (j + 1) 0) as (Hw' & _); [lia|];
              rewrite Z.pow_add_r in Hw' by lia; change (2 ^ 1) with 2 in Hw';
              rewrite Z.pow_add_r by lia; change (2 ^ 1) with 2;
              rewrite <- Hw'; f_equal; lia).
    all: assert (0 < 2 ^ j) by (apply Z.pow_pos_nonneg; lia).
    all: rewrite Z.pow_add_r in Hb' by lia; change (2 ^ 1) with 2 in Hb'.
    all: unfold Millisecond in *.
    all: split; [lia|]; split; [|lia]; intros Hle.
    all: specialize (Hb' ltac:(lia)); lia.
Qed.


(** X2. In every run of [WithRetry], a transaction that was begun is
    closed within the same attempt and in one way only: when the unit of
    work failed it is rolled back and never committed, and when the unit
    of work returned [nil] a commit is attempted and it is never rolled
    back. *)
Theorem WithRetry_closes_transactions cap (k : Z) iso ro :
  let t := trace (WithRetry env opts fn cap) in
  EvBeginTx k iso ro None ∈ t ->
  (exists e rb, EvCall k (Some e) ∈ t /\ EvRollback k rb ∈ t /\
     forall tx c, EvCommit k tx c ∉ t) \/
  (EvCall k None ∈ t /\ (exists tx c, EvCommit k tx c ∈ t) /\
     forall rb, EvRollback k rb ∉ t).
Proof. apply retry_loop_closes. Qed.

(** X3. In every run of [WithRetry] the unit of work is invoked once per
    attempt, for the attempts 0, 1, ..., n-1 in this order, and
    n is at most [MaxRetries + 1] (and 0 when [MaxRetries] is negative). *)
Theorem WithRetry_calls cap :
  exists n : Z,
    0 <= n <= Z.max 0 (MaxRetries opts + 1) /\
    map event_attempt (List.filter is_call (trace (WithRetry env opts fn cap))) = seqZ 0 n.
Proof.
  destruct (retry_loop_calls (WithRetry_fuel opts) 0 (50 * Millisecond) None cap)
    as (n & Hn & Hb & Heq).
  exists n. split; [|exact Heq].
  destruct (decide (0 <= MaxRetries opts + 1)) as [Hle|Hgt]; [lia|].
  unfold WithRetry_fuel in Heq. rewrite retry_loop_no_attempts in Heq by lia.
  destruct (decide (n = 0)) as [->|]; [lia|].
  rewrite (seqZ_cons 0 n) in Heq by lia. done.
Qed.

(** X4. With a non-negative [MaxRetries], [WithRetry] returns [nil] only
    when some attempt [k <= MaxRetries] began a transaction, the unit of
    work returned [nil] in it and its commit succeeded; that commit is
    the last thing the executor does, and the captured variables are as
    that invocation of the unit of work left them. *)
Theorem WithRetry_nil_committed cap :
  let r := WithRetry env opts fn cap in
  0 <= MaxRetries opts ->
  outcome r = Returned None ->
  exists k tx cap0 tx',
    0 <= k <= MaxRetries opts /\
    begin_tx (attempts env k) = inr tx /\
    fn tx cap0 = (None, tx', captured r) /\
    commit_err (attempts env k) = None /\
    last (trace r) = Some (EvCommit k tx' None).
Proof.
  cbv zeta. intros Hm Ho. unfold WithRetry in *.
  destruct (retry_loop_nil _ _ _ _ _ Ho) as [(? & _)|H]; [lia|exact H].
Qed.

(** X5. For [0 <= MaxRetries <= 38] (the range in which the doubled
    backoff stays within [int64]), the durations [WithRetry] asks to
    sleep add up to less than five quarters of
    [50ms * (2 ^ MaxRetries - 1)]: the backoffs 50ms, 100ms, ... of the
    attempts that may be retried, each with a jitter below a quarter of
    it. *)
Theorem WithRetry_total_sleep cap :
  0 <= MaxRetries opts <= 38 ->
  let t := trace (WithRetry env opts fn cap) in
  0 <= total_sleep t /\
  4 * total_sleep t <= 5 * (50 * Millisecond) * (2 ^ MaxRetries opts - 1).
Proof.
  intros Hm. cbv zeta. unfold WithRetry.
  destruct (retry_loop_total_sleep (WithRetry_fuel opts) 0 (50 * Millisecond) None cap)
    as (H0 & Hb & _); [lia|lia| |].
  - intros _. change (2 ^ 0) with 1. lia.
  - split; [exact H0|]. change (2 ^ 0) with 1 in Hb. apply Hb. lia.
Qed.

(** X6. An error [WithRetry] returns is the context's error, or a failure
    to begin a transaction wrapped as such, or it wraps (in the sense of
    [errors.Is]) an error [e] that the unit of work or a commit returned
    in that run, and then it is classified as [e] is: the wrappers of the
    exhausted-retries, failed-commit and failed-rollback paths never hide
    or change the class of the cause. *)
Theorem WithRetry_error_provenance cap (err : error) :
  let r := WithRetry env opts fn cap in
  outcome r = Returned (Some err) ->
  err = ctx_err env \/
  (exists k iso ro e, EvBeginTx k iso ro (Some e) ∈ trace r /\
     err = Errorf "begin transaction" e) \/
  (exists k e, (EvCall k (Some e) ∈ trace r \/ exists tx, EvCommit k tx (Some e) ∈ trace r) /\
     Is err e = true /\ ClassifyError (Some err) = ClassifyError (Some e)).
Proof.
  cbv zeta. intros Ho. unfold WithRetry in *.
  destruct (retry_loop_error _ _ _ _ _ _ Ho) as [[_ ?]|H]; [done|exact H].
Qed.

(** X7. [WithTransaction] makes one attempt whatever the error: it never
    sleeps and invokes the unit of work at most once; it returns [nil]
    exactly when the transaction began, the unit of work returned [nil]
    and the commit succeeded; and an error of the unit of work or of the
    commit comes back wrapping that error and classified as it is, so a
    retryable failure is handed to the caller and not retried. *)
Theorem WithTransaction_once cap :
  let r := WithTransaction env opts fn cap in
  total_sleep (trace r) = 0 /\
  (length (List.filter is_call (trace r)) <= 1)%nat /\
  (outcome r = Returned None <->
   exists tx tx', begin_tx (attempts env 0) = inr tx /\
     fn tx cap = (None, tx', captured r) /\ commit_err (attempts env 0) = None) /\
  (forall e, EvCall 0 (Some e) ∈ trace r \/ (exists tx, EvCommit 0 tx (Some e) ∈ trace r) ->
     exists err, outcome r = Returned (Some err) /\ Is err e = true /\
       ClassifyError (Some err) = ClassifyError (Some e)).
Proof.
  cbv zeta. unfold WithTransaction. cbv zeta.
  destruct (begin_tx (attempts env 0)) as [e0|tx] eqn:Hb;
    [|destruct (fn tx cap) as [[[e1|] tx'] cap'] eqn:Hf;
      [destruct (rollback_err (attempts env 0)) as [rb|]
      |destruct (commit_err (attempts env 0)) as [e2|] eqn:Hc]].
  all: cbn [trace outcome captured emit finish List.filter is_call length].
  all: rewrite ?total_sleep_cons; cbn [slept]; change (total_sleep (@nil (Event Tx))) with 0.
  all: split; [lia|]; split; [lia|]; split.
  all: try (split; [done|]; intros (tx0 & tx0' & ? & ? & ?); simplify_eq; congruence).
  all: try (split; [intros _; exists tx, tx'; done|done]).
  all: intros e [Hin|[tx0 Hin]]; split_elem Hin; simplify_eq;
    try (by apply elem_of_nil in Hin).
  all: eexists; split; [reflexivity|];
    rewrite ?ClassifyError_RollbackFailed, ?ClassifyError_Errorf; split; [|reflexivity];
    first [apply Is_refl | apply Is_RollbackFailed, Is_refl | apply Is_Errorf, Is_refl].
Qed.

End TxFacts.

Lemma WithRetry_single_attempt_witness :
  WithRetry scenario.never_locked CreateOrder_opts (CreateOrder_fn scenario.eight_widgets) None
  = emit (EvCtxCheck 0 false)
      (WithTransaction scenario.never_locked CreateOrder_opts
         (CreateOrder_fn scenario.eight_widgets) None) /\
  outcome (WithTransaction scenario.never_locked CreateOrder_opts
             (CreateOrder_fn scenario.eight_widgets) None)
  = Returned (Some ErrInsufficientStock).
Proof.
  split; [|vm_compute; reflexivity].
  apply (WithRetry_single_attempt scenario.never_locked CreateOrder_opts
           (CreateOrder_fn scenario.eight_widgets) None).
  - reflexivity.
  - simpl. lia.
  - intros err H. vm_compute in H. injection H as <-. reflexivity.
Defined.

Lemma WithRetry_closes_transactions_witness :
  let t := trace (CreateOrder_run scenario.locked_once scenario.two_widgets) in
  EvBeginTx 0 LevelSerializable false None ∈ t /\
  EvBeginTx 1 LevelSerializable false None ∈ t /\
  ((exists e rb, EvCall 0 (Some e) ∈ t /\ EvRollback 0 rb ∈ t /\
      forall tx c, EvCommit 0 tx c ∉ t) \/
   (EvCall 0 None ∈ t /\ (exists tx c, EvCommit 0 tx c ∈ t) /\
      forall rb, EvRollback 0 rb ∉ t)).
Proof.
  cbv zeta.
  assert (EvBeginTx 0 LevelSerializable false None
          ∈ trace (CreateOrder_run scenario.locked_once scenario.two_widgets)) as H0.
  { vm_compute. in_list. }
  split; [exact H0|]. split; [vm_compute; in_list|].
  exact (WithRetry_closes_transactions scenario.locked_once CreateOrder_opts
           (CreateOrder_fn scenario.two_widgets) None 0 LevelSerializable false H0).
Defined.

Lemma WithRetry_nil_committed_witness :
  exists k tx cap0 tx',
    0 <= k <= 3 /\
    begin_tx (attempts scenario.locked_once k) = inr tx /\
    CreateOrder_fn scenario.two_widgets tx cap0
    = (None, tx', captured (CreateOrder_run scenario.locked_once scenario.two_widgets)) /\
    commit_err (attempts scenario.locked_once k) = None /\
    last (trace (CreateOrder_run scenario.locked_once scenario.two_widgets))
    = Some (EvCommit k tx' None).
Proof.
  apply (WithRetry_nil_committed scenario.locked_once CreateOrder_opts
           (CreateOrder_fn scenario.two_widgets) None).
  - simpl. lia.
  - vm_compute. reflexivity.
Defined.

Lemma WithRetry_total_sleep_witness :
  let t := trace (CreateOrder_run scenario.locked_once scenario.two_widgets) in
  total_sleep t = 60956789 /\
  0 <= total_sleep t /\ 4 * total_sleep t <= 5 * (50 * Millisecond) * (2 ^ 3 - 1).
Proof.
  cbv zeta. split; [vm_compute; reflexivity|].
  apply (WithRetry_total_sleep scenario.locked_once CreateOrder_opts
           (CreateOrder_fn scenario.two_widgets) None).
  simpl. lia.
Defined.

Lemma WithRetry_error_provenance_witness :
  let r := CreateOrder_run scenario.cancelled_asleep scenario.two_widgets in
  outcome r = Returned (Some Canceled) /\
  (Canceled = ctx_err scenario.cancelled_asleep \/
   (exists k iso ro e, EvBeginTx k iso ro (Some e) ∈ trace r /\
      Canceled = Errorf "begin transaction" e) \/
   (exists k e, (EvCall k (Some e) ∈ trace r \/ exists tx, EvCommit k tx (Some e) ∈ trace r) /\
      Is Canceled e = true /\ ClassifyError (Some Canceled) = ClassifyError (Some e))).
Proof.
  cbv zeta.
  assert (outcome (CreateOrder_run scenario.cancelled_asleep scenario.two_widgets)
          = Returned (Some Canceled)) as Ho by (vm_compute; reflexivity).
  split; [exact Ho|].
  exact (WithRetry_error_provenance scenario.cancelled_asleep CreateOrder_opts
           (CreateOrder_fn scenario.two_widgets) None Canceled Ho).
Defined.

(** ** Inventory operations and the catalogue *)

Lemma catalogue_kept_same (db db' : DB) : products db' = products db -> catalogue_kept db db'.
Proof.
  intros H. split; [by rewrite H|].
  intros id p' Hp. rewrite H in Hp. exists p'. repeat split; auto.
Qed.

Lemma catalogue_kept_restocked (db : DB) (id : Z) (p : Product) (stock version : Z) :
  products db !! id = Some p -> 0 <= stock ->
  catalogue_kept db
    (set_products (insert id (restocked p stock version (pg_now (tick db)))) (tick db)).
Proof.
  intros Hp Hs. split.
  - cbn [products set_products tick]. rewrite dom_insert_L.
    apply elem_of_dom_2 in Hp. apply set_eq. intros x. rewrite elem_of_union, elem_of_singleton.
    split; [intros [->|?]; done|by right].
  - intros id' p'. cbn [products set_products tick].
    destruct (decide (id = id')) as [<-|Hne].
    + rewrite lookup_insert_eq. intros [= <-]. exists p. repeat split; auto.
    + rewrite lookup_insert_ne by done. intros Hp'. exists p'. repeat split; auto.
Qed.

Ltac run_stmt :=
  unfold ReserveStock, ReserveStockNoWait, UpdateStockOptimistic, DecrementStock, GetProduct,
    bind, map_err, select_product_for_update, select_product, update_stock_versioned,
    update_stock_guarded, stmt;
  repeat case_match; simplify_eq/=.

(** X8. Whatever the arguments and whatever the server answers, the five
    inventory operations leave the catalogue in place: no row appears or
    disappears, no row changes its identifier, SKU, name, price or
    creation time, and a quantity that is written is not negative. *)
Theorem inventory_keeps_catalogue (db : DB) (productID quantity newStock version : Z) :
  catalogue_kept db (GetProduct productID db).2 /\
  catalogue_kept db (ReserveStock productID quantity db).2 /\
  catalogue_kept db (ReserveStockNoWait productID quantity db).2 /\
  catalogue_kept db (UpdateStockOptimistic productID newStock version db).2 /\
  catalogue_kept db (DecrementStock productID quantity db).2.
Proof.
  split; [|split; [|split; [|split]]].
  all: run_stmt; try (apply catalogue_kept_same; reflexivity).
  all: match goal with
       | |- catalogue_kept ?d _ => apply (catalogue_kept_restocked d); [done|lia]
       end.
Qed.

(** X9. Unless the server fails the statement for a reason of its own,
    every error an inventory operation returns is classified Permanent:
    not-found, insufficient stock, the optimistic conflict, a refused
    negative quantity, and also [ErrLockTimeout], by which
    [ReserveStockNoWait] replaces the driver's 55P03; [IsRetryable]
    answers no for each of them. *)
Theorem inventory_errors_permanent (db : DB) (productID quantity newStock version : Z)
    (e : error) :
  faults db (stmts db) = None ->
  (GetProduct productID db).1 = inl e \/
  (ReserveStock productID quantity db).1 = inl e \/
  (ReserveStockNoWait productID quantity db).1 = inl e \/
  (UpdateStockOptimistic productID newStock version db).1 = inl e \/
  (DecrementStock productID quantity db).1 = inl e ->
  ClassifyError (Some e) = ErrorClassPermanent /\ IsRetryable (Some e) = false.
Proof.
  intros Hf H.
  assert (ClassifyError (Some e) = ErrorClassPermanent) as Hc.
  { destruct H as [H|[H|[H|[H|H]]]]; revert H; run_stmt; intros;
      unfold lock_not_available, check_violation in *; simplify_eq/=;
      try reflexivity; congruence. }
  split; [done|]. unfold IsRetryable. cbv zeta. by rewrite Hc.
Qed.

Lemma inventory_errors_permanent_witness :
  (ReserveStockNoWait 1 2 (scenario.shop {[ 1 ]} 5)).1 = inl ErrLockTimeout /\
  ClassifyError (Some ErrLockTimeout) = ErrorClassPermanent /\
  IsRetryable (Some ErrLockTimeout) = false.
Proof.
  assert ((ReserveStockNoWait 1 2 (scenario.shop {[ 1 ]} 5)).1 = inl ErrLockTimeout) as H
    by (vm_compute; reflexivity).
  split; [exact H|].
  apply (inventory_errors_permanent (scenario.shop {[ 1 ]} 5) 1 2 0 0 ErrLockTimeout).
  - reflexivity.
  - right. right. left. exact H.
Defined.

Lemma ReserveStock_run (db : DB) (productID quantity : Z) (p : Product) :
  faults db (stmts db) = None ->
  products db !! productID = Some p ->
  ReserveStock productID quantity db =
  (if Product_StockQuantity p <? quantity then inl ErrInsufficientStock else inr p, tick db).
Proof.
  intros Hf Hp. unfold ReserveStock, bind, map_err, select_product_for_update.
  rewrite stmt_ok by done. cbn [products tick]. rewrite Hp. cbn.
  by destruct (Product_StockQuantity p <? quantity).
Qed.

Lemma DecrementStock_run (db : DB) (productID quantity : Z) (p : Product) :
  faults db (stmts db) = None ->
  products db !! productID = Some p ->
  DecrementStock productID quantity db =
  if Product_StockQuantity p <? quantity then (inl ErrInsufficientStock, tick db)
  else (inr tt, set_products
                  (insert productID
                     (restocked p (Product_StockQuantity p - quantity)
                        (Product_Version p) (pg_now db))) (tick db)).
Proof.
  intros Hf Hp. unfold DecrementStock, bind, map_err, update_stock_guarded.
  rewrite stmt_ok by done. cbn [products tick pg_now]. rewrite Hp.
  rewrite Z.geb_leb.
  destruct (Z.ltb_spec (Product_StockQuantity p) quantity);
    destruct (Z.leb_spec quantity (Product_StockQuantity p)); try lia; [done|].
  destruct (Z.ltb_spec (Product_StockQuantity p - quantity) 0); [lia|done].
Qed.



Lemma UpdateStockOptimistic_run (db : DB) (productID newStock version : Z) (p : Product) :
  faults db (stmts db) = None ->
  products db !! productID = Some p ->
  UpdateStockOptimistic productID newStock version db =
  if Product_Version p =? version then
    if newStock <? 0 then (inl (Errorf "update stock" check_violation), tick db)
    else (inr tt, set_products
                    (insert productID
                       (restocked p newStock (Product_Version p + 1) (pg_now db))) (tick db))
  else (inl ErrOptimisticLockFailed, tick db).
Proof.
  intros Hf Hp. unfold UpdateStockOptimistic, bind, map_err, update_stock_versioned.
  rewrite stmt_ok by done. cbn [products tick pg_now]. rewrite Hp.
  destruct (Product_Version p =? version); [|done].
  by destruct (newStock <? 0).
Qed.

(** X11. A revision is good for one optimistic update.  After
    [UpdateStockOptimistic] has succeeded with the revision [version],
    [GetProduct] reads the new quantity under the revision
    [version + 1], and any further update presented with [version]
    fails with [ErrOptimisticLockFailed] and changes nothing. *)
Theorem UpdateStockOptimistic_once (db : DB) (productID newStock version : Z) (p : Product) :
  faults db (stmts db) = None ->
  faults db (S (stmts db)) = None ->
  products db !! productID = Some p ->
  Product_Version p = version ->
  0 <= newStock ->
  let db' := (UpdateStockOptimistic productID newStock version db).2 in
  let p' := restocked p newStock (version + 1) (pg_now db) in
  (UpdateStockOptimistic productID newStock version db).1 = inr tt /\
  GetProduct productID db' = (inr p', tick db') /\
  forall stock, UpdateStockOptimistic productID stock version db'
                = (inl ErrOptimisticLockFailed, tick db').
Proof.
  intros Hf1 Hf2 Hp Hv Hs. cbv zeta.
  rewrite (UpdateStockOptimistic_run db productID newStock version p) by done.
  rewrite Hv, Z.eqb_refl.
  destruct (Z.ltb_spec newStock 0); [lia|]. cbn [fst snd].
  split; [done|]. split.
  - unfold GetProduct, map_err, select_product. rewrite stmt_ok by done.
    cbn [products set_products tick]. by rewrite lookup_insert_eq.
  - intros stock.
    rewrite (UpdateStockOptimistic_run _ productID stock version
               (restocked p newStock (version + 1) (pg_now db)));
      [|done|cbn [products set_products tick]; by rewrite lookup_insert_eq].
    cbn [Product_Version restocked].
    destruct (Z.eqb_spec (version + 1) version); [lia|]. reflexivity.
Qed.

Lemma UpdateStockOptimistic_once_witness :
  let db' := (UpdateStockOptimistic 1 40 1 (scenario.shop ∅ 50)).2 in
  (UpdateStockOptimistic 1 40 1 (scenario.shop ∅ 50)).1 = inr tt /\
  GetProduct 1 db'
  = (inr (restocked (scenario.widget 50 1) 40 2 1705314600000000000), tick db') /\
  forall stock, UpdateStockOptimistic 1 stock 1 db' = (inl ErrOptimisticLockFailed, tick db').
Proof.
  apply (UpdateStockOptimistic_once (scenario.shop ∅ 50) 1 40 1 (scenario.widget 50 1));
    try reflexivity.
  lia.
Defined.

(** ** Offset pages *)

Lemma insert_newest_perm (p : Product) (l : list Product) :
  Permutation (insert_newest p l) (p :: l).
Proof.
  induction l as [|x r IH]; simpl; [done|].
  destruct (newest_first p x); [done|].
  rewrite IH. apply perm_swap.
Qed.

Lemma sort_newest_perm (l : list Product) : Permutation (sort_newest l) l.
Proof.
  induction l as [|x r IH]; simpl; [done|].
  rewrite insert_newest_perm. by constructor.
Qed.

Lemma insert_newest_sorted (p : Product) (l : list Product) :
  Sorted newest l -> Sorted newest (insert_newest p l).
Proof.
  induction 1 as [|x r Hs IH Hd]; simpl.
  - repeat constructor.
  - unfold newest_first. destruct (Z.leb_spec (Product_CreatedAt x) (Product_CreatedAt p)).
    + constructor; [by constructor|]. by constructor.
    + constructor; [done|].
      destruct r as [|y r]; simpl; [constructor; unfold newest; lia|].
      unfold newest_first.
      destruct (Z.leb_spec (Product_CreatedAt y) (Product_CreatedAt p)); constructor;
        try (unfold newest; lia). by inversion Hd.
Qed.

Lemma sort_newest_sorted (l : list Product) : Sorted newest (sort_newest l).
Proof.
  induction l as [|x r IH]; simpl; [constructor|]. by apply insert_newest_sorted.
Qed.

Lemma Sorted_drop {A} (R : A -> A -> Prop) (n : nat) (l : list A) :
  Sorted R l -> Sorted R (drop n l).
Proof.
  intros H. revert n. induction H as [|x r Hs IH Hd]; intros [|n]; simpl; try constructor; auto.
Qed.

Lemma ListProducts_run (db : DB) (page pageSize : Z) :
  faults db (stmts db) = None ->
  faults db (S (stmts db)) = None ->
  let total := Z.of_nat (size (products db)) in
  let offset := wrap64 ((page - 1) * pageSize) in
  ListProducts db page pageSize =
  if offset <? 0 then Err (Errorf "list products" invalid_row_count_in_result_offset_clause)
  else if pageSize <? 0 then Err (Errorf "list products" invalid_row_count_in_limit_clause)
  else if pageSize =? 0 then Panic "runtime error: integer divide by zero"
  else Ok {| Page_Items :=
               take (Z.to_nat pageSize)
                 (drop (Z.to_nat offset) (sort_newest (map snd (map_to_list (products db)))));
             Total := total; Page := page; PageSize := pageSize;
             TotalPages := if Z.rem total pageSize >? 0 then Z.quot total pageSize + 1
                           else Z.quot total pageSize |}.
Proof.
  intros Hf1 Hf2. cbv zeta.
  unfold ListProducts, map_err, select_count_products, select_products_page.
  rewrite stmt_ok by done. cbv zeta. rewrite stmt_ok by done.
  cbn [products tick].
  destruct (wrap64 ((page - 1) * pageSize) <? 0); [done|].
  destruct (pageSize <? 0); [done|]. reflexivity.
Qed.

(** X12. For a page number and a page size of at least 1 whose offset
    [(page - 1) * pageSize] fits an [int], and a store that answers both
    queries: [ListProducts] returns a page that echoes the two numbers,
    whose [Total] is the number of rows of the table and whose
    [TotalPages] is [Total / PageSize] rounded up; its items are rows of
    the table, newest first, as many as the size of the page and the
    rows from the offset on allow, and none for a page past the last. *)
Theorem ListProducts_page (db : DB) (page pageSize : Z) :
  faults db (stmts db) = None ->
  faults db (S (stmts db)) = None ->
  1 <= page -> 1 <= pageSize -> (page - 1) * pageSize <= MaxInt64 ->
  exists pg,
    ListProducts db page pageSize = Ok pg /\
    Page pg = page /\ PageSize pg = pageSize /\
    Total pg = Z.of_nat (size (products db)) /\
    Total pg <= PageSize pg * TotalPages pg < Total pg + PageSize pg /\
    Z.of_nat (length (Page_Items pg))
    = Z.min pageSize (Z.max 0 (Total pg - (page - 1) * pageSize)) /\
    Forall (fun p => exists id, products db !! id = Some p) (Page_Items pg) /\
    Sorted newest (Page_Items pg) /\
    (TotalPages pg < page -> Page_Items pg = []).
Proof.
  intros Hf1 Hf2 Hpage Hsize Hoff.
  rewrite ListProducts_run by done. cbv zeta.
  assert (0 <= (page - 1) * pageSize) as Hoff0 by nia.
  rewrite (wrap64_id ((page - 1) * pageSize)) by (unfold MinInt64, MaxInt64 in *; lia).
  destruct (Z.ltb_spec ((page - 1) * pageSize) 0); [lia|].
  destruct (Z.ltb_spec pageSize 0); [lia|].
  destruct (Z.eqb_spec pageSize 0); [lia|].
  eexists. split; [reflexivity|]. cbn [Page PageSize Total TotalPages Page_Items].
  set (total := Z.of_nat (size (products db))).
  set (rows := sort_newest (map snd (map_to_list (products db)))).
  assert (Z.of_nat (length rows) = total) as Hlen.
  { unfold rows, total. rewrite (Permutation_length (sort_newest_perm _)).
    by rewrite length_map, length_map_to_list. }
  assert (0 <= total) as Ht by (unfold total; lia).
  assert (total <=
          pageSize * (if Z.rem total pageSize >? 0 then Z.quot total pageSize + 1
                      else Z.quot total pageSize) < total + pageSize) as Hpages.
  { rewrite Z.rem_mod_nonneg, Z.quot_div_nonneg by lia.
    pose proof (Z.div_mod total pageSize ltac:(lia)).
    pose proof (Z.mod_pos_bound total pageSize ltac:(lia)).
    destruct (Z.gtb_spec (total mod pageSize) 0); nia. }
  split; [done|]. split; [done|]. split; [done|]. split; [exact Hpages|].
  split; [rewrite length_take, length_drop; lia|].
  split.
  { apply Forall_take, Forall_drop. unfold rows. rewrite (sort_newest_perm _).
    apply Forall_forall. intros p Hin.
    apply list_elem_of_fmap in Hin as ([id p'] & -> & Hin).
    exists id. by apply elem_of_map_to_list in Hin. }
  split; [apply Sorted_take, Sorted_drop, sort_newest_sorted|].
  intros Hlast. apply length_zero_iff_nil. rewrite length_take, length_drop. nia.
Qed.

Lemma ListProducts_page_witness :
  exists pg,
    ListProducts (scenario.shop ∅ 5) 2 20 = Ok pg /\
    Page pg = 2 /\ PageSize pg = 20 /\ Total pg = 1 /\ TotalPages pg = 1 /\
    Page_Items pg = [].
Proof.
  destruct (ListProducts_page (scenario.shop ∅ 5) 2 20 eq_refl eq_refl)
    as (pg & Hl & Hp & Hs & Ht & Hpages & _ & _ & _ & Hpast);
    [lia|lia|unfold MaxInt64; lia|].
  assert (Total pg = 1) as Ht1 by (rewrite Ht; reflexivity).
  assert (TotalPages pg = 1) as Hn by lia.
  exists pg. repeat split; try done. apply Hpast. lia.
Defined.



(** ** Placing an order *)

Lemma frame_refl (db : DB) : frame db db.
Proof. by repeat split. Qed.

Lemma frame_trans (a b c : DB) : frame a b -> frame b c -> frame a c.
Proof. unfold frame. intros (?&?&?&?&?) (?&?&?&?&?). repeat split; congruence. Qed.

Lemma frame_quiet (db db' : DB) : frame db db' -> quiet db -> quiet db'.
Proof. intros (_&_&_&_&Hf) Hq n. rewrite Hf. apply Hq. Qed.

Lemma lines_total_acc (f : Z -> Decimal) (now : Time) (oid next : Z)
    (items : list OrderItemRequest) :
  subtotals (order_lines f now oid next items)
  = foldr (fun item acc => f (ProductID item) * Quantity item + acc) 0 items.
Proof.
  revert next. induction items as [|item rest IH]; intros next; [done|].
  cbn [order_lines subtotals foldr OrderItem_Subtotal]. f_equal. apply IH.
Qed.

Lemma order_lines_ext (f g : Z -> Decimal) (now : Time) (oid next : Z)
    (items : list OrderItemRequest) :
  (forall item, item ∈ items -> f (ProductID item) = g (ProductID item)) ->
  order_lines f now oid next items = order_lines g now oid next items.
Proof.
  revert next. induction items as [|item rest IH]; intros next H; [done|].
  cbn [order_lines]. rewrite (H item) by apply list_elem_of_here.
  f_equal. apply IH. intros i Hi. apply H. by apply list_elem_of_further.
Qed.

Lemma order_lines_length (f : Z -> Decimal) (now : Time) (oid next : Z)
    (items : list OrderItemRequest) :
  length (order_lines f now oid next items) = length items.
Proof. revert next. induction items; intros; simpl; auto. Qed.

Lemma priced_lookup (db : DB) (items : list OrderItemRequest) (prices : gmap Z Decimal)
    (id : Z) :
  priced db prices items !! id
  = if bool_decide (id ∈ map ProductID items) then Some (price_of db id) else prices !! id.
Proof.
  revert prices. induction items as [|item rest IH]; intros prices; [done|].
  cbn [priced foldl map]. fold (priced db (<[ProductID item := price_of db (ProductID item)]> prices) rest).
  rewrite IH. destruct (decide (id ∈ map ProductID rest)) as [Hin|Hnin].
  - rewrite !bool_decide_eq_true_2; [done| |done]. by apply list_elem_of_further.
  - rewrite (bool_decide_eq_false_2 (id ∈ map ProductID rest)) by done.
    destruct (decide (id = ProductID item)) as [->|Hne].
    + rewrite lookup_insert_eq, bool_decide_eq_true_2; [done|apply list_elem_of_here].
    + rewrite lookup_insert_ne by done.
      rewrite bool_decide_eq_false_2; [done|].
      intros [?|?]%elem_of_cons; done.
Qed.

Lemma iter_tick_fields (n : nat) (db : DB) :
  frame db (Nat.iter n tick db) /\
  products (Nat.iter n tick db) = products db /\
  orders (Nat.iter n tick db) = orders db /\
  order_items (Nat.iter n tick db) = order_items db /\
  orders_id_seq (Nat.iter n tick db) = orders_id_seq db /\
  order_items_id_seq (Nat.iter n tick db) = order_items_id_seq db /\
  stmts (Nat.iter n tick db) = (stmts db + n)%nat.
Proof.
  induction n as [|n (Hf & ? & ? & ? & ? & ? & Hs)].
  - repeat split; auto.
  - destruct Hf as (?&?&?&?&?). change (Nat.iter (S n) tick db) with (tick (Nat.iter n tick db)).
    repeat split; cbn [users locked pg_now go_now faults products orders order_items
                       orders_id_seq order_items_id_seq stmts tick]; try done.
    rewrite Hs. lia.
Qed.

Lemma lock_items_all (items : list OrderItemRequest) (prices : gmap Z Decimal)
    (total : Decimal) (tx : DB) :
  quiet tx ->
  Forall (available tx) items ->
  lock_items items prices total tx =
  (inr (priced tx prices items,
        total + foldr (fun item acc => price_of tx (ProductID item) * Quantity item + acc)
                  0 items),
   Nat.iter (length items) tick tx).
Proof.
  revert prices total tx. induction items as [|item rest IH]; intros prices total tx Hq Ha.
  - cbn. by rewrite Z.add_0_r.
  - apply Forall_cons in Ha as [(p & Hp & Hl & Hs) Ha].
    rewrite (lock_items_available tx item rest prices total p) by (done || apply Hq).
    rewrite (IH _ _ (tick tx) Hq Ha).
    assert (price_of tx (ProductID item) = Product_Price p) as Hprice
      by (unfold price_of; by rewrite Hp).
    cbn [priced foldl foldr length]. rewrite Hprice, Nat.iter_succ_r.
    change (price_of (tick tx)) with (price_of tx).
    change (priced (tick tx)) with (priced tx). unfold priced.
    by rewrite Z.add_assoc.
Qed.

Lemma existsb_false {A} (f : A -> bool) (l : list A) :
  existsb f l = false <-> Forall (fun x => f x = false) l.
Proof.
  induction l as [|x r IH]; simpl.
  - split; [constructor|done].
  - rewrite orb_false_iff, IH, Forall_cons. done.
Qed.

Lemma insert_items_all (items : list OrderItemRequest) (oid : Z) (prices : gmap Z Decimal)
    (db : DB) :
  quiet db ->
  existsb (fun o => Order_ID o =? oid) (orders db) = true ->
  NoDup (map ProductID items) ->
  Forall (fun item => 0 < Quantity item /\ is_Some (products db !! (ProductID item)) /\
                      0 <= default 0 (prices !! (ProductID item))) items ->
  Forall (fun i => OrderItem_OrderID i = oid ->
                   OrderItem_ProductID i ∉ map ProductID items) (order_items db) ->
  exists db',
    insert_items items oid prices db = (inr tt, db') /\
    frame db db' /\ products db' = products db /\ orders db' = orders db /\
    orders_id_seq db' = orders_id_seq db /\
    order_items db' =
      (order_items db ++
       order_lines (fun id => default 0 (prices !! id)) (pg_now db) oid
         (order_items_id_seq db + 1) items)%list /\
    stmts db' = (stmts db + length items)%nat.
Proof.
  revert db. induction items as [|item rest IH]; intros db Hq Ho Hnd Hitems Hold.
  - exists db. cbn. rewrite app_nil_r. repeat split; auto.
  - apply NoDup_cons in Hnd as [Hnin Hnd].
    apply Forall_cons in Hitems as [(Hqty & Hprod & Hprice) Hitems].
    set (line := {| OrderItem_ID := order_items_id_seq db + 1; OrderItem_OrderID := oid;
                    OrderItem_ProductID := ProductID item;
                    OrderItem_Quantity := Quantity item;
                    OrderItem_UnitPrice := default 0 (prices !! ProductID item);
                    OrderItem_Subtotal := default 0 (prices !! ProductID item) * Quantity item;
                    OrderItem_CreatedAt := pg_now db |}).
    assert (insert_order_item oid (ProductID item) (Quantity item)
              (default 0 (prices !! ProductID item))
              (default 0 (prices !! ProductID item) * Quantity item) db
            = (inr tt, add_order_item line (tick db))) as Hins.
    { unfold insert_order_item. rewrite stmt_ok by apply Hq.
      cbn [order_items orders products order_items_id_seq pg_now tick].
      destruct (Z.gtb_spec (Quantity item) 0); [|lia].
      destruct (Z.ltb_spec (default 0 (prices !! ProductID item)) 0); [lia|].
      destruct (Z.ltb_spec (default 0 (prices !! ProductID item) * Quantity item) 0); [nia|].
      cbn [negb orb].
      assert (existsb (fun i => (OrderItem_OrderID i =? oid)
                                && (OrderItem_ProductID i =? ProductID item))
                (order_items db) = false) as ->.
      { apply existsb_false. eapply Forall_impl; [exact Hold|]. cbn beta.
        intros i Hi. destruct (Z.eqb_spec (OrderItem_OrderID i) oid) as [He|]; [|done].
        destruct (Z.eqb_spec (OrderItem_ProductID i) (ProductID item)) as [Hp|]; [|done].
        exfalso. apply (Hi He). rewrite Hp. apply list_elem_of_here. }
      rewrite Ho. rewrite bool_decide_eq_true_2 by done. reflexivity. }
    destruct (IH (add_order_item line (tick db))) as (db' & Hrun & Hfr & Hp' & Ho' & Hs' & Hi' & Hn').
    + exact Hq.
    + exact Ho.
    + exact Hnd.
    + eapply Forall_impl; [exact Hitems|]. cbn beta. tauto.
    + cbn [order_items add_order_item tick]. apply Forall_app. split.
      * eapply Forall_impl; [exact Hold|]. cbn beta. intros i Hi He Hin.
        apply (Hi He). by apply list_elem_of_further.
      * repeat constructor. intros _. exact Hnin.
    + exists db'. cbn [insert_items]. unfold bind, map_err. rewrite Hins.
      split; [exact Hrun|].
      split; [exact Hfr|]. split; [exact Hp'|]. split; [exact Ho'|]. split; [exact Hs'|].
      split.
      * rewrite Hi'. cbn [order_items add_order_item tick order_items_id_seq pg_now
                          OrderItem_ID order_lines].
        rewrite <- app_assoc. reflexivity.
      * rewrite Hn'. cbn [stmts add_order_item tick length]. lia.
Qed.

Lemma decrement_items_all (items : list OrderItemRequest) (db : DB) :
  quiet db ->
  NoDup (map ProductID items) ->
  Forall (fun item => exists p, products db !! (ProductID item) = Some p /\
                                Quantity item <= Product_StockQuantity p) items ->
  exists db',
    decrement_items items db = (inr tt, db') /\
    frame db db' /\ orders db' = orders db /\ order_items db' = order_items db /\
    orders_id_seq db' = orders_id_seq db /\
    stmts db' = (stmts db + length items)%nat /\
    (forall item p, item ∈ items -> products db !! (ProductID item) = Some p ->
       products db' !! (ProductID item)
       = Some (restocked p (Product_StockQuantity p - Quantity item)
                 (Product_Version p) (pg_now db))) /\
    (forall id, id ∉ map ProductID items -> products db' !! id = products db !! id).
Proof.
  revert db. induction items as [|item rest IH]; intros db Hq Hnd Hitems.
  - exists db. cbn. repeat split; auto. intros item p Hin. by apply elem_of_nil in Hin.
  - apply NoDup_cons in Hnd as [Hnin Hnd].
    apply Forall_cons in Hitems as [(p & Hp & Hs) Hitems].
    set (db1 := set_products
                  (insert (ProductID item)
                     (restocked p (Product_StockQuantity p - Quantity item)
                        (Product_Version p) (pg_now db))) (tick db)).
    assert (update_stock_guarded (Quantity item) (ProductID item) db = (inr 1, db1)) as Hup.
    { unfold update_stock_guarded. rewrite stmt_ok by apply Hq.
      cbn [products tick pg_now]. rewrite Hp, Z.geb_leb.
      destruct (Z.leb_spec (Quantity item) (Product_StockQuantity p)); [|lia].
      destruct (Z.ltb_spec (Product_StockQuantity p - Quantity item) 0); [lia|]. done. }
    destruct (IH db1) as (db' & Hrun & Hfr & Ho' & Hi' & Hs' & Hn' & Hin' & Hout').
    + exact Hq.
    + exact Hnd.
    + apply Forall_forall. intros i Hi.
      rewrite Forall_forall in Hitems. destruct (Hitems i Hi) as (pi & Hpi & Hsi).
      exists pi. split; [|done]. cbn [products db1 set_products tick].
      rewrite lookup_insert_ne; [done|]. intros Heq. apply Hnin. rewrite Heq.
      by apply list_elem_of_fmap_2.
    + exists db'. cbn [decrement_items]. unfold bind, map_err. rewrite Hup. cbn [Z.eqb].
      split; [exact Hrun|]. split; [exact Hfr|]. split; [exact Ho'|]. split; [exact Hi'|].
      split; [exact Hs'|]. split; [rewrite Hn'; cbn [stmts db1 set_products tick length]; lia|].
      split.
      * intros i pi Hi Hpi. apply elem_of_cons in Hi as [->|Hi].
        -- rewrite Hout' by done. cbn [products db1 set_products tick].
           rewrite lookup_insert_eq. congruence.
        -- assert (ProductID i <> ProductID item) as Hne.
           { intros Heq. apply Hnin. rewrite <- Heq. by apply list_elem_of_fmap_2. }
           apply (Hin' i pi Hi). cbn [products db1 set_products tick].
           by rewrite lookup_insert_ne.
      * intros id Hid. rewrite Hout'.
        -- cbn [products db1 set_products tick]. rewrite lookup_insert_ne; [done|].
           intros <-. apply Hid. apply list_elem_of_here.
        -- intros Hin. apply Hid. by apply list_elem_of_further.
Qed.

Lemma insert_order_ok (db : DB) (userID : Z) (orderNumber status : string)
    (totalAmount : Decimal) :
  faults db (stmts db) = None ->
  valid_status status = true ->
  0 <= totalAmount ->
  Forall (fun o => Order_OrderNumber o <> orderNumber) (orders db) ->
  userID ∈ users db ->
  insert_order userID orderNumber status totalAmount db =
  (inr (orders_id_seq db + 1),
   add_order {| Order_ID := orders_id_seq db + 1; Order_UserID := userID;
                Order_OrderNumber := orderNumber; Order_Status := status;
                Order_TotalAmount := totalAmount; Order_CreatedAt := pg_now db;
                Order_UpdatedAt := pg_now db; Order_Version := 1; Order_Items := [] |}
     (tick db)).
Proof.
  intros Hf Hst Ht Hnum Hu. unfold insert_order. rewrite stmt_ok by done.
  cbn [orders users orders_id_seq pg_now tick]. rewrite Hst.
  destruct (Z.ltb_spec totalAmount 0); [lia|]. cbn [negb orb].
  assert (existsb (fun o => String.eqb (Order_OrderNumber o) orderNumber) (orders db) = false)
    as ->.
  { apply existsb_false. eapply Forall_impl; [exact Hnum|]. cbn beta.
    intros o Ho. by apply String.eqb_neq. }
  rewrite bool_decide_eq_true_2 by done. reflexivity.
Qed.

Lemma find_new_order (old : list Order) (row : Order) (seq : Z) :
  Forall (fun o => Order_ID o <= seq) old ->
  Order_ID row = seq + 1 ->
  find (fun o => Order_ID o =? seq + 1) (old ++ [row]) = Some row.
Proof.
  intros Hold Hid. induction Hold as [|o old Ho _ IH]; simpl.
  - rewrite Hid, Z.eqb_refl. done.
  - destruct (Z.eqb_spec (Order_ID o) (seq + 1)); [lia|done].
Qed.

Lemma total_nonneg (tx : DB) (items : list OrderItemRequest) :
  Forall (orderable tx) items ->
  0 <= foldr (fun item acc => price_of tx (ProductID item) * Quantity item + acc) 0 items.
Proof.
  induction 1 as [|item rest (p & Hp & _ & Hq & Hprice) _ IH]; simpl; [lia|].
  unfold price_of at 1. rewrite Hp. simpl. nia.
Qed.

Lemma orderable_available (tx : DB) (item : OrderItemRequest) :
  orderable tx item -> available tx item.
Proof. intros (p & Hp & Hl & Hq & _). exists p. repeat split; try done. lia. Qed.

(** The unit of work on a request the store can serve. *)
Lemma CreateOrder_fn_commits (req : CreateOrderRequest) (tx : DB) (order : option Order) :
  quiet tx ->
  UserID req ∈ users tx ->
  Forall (orderable tx) (Request_Items req) ->
  NoDup (map ProductID (Request_Items req)) ->
  Forall (fun o => Order_OrderNumber o <> generateOrderNumber (go_now tx)) (orders tx) ->
  sequences_ahead tx ->
  let items := Request_Items req in
  let row := new_order tx req in
  exists tx',
    CreateOrder_fn req tx order = (None, tx', Some row) /\
    frame tx tx' /\
    orders tx' = (orders tx ++ [row])%list /\
    order_items tx' =
      (order_items tx ++
       order_lines (price_of tx) (pg_now tx) (Order_ID row) (order_items_id_seq tx + 1)
         items)%list /\
    (forall item p, item ∈ items -> products tx !! (ProductID item) = Some p ->
       products tx' !! (ProductID item)
       = Some (restocked p (Product_StockQuantity p - Quantity item)
                 (Product_Version p) (pg_now tx))) /\
    (forall id, id ∉ map ProductID items -> products tx' !! id = products tx !! id) /\
    stmts tx' = (stmts tx + (3 * length items + 3))%nat.
Proof.
  intros Hq Hu Hitems Hnd Hnum [Hseq Hseqi]. cbv zeta.
  set (items := Request_Items req) in *.
  (* the user check and the locking loop *)
  unfold CreateOrder_fn, assemble.
  unfold bind at 1, map_err at 1, select_user_exists.
  rewrite stmt_ok by apply Hq. cbn [users tick].
  rewrite bool_decide_eq_true_2 by done. cbn [negb].
  unfold bind at 1. fold items.
  rewrite (lock_items_all items ∅ 0 (tick tx)) by
    first [exact Hq | eapply Forall_impl; [exact Hitems|apply orderable_available]].
  change (price_of (tick tx)) with (price_of tx).
  change (priced (tick tx)) with (priced tx).
  set (tx1 := Nat.iter (length items) tick (tick tx)).
  destruct (iter_tick_fields (length items) (tick tx)) as (Hfr1 & Hp1 & Ho1 & Hi1 & Hs1 & Hsi1 & Hn1).
  fold tx1 in Hfr1, Hp1, Ho1, Hi1, Hs1, Hsi1, Hn1.
  cbn [products orders order_items orders_id_seq order_items_id_seq stmts tick] in *.
  destruct Hfr1 as (Hu1 & Hl1 & Hnow1 & Hgo1 & Hf1).
  cbn [users locked pg_now go_now faults tick] in *.
  set (total := foldr (fun item acc => price_of tx (ProductID item) * Quantity item + acc)
                  0 items).
  rewrite Z.add_0_l.
  (* the insertion of the order *)
  cbv beta iota. unfold bind at 1, map_err at 1. cbv beta.
  set (row := new_order tx req).
  assert (insert_order (UserID req) (generateOrderNumber (go_now tx1)) OrderStatusPending
            total tx1 = (inr (orders_id_seq tx + 1), add_order row (tick tx1))) as Hins.
  { rewrite insert_order_ok.
    - unfold row, new_order. rewrite lines_total_acc. fold items total.
      by rewrite Hs1, Hnow1, Hgo1.
    - rewrite Hf1. apply Hq.
    - reflexivity.
    - by apply total_nonneg.
    - by rewrite Ho1, Hgo1.
    - by rewrite Hu1. }
  rewrite Hins.
  set (tx2 := add_order row (tick tx1)).
  (* the lines *)
  assert (forall item, item ∈ items ->
            default 0 (priced tx ∅ items !! ProductID item) = price_of tx (ProductID item))
    as Hprices.
  { intros item Hin. rewrite priced_lookup.
    rewrite bool_decide_eq_true_2; [done|]. by apply list_elem_of_fmap_2. }
  destruct (insert_items_all items (orders_id_seq tx + 1) (priced tx ∅ items) tx2)
    as (tx3 & Hrun3 & Hfr3 & Hp3 & Ho3 & Hs3 & Hi3 & Hn3).
  { intros k. cbn [faults tx2 add_order tick]. rewrite Hf1. apply Hq. }
  { cbn [orders tx2 add_order tick]. rewrite Ho1, existsb_app. cbn [existsb row new_order Order_ID].
    rewrite Z.eqb_refl. apply orb_true_iff. right. reflexivity. }
  { exact Hnd. }
  { apply Forall_forall. intros item Hin.
    rewrite Forall_forall in Hitems. destruct (Hitems item Hin) as (p & Hp & _ & Hqty & Hprice).
    cbn [products tx2 add_order tick]. rewrite Hp1, Hp, (Hprices item Hin).
    unfold price_of. rewrite Hp. cbn. split; [lia|]. split; [by eexists|done]. }
  { cbn [order_items tx2 add_order tick]. rewrite Hi1.
    eapply Forall_impl; [exact Hseqi|]. cbn beta. intros i Hi He. lia. }
  unfold bind at 1. rewrite Hrun3.
  (* the decrements *)
  destruct (decrement_items_all items tx3) as (tx4 & Hrun4 & Hfr4 & Ho4 & Hi4 & Hs4 & Hn4 & Hin4 & Hout4).
  { eapply frame_quiet; [exact Hfr3|]. intros k. cbn [faults tx2 add_order tick].
    rewrite Hf1. apply Hq. }
  { exact Hnd. }
  { apply Forall_forall. intros item Hin.
    rewrite Forall_forall in Hitems. destruct (Hitems item Hin) as (p & Hp & _ & Hqty & _).
    exists p. rewrite Hp3. cbn [products tx2 add_order tick]. rewrite Hp1. split; [done|lia]. }
  unfold bind at 1. rewrite Hrun4. unfold ret.
  (* reading the order back *)
  unfold map_err, select_order.
  rewrite stmt_ok.
  2: { destruct Hfr4 as (_&_&_&_&->). destruct Hfr3 as (_&_&_&_&->).
       cbn [faults tx2 add_order tick]. rewrite Hf1. apply Hq. }
  cbn [orders tick]. rewrite Ho4, Ho3. cbn [orders tx2 add_order tick]. rewrite Ho1.
  rewrite (find_new_order (orders tx) row (orders_id_seq tx)) by done.
  exists (tick tx4). split; [reflexivity|].
  split.
  { eapply frame_trans; [|eapply frame_trans; [exact Hfr3|]].
    - repeat split; cbn [users locked pg_now go_now faults tx2 add_order tick]; done.
    - eapply frame_trans; [exact Hfr4|]. by repeat split. }
  split; [cbn [orders tick]; rewrite Ho4, Ho3; cbn [orders tx2 add_order tick]; by rewrite Ho1|].
  split.
  { cbn [order_items tick]. rewrite Hi4, Hi3. cbn [order_items order_items_id_seq pg_now tx2 add_order tick].
    rewrite Hi1, Hsi1, Hnow1. f_equal. apply order_lines_ext. exact Hprices. }
  split.
  { intros item p Hin Hp. cbn [products tick].
    rewrite (Hin4 item p Hin).
    - destruct Hfr3 as (_&_&->&_). cbn [pg_now tx2 add_order tick]. by rewrite Hnow1.
    - rewrite Hp3. cbn [products tx2 add_order tick]. by rewrite Hp1. }
  split.
  { intros id Hid. cbn [products tick]. rewrite (Hout4 id Hid), Hp3.
    cbn [products tx2 add_order tick]. by rewrite Hp1. }
  cbn [stmts tick]. rewrite Hn4, Hn3. cbn [stmts tx2 add_order tick]. rewrite Hn1.
  lia.
Qed.

(** ** What the unit of work does in general *)

Lemma stmt_frame {A} (sem : M A) (db : DB) :
  (forall d, frame d (sem d).2) -> frame db (stmt sem db).2.
Proof.
  intros H. unfold stmt. destruct (faults db (stmts db)).
  - by repeat split.
  - eapply frame_trans; [|apply H]. by repeat split.
Qed.

Lemma bind_frame {A B} (m : M A) (k : A -> M B) (db : DB) :
  frame db (m db).2 -> (forall a d, frame d (k a d).2) -> frame db (bind m k db).2.
Proof.
  intros Hm Hk. unfold bind. destruct (m db) as [[e|a] db'] eqn:E; cbn in *; [done|].
  eapply frame_trans; [exact Hm|apply Hk].
Qed.

Lemma map_err_frame {A} (f : error -> error) (m : M A) (db : DB) :
  frame db (m db).2 -> frame db (map_err f m db).2.
Proof. unfold map_err. by destruct (m db) as [[e|a] db']. Qed.

Lemma select_product_for_update_frame (nowait : bool) (id : Z) (db : DB) :
  frame db (select_product_for_update nowait id db).2.
Proof.
  unfold select_product_for_update. apply stmt_frame. intros d. cbv beta.
  repeat case_match; cbn [snd]; apply frame_refl.
Qed.

Lemma update_stock_guarded_frame (quantity id : Z) (db : DB) :
  frame db (update_stock_guarded quantity id db).2.
Proof.
  unfold update_stock_guarded. apply stmt_frame. intros d. cbv beta.
  repeat case_match; cbn [snd]; try apply frame_refl. by repeat split.
Qed.

Lemma insert_order_frame (userID : Z) (number status : string) (total : Decimal) (db : DB) :
  frame db (insert_order userID number status total db).2.
Proof.
  unfold insert_order. apply stmt_frame. intros d. cbv beta zeta.
  repeat case_match; cbn [snd]; try apply frame_refl. by repeat split.
Qed.

Lemma insert_order_item_frame (oid pid qty unitPrice subtotal : Z) (db : DB) :
  frame db (insert_order_item oid pid qty unitPrice subtotal db).2.
Proof.
  unfold insert_order_item. apply stmt_frame. intros d. cbv beta zeta.
  repeat case_match; cbn [snd]; try apply frame_refl. by repeat split.
Qed.

Lemma lock_items_frame (items : list OrderItemRequest) (prices : gmap Z Decimal)
    (total : Decimal) (db : DB) :
  frame db (lock_items items prices total db).2.
Proof.
  revert prices total db. induction items as [|item rest IH]; intros prices total db.
  - apply frame_refl.
  - cbn [lock_items]. apply bind_frame.
    + apply map_err_frame, select_product_for_update_frame.
    + intros p d. destruct (Product_StockQuantity p <? Quantity item); [apply frame_refl|apply IH].
Qed.

Lemma insert_items_frame (items : list OrderItemRequest) (oid : Z) (prices : gmap Z Decimal)
    (db : DB) :
  frame db (insert_items items oid prices db).2.
Proof.
  revert db. induction items as [|item rest IH]; intros db.
  - apply frame_refl.
  - cbn [insert_items]. apply bind_frame.
    + apply map_err_frame, insert_order_item_frame.
    + intros _ d. apply IH.
Qed.

Lemma decrement_items_frame (items : list OrderItemRequest) (db : DB) :
  frame db (decrement_items items db).2.
Proof.
  revert db. induction items as [|item rest IH]; intros db.
  - apply frame_refl.
  - cbn [decrement_items]. apply bind_frame.
    + apply map_err_frame, update_stock_guarded_frame.
    + intros r d. destruct (r =? 0); [apply frame_refl|apply IH].
Qed.

(** A locking loop that went through found every line's product in
    place, free and sufficiently stocked, and wrote nothing. *)
Lemma lock_items_inv (items : list OrderItemRequest) (prices : gmap Z Decimal)
    (total : Decimal) (db db' : DB) r :
  lock_items items prices total db = (inr r, db') ->
  products db' = products db /\ orders db' = orders db /\ order_items db' = order_items db /\
  Forall (fun item => exists p, products db !! (ProductID item) = Some p /\
                                (ProductID item ∉ locked db) /\
                                Quantity item <= Product_StockQuantity p) items.
Proof.
  revert prices total db. induction items as [|item rest IH]; intros prices total db.
  - cbn. intros [= _ <-]. repeat split; auto.
  - cbn [lock_items]. unfold bind, map_err, select_product_for_update, stmt.
    destruct (faults db (stmts db)); [done|].
    cbn [products locked tick].
    destruct (products db !! ProductID item) as [p|] eqn:Hp; [|done].
    destruct (bool_decide (ProductID item ∈ locked db)) eqn:Hl; [done|]. cbn [andb].
    destruct (Z.ltb_spec (Product_StockQuantity p) (Quantity item)); [done|].
    intros Hrun. apply IH in Hrun as (? & ? & ? & Hall).
    cbn [products orders order_items locked tick] in *.
    split; [done|]. split; [done|]. split; [done|]. constructor; [|done].
    exists p. apply bool_decide_eq_false in Hl. split; [done|]. split; [done|]. lia.
Qed.

(** A loop of insertions that went through had lines of positive
    quantity for pairwise distinct products, none of them already a line
    of the order. *)
Lemma insert_items_inv (items : list OrderItemRequest) (oid : Z) (prices : gmap Z Decimal)
    (db db' : DB) :
  insert_items items oid prices db = (inr tt, db') ->
  Forall (fun item => 0 < Quantity item) items /\
  NoDup (map ProductID items) /\
  Forall (fun i => OrderItem_OrderID i = oid ->
                   OrderItem_ProductID i ∉ map ProductID items) (order_items db).
Proof.
  revert db. induction items as [|item rest IH]; intros db.
  - intros _. split; [constructor|]. split; [constructor|].
    apply Forall_forall. intros i _ _ Hin. by apply elem_of_nil in Hin.
  - cbn [insert_items]. unfold bind, map_err, insert_order_item, stmt.
    destruct (faults db (stmts db)); [done|]. cbv zeta.
    cbn [order_items orders products order_items_id_seq pg_now tick].
    destruct (Z.gtb_spec (Quantity item) 0) as [Hq|]; [|done]. cbn [negb orb].
    destruct (_ || _); [done|].
    destruct (existsb _ (order_items db)) eqn:Hex; [done|].
    destruct (_ || _); [done|].
    intros Hrun. apply IH in Hrun as (Hqs & Hnd & Hold).
    cbn [order_items add_order_item tick] in Hold.
    apply Forall_app in Hold as [Hold Hline].
    rewrite Forall_singleton in Hline. cbn [OrderItem_OrderID OrderItem_ProductID] in Hline.
    apply existsb_false in Hex.
    split; [constructor; [lia|done]|].
    split; [constructor; [by apply Hline|done]|].
    apply Forall_forall. intros i Hi He Hin.
    rewrite Forall_forall in Hold, Hex. specialize (Hex i Hi). cbn beta in Hex.
    apply elem_of_cons in Hin as [Hin|Hin].
    + rewrite He, Hin, !Z.eqb_refl in Hex. done.
    + by apply (Hold i Hi He).
Qed.

Lemma assemble_inv (req : CreateOrderRequest) (tx tx' : DB) (orderID : Z) :
  assemble req tx = (inr orderID, tx') ->
  exists prices total db1 db2 db3,
    faults tx (stmts tx) = None /\
    UserID req ∈ users tx /\
    lock_items (Request_Items req) ∅ 0 (tick tx) = (inr (prices, total), db1) /\
    insert_order (UserID req) (generateOrderNumber (go_now db1)) OrderStatusPending total db1
    = (inr orderID, db2) /\
    insert_items (Request_Items req) orderID prices db2 = (inr tt, db3) /\
    decrement_items (Request_Items req) db3 = (inr tt, tx').
Proof.
  unfold assemble. unfold bind at 1, map_err at 1, select_user_exists, stmt.
  destruct (faults tx (stmts tx)) eqn:Hf; [done|]. cbn [users tick].
  destruct (bool_decide (UserID req ∈ users tx)) eqn:Hu; [|done]. cbn [negb].
  apply bool_decide_eq_true in Hu.
  unfold bind at 1.
  destruct (lock_items (Request_Items req) ∅ 0 (tick tx)) as [[e|[prices total]] db1] eqn:Hl;
    [done|].
  unfold bind at 1, map_err at 1.
  destruct (insert_order _ _ _ _ db1) as [[e|oid] db2] eqn:Hio; [done|].
  unfold bind at 1.
  destruct (insert_items _ _ _ db2) as [[e|[]] db3] eqn:Hii; [done|].
  unfold bind at 1.
  destruct (decrement_items _ db3) as [[e|[]] db4] eqn:Hd; [done|].
  unfold ret. intros [= <- <-].
  exists prices, total, db1, db2, db3. done.
Qed.

Lemma CreateOrder_fn_nil_inv (req : CreateOrderRequest) (tx tx' : DB)
    (order order' : option Order) :
  CreateOrder_fn req tx order = (None, tx', order') ->
  UserID req ∈ users tx /\
  Forall (fun item => exists p, products tx !! (ProductID item) = Some p /\
                                (ProductID item ∉ locked tx) /\
                                0 < Quantity item <= Product_StockQuantity p)
         (Request_Items req) /\
  NoDup (map ProductID (Request_Items req)) /\
  exists stored, stored ∈ orders tx' /\ order' = Some (with_items stored []).
Proof.
  unfold CreateOrder_fn.
  destruct (assemble req tx) as [[e|oid] tx1] eqn:Ha; [done|].
  unfold map_err, select_order, stmt.
  destruct (faults tx1 (stmts tx1)); [done|]. cbn [orders tick].
  destruct (find _ (orders tx1)) as [stored|] eqn:Hfind; [|done].
  intros [= <- <-].
  apply assemble_inv in Ha as (prices & total & db1 & db2 & db3 & Hf & Hu & Hl & Hio & Hii & Hd).
  apply lock_items_inv in Hl as (_ & _ & _ & Hall). cbn [products locked tick] in Hall.
  apply insert_items_inv in Hii as (Hqs & Hnd & _).
  split; [done|]. split.
  { rewrite Forall_forall in Hall, Hqs |- *. intros item Hin.
    destruct (Hall item Hin) as (p & Hp & Hlk & Hs). specialize (Hqs item Hin).
    exists p. repeat split; try done. }
  split; [done|].
  apply find_some in Hfind as [Hin Hid]. apply Z.eqb_eq in Hid.
  exists stored. split; [cbn [orders tick]; by apply list_elem_of_In|].
  unfold with_items. by rewrite Hid.
Qed.

(** X15. The unit of work of [CreateOrder] goes through only for a
    request the store can serve: whatever else happens, when it returns
    [nil] the account exists, every line names a product of the
    catalogue whose row no other transaction holds, asks for a positive
    quantity that the stock covers, and no two lines name the same
    product; and the order handed to the caller is a row of the orders
    table as the transaction leaves it, without its lines. *)
Theorem CreateOrder_fn_sound (req : CreateOrderRequest) (tx tx' : DB)
    (order order' : option Order) :
  CreateOrder_fn req tx order = (None, tx', order') ->
  UserID req ∈ users tx /\
  Forall (fun item => exists p, products tx !! (ProductID item) = Some p /\
                                (ProductID item ∉ locked tx) /\
                                0 < Quantity item <= Product_StockQuantity p)
         (Request_Items req) /\
  NoDup (map ProductID (Request_Items req)) /\
  exists stored, stored ∈ orders tx' /\ order' = Some (with_items stored []).
Proof. apply CreateOrder_fn_nil_inv. Qed.

Lemma CreateOrder_fn_sound_witness :
  7 ∈ users (scenario.shop ∅ 5) /\
  NoDup (map ProductID (Request_Items scenario.two_widgets)) /\
  exists tx' stored,
    CreateOrder_fn scenario.two_widgets (scenario.shop ∅ 5) None
    = (None, tx', Some (with_items stored [])) /\
    stored ∈ orders tx'.
Proof.
  destruct (CreateOrder_fn scenario.two_widgets (scenario.shop ∅ 5) None)
    as [[err tx'] order'] eqn:Hrun.
  assert (err = None) as -> by (apply (f_equal (fun r => r.1.1)) in Hrun; vm_compute in Hrun; congruence).
  destruct (CreateOrder_fn_sound scenario.two_widgets (scenario.shop ∅ 5) tx' None order' Hrun)
    as (Hu & _ & Hnd & stored & Hin & ->).
  split; [exact Hu|]. split; [exact Hnd|]. exists tx', stored. split; [reflexivity|exact Hin].
Defined.

(** ** The errors of the unit of work *)

Lemma frame_of {A} (f : M A) (db db' : DB) r :
  frame db (f db).2 -> f db = (r, db') -> frame db db'.
Proof. intros H E. by rewrite E in H. Qed.

Lemma lock_items_error (items : list OrderItemRequest) (prices : gmap Z Decimal)
    (total : Decimal) (db db' : DB) (e : error) :
  quiet db ->
  lock_items items prices total db = (inl e, db') ->
  ClassifyError (Some e) = ErrorClassPermanent \/
  exists item, item ∈ items /\
    e = Errorf ("lock product " +:+ itoa (ProductID item)) lock_not_available /\
    ProductID item ∈ locked db.
Proof.
  revert prices total db. induction items as [|item rest IH]; intros prices total db Hq.
  - done.
  - cbn [lock_items]. unfold bind, map_err, select_product_for_update.
    rewrite stmt_ok by apply Hq. cbn [products locked tick].
    destruct (products db !! ProductID item) as [p|] eqn:Hp.
    2: { intros [= <- _]. by left. }
    destruct (bool_decide (ProductID item ∈ locked db)) eqn:Hl; cbn [andb].
    { intros [= <- _]. right. exists item. apply bool_decide_eq_true in Hl.
      split; [apply list_elem_of_here|done]. }
    destruct (Product_StockQuantity p <? Quantity item).
    { intros [= <- _]. by left. }
    intros Hrun. apply IH in Hrun; [|exact Hq].
    destruct Hrun as [?|(i & Hi & ? & ?)]; [by left|].
    right. exists i. split; [by apply list_elem_of_further|done].
Qed.

Lemma insert_items_error (items : list OrderItemRequest) (oid : Z) (prices : gmap Z Decimal)
    (db db' : DB) (e : error) :
  quiet db ->
  insert_items items oid prices db = (inl e, db') ->
  ClassifyError (Some e) = ErrorClassPermanent.
Proof.
  revert db. induction items as [|item rest IH]; intros db Hq; [done|].
  cbn [insert_items]. unfold bind, map_err.
  destruct (insert_order_item _ _ _ _ _ db) as [[e0|[]] db1] eqn:Hins.
  - intros [= <- _]. revert Hins. unfold insert_order_item.
    rewrite stmt_ok by apply Hq. cbv zeta.
    repeat case_match; intros [= <- _]; reflexivity.
  - apply IH. eapply frame_quiet; [|exact Hq].
    eapply frame_of; [|exact Hins]. apply insert_order_item_frame.
Qed.

Lemma decrement_items_error (items : list OrderItemRequest) (db db' : DB) (e : error) :
  quiet db ->
  decrement_items items db = (inl e, db') ->
  ClassifyError (Some e) = ErrorClassPermanent.
Proof.
  revert db. induction items as [|item rest IH]; intros db Hq; [done|].
  cbn [decrement_items]. unfold bind, map_err.
  destruct (update_stock_guarded _ _ db) as [[e0|r] db1] eqn:Hup.
  - intros [= <- _]. revert Hup. unfold update_stock_guarded.
    rewrite stmt_ok by apply Hq.
    repeat case_match; intros [= <- _]; reflexivity.
  - destruct (r =? 0); [by intros [= <- _]|].
    apply IH. eapply frame_quiet; [|exact Hq].
    eapply frame_of; [|exact Hup]. apply update_stock_guarded_frame.
Qed.

(** X16. In a transaction none of whose statements the server fails for
    a reason of its own, the only failure of the unit of work of
    [CreateOrder] that is not classified Permanent is the wrapped 55P03
    of a line whose product row another transaction holds locked: an
    unknown account or product, a short stock, a refused insertion and a
    missing row are all final. *)
Theorem CreateOrder_fn_retryable (req : CreateOrderRequest) (tx tx' : DB)
    (order order' : option Order) (e : error) :
  quiet tx ->
  CreateOrder_fn req tx order = (Some e, tx', order') ->
  ClassifyError (Some e) = ErrorClassPermanent \/
  exists item, item ∈ Request_Items req /\
    e = Errorf ("lock product " +:+ itoa (ProductID item)) lock_not_available /\
    ProductID item ∈ locked tx /\
    ClassifyError (Some e) = ErrorClassTransient.
Proof.
  intros Hq. unfold CreateOrder_fn.
  destruct (assemble req tx) as [[e0|oid] tx1] eqn:Ha.
  - intros [= <- <- <-]. revert Ha. unfold assemble.
    unfold bind at 1, map_err at 1, select_user_exists.
    rewrite stmt_ok by apply Hq. cbn [users tick].
    destruct (bool_decide (UserID req ∈ users tx)); cbn [negb].
    2: { intros [= <- _]. by left. }
    unfold bind at 1.
    destruct (lock_items (Request_Items req) ∅ 0 (tick tx)) as [[e|[prices total]] db1] eqn:Hl.
    { intros [= <- _]. apply lock_items_error in Hl; [|exact Hq].
      destruct Hl as [?|(item & Hin & -> & Hlk)]; [by left|].
      right. exists item. done. }
    assert (quiet db1) as Hq1.
    { eapply frame_quiet; [|exact Hq]. eapply frame_trans; [|eapply frame_of; [|exact Hl]].
      - by repeat split.
      - apply lock_items_frame. }
    cbv beta iota. unfold bind at 1, map_err at 1. cbv beta.
    destruct (insert_order _ _ _ _ db1) as [[e|oid] db2] eqn:Hio.
    { intros [= <- _]. left. revert Hio. unfold insert_order.
      rewrite stmt_ok by apply Hq1. cbv zeta.
      repeat case_match; intros [= <- _]; reflexivity. }
    assert (quiet db2) as Hq2.
    { eapply frame_quiet; [|exact Hq1]. eapply frame_of; [|exact Hio]. apply insert_order_frame. }
    unfold bind at 1.
    destruct (insert_items _ _ _ db2) as [[e|[]] db3] eqn:Hii.
    { intros [= <- _]. left. by eapply insert_items_error. }
    assert (quiet db3) as Hq3.
    { eapply frame_quiet; [|exact Hq2]. eapply frame_of; [|exact Hii]. apply insert_items_frame. }
    unfold bind at 1.
    destruct (decrement_items _ db3) as [[e|[]] db4] eqn:Hd; [|done].
    intros [= <- _]. left. by eapply decrement_items_error.
  - unfold map_err, select_order, stmt.
    destruct (faults tx1 (stmts tx1)) eqn:Hf.
    { exfalso. apply assemble_inv in Ha as (prices & total & db1 & db2 & db3 & _ & _ & Hl & Hio & Hii & Hd).
      assert (frame tx tx1) as Hfr.
      { eapply frame_trans; [|eapply frame_trans; [eapply frame_of; [|exact Hl]|]].
        - by repeat split.
        - apply lock_items_frame.
        - eapply frame_trans; [eapply frame_of; [|exact Hio]; apply insert_order_frame|].
          eapply frame_trans; [eapply frame_of; [|exact Hii]; apply insert_items_frame|].
          eapply frame_of; [|exact Hd]. apply decrement_items_frame. }
      pose proof (frame_quiet _ _ Hfr Hq (stmts tx1)). congruence. }
    destruct (find _ _); [done|]. intros [= <- _ _]. by left.
Qed.

Lemma CreateOrder_fn_retryable_witness :
  exists item, item ∈ Request_Items scenario.two_widgets /\
    (CreateOrder_fn scenario.two_widgets (scenario.shop {[ 1 ]} 5) None).1.1
    = Some (Errorf ("lock product " +:+ itoa (ProductID item)) lock_not_available) /\
    ProductID item ∈ locked (scenario.shop {[ 1 ]} 5).
Proof.
  destruct (CreateOrder_fn scenario.two_widgets (scenario.shop {[ 1 ]} 5) None)
    as [[err tx'] order'] eqn:Hrun.
  assert (err = Some scenario.lock_product_1) as ->
    by (apply (f_equal (fun r => r.1.1)) in Hrun; vm_compute in Hrun; symmetry; exact Hrun).
  destruct (CreateOrder_fn_retryable scenario.two_widgets (scenario.shop {[ 1 ]} 5) tx'
              None order' scenario.lock_product_1 (fun _ => eq_refl) Hrun)
    as [Hperm|(item & Hin & He & Hlk & _)]; [discriminate Hperm|].
  exists item. split; [exact Hin|]. split; [|exact Hlk]. cbn [fst]. by rewrite He.
Defined.

(** ** Placing an order *)




(** X14. [CreateOrder] on a request the store can serve (the account
    exists; the lines name pairwise distinct products that are in the
    catalogue, priced, free of foreign locks and stocked for the
    positive quantity asked; the order number of the instant is unused;
    the identifiers in the tables come from their sequences), in a
    first attempt that nothing disturbs: it returns, with a [nil] error
    and after this one attempt, the order header it inserted, whose
    total is the sum over the lines of price times quantity; and the
    transaction it commits holds that order, one order line per request
    line, and every ordered product with its stock reduced by the
    quantity of its line, all other products as they were. *)
Theorem CreateOrder_places_order (env : Env DB) (req : CreateOrderRequest) (tx : DB) :
  ctx_done (attempts env 0) = false ->
  begin_tx (attempts env 0) = inr tx ->
  commit_err (attempts env 0) = None ->
  quiet tx ->
  UserID req ∈ users tx ->
  Forall (orderable tx) (Request_Items req) ->
  NoDup (map ProductID (Request_Items req)) ->
  Forall (fun o => Order_OrderNumber o <> generateOrderNumber (go_now tx)) (orders tx) ->
  sequences_ahead tx ->
  let items := Request_Items req in
  let row := new_order tx req in
  let lines :=
    order_lines (price_of tx) (pg_now tx) (Order_ID row) (order_items_id_seq tx + 1) items in
  CreateOrder env req = (Some row, Returned None) /\
  Order_TotalAmount row
  = foldr (fun item acc => price_of tx (ProductID item) * Quantity item + acc) 0 items /\
  exists tx',
    trace (CreateOrder_run env req)
    = [EvCtxCheck 0 false; EvBeginTx 0 LevelSerializable false None; EvCall 0 None;
       EvCommit 0 tx' None] /\
    orders tx' = (orders tx ++ [row])%list /\
    order_items tx' = (order_items tx ++ lines)%list /\
    (forall item p, item ∈ items -> products tx !! (ProductID item) = Some p ->
       products tx' !! (ProductID item)
       = Some (restocked p (Product_StockQuantity p - Quantity item)
                 (Product_Version p) (pg_now tx))) /\
    (forall id, id ∉ map ProductID items -> products tx' !! id = products tx !! id).
Proof.
  intros Hctx Hb Hc Hq Hu Hitems Hnd Hnum Hseq. cbv zeta.
  destruct (CreateOrder_fn_commits req tx None Hq Hu Hitems Hnd Hnum Hseq)
    as (tx' & Hrun & _ & Ho & Hi & Hin & Hout & _).
  assert (CreateOrder_run env req
          = {| outcome := Returned None; captured := Some (new_order tx req);
               trace := [EvCtxCheck 0 false; EvBeginTx 0 LevelSerializable false None;
                         EvCall 0 None; EvCommit 0 tx' None] |}) as Hr.
  { unfold CreateOrder_run, WithRetry, WithRetry_fuel. cbn [retry_loop MaxRetries CreateOrder_opts].
    cbn [Z.leb Z.compare negb]. rewrite Hctx, Hb, Hrun, Hc. reflexivity. }
  split; [unfold CreateOrder; rewrite Hr; reflexivity|].
  split; [unfold new_order; cbn [Order_TotalAmount]; apply lines_total_acc|].
  exists tx'. rewrite Hr. done.
Qed.

Lemma CreateOrder_places_order_witness :
  CreateOrder scenario.never_locked scenario.two_widgets
  = (Some (new_order (scenario.shop ∅ 5) scenario.two_widgets), Returned None) /\
  Order_TotalAmount (new_order (scenario.shop ∅ 5) scenario.two_widgets) = 2 * 2999.
Proof.
  destruct (CreateOrder_places_order scenario.never_locked scenario.two_widgets
              (scenario.shop ∅ 5)) as (H & Ht & _).
  - reflexivity.
  - reflexivity.
  - reflexivity.
  - intros n. reflexivity.
  - vm_compute. reflexivity.
  - repeat constructor. exists (scenario.widget 5 1).
    split; [reflexivity|]. split; [exact (not_elem_of_empty (C:=gset Z) 1)|].
    split; simpl; lia.
  - repeat constructor. intros Hin. by apply elem_of_nil in Hin.
  - constructor.
  - split; constructor.
  - split; [exact H|]. rewrite Ht. reflexivity.
Defined.



(** X18. [CreateOrder] hands out an order exactly when it returns a [nil]
    error.  The order then comes from an attempt [k <= 3] whose
    transaction was committed, commit being the last thing done: it is
    a row of the orders table as committed, without its lines. *)
Theorem CreateOrder_order_iff_nil (env : Env DB) (req : CreateOrderRequest) :
  let r := CreateOrder_run env req in
  ((CreateOrder env req).2 = Returned None <-> (CreateOrder env req).1 <> None) /\
  (forall row, (CreateOrder env req).1 = Some row ->
     Order_Items row = [] /\
     exists k tx', 0 <= k <= 3 /\ last (trace r) = Some (EvCommit k tx' None) /\
       exists stored, stored ∈ orders tx' /\ row = with_items stored []).
Proof.
  cbv zeta. unfold CreateOrder.
  destruct (outcome (CreateOrder_run env req)) as [[e|]| |] eqn:Ho; cbn [fst snd].
  1,3,4: split; [split; [done|by intros []]|done].
  unfold CreateOrder_run, WithRetry in *.
  destruct (retry_loop_nil _ _ _ _ _ _ _ _ Ho)
    as [(Hm & _)|(k & tx & cap0 & tx' & Hk & Hb & Hf & Hc & Hl)];
    [simpl in Hm; lia|].
  destruct (CreateOrder_fn_nil_inv _ _ _ _ _ Hf) as (_ & _ & _ & stored & Hin & Hcap).
  rewrite Hcap.
  split; [split; [done|done]|].
  intros row [= <-]. split; [done|].
  exists k, tx'. split; [exact Hk|]. split; [exact Hl|]. by exists stored.
Qed.

(** ** The job queue *)

Lemma insert_oldest_perm (o : Order) (l : list Order) :
  Permutation (insert_oldest o l) (o :: l).
Proof.
  induction l as [|x r IH]; simpl; [done|].
  destruct (oldest_first o x); [done|].
  rewrite IH. apply perm_swap.
Qed.

Lemma sort_oldest_perm (l : list Order) : Permutation (sort_oldest l) l.
Proof.
  induction l as [|x r IH]; simpl; [done|].
  rewrite insert_oldest_perm. by constructor.
Qed.

Lemma insert_oldest_sorted (o : Order) (l : list Order) :
  StronglySorted oldest l -> StronglySorted oldest (insert_oldest o l).
Proof.
  induction 1 as [|x r Hs IH Hall]; simpl.
  - repeat constructor.
  - unfold oldest_first. destruct (Z.leb_spec (Order_CreatedAt o) (Order_CreatedAt x)).
    + constructor; [by constructor|]. constructor; [done|].
      eapply Forall_impl; [exact Hall|]. unfold oldest. cbn beta. intros; lia.
    + constructor; [done|].
      rewrite (insert_oldest_perm o r). constructor; [unfold oldest; lia|done].
Qed.

Lemma sort_oldest_sorted (l : list Order) : StronglySorted oldest (sort_oldest l).
Proof.
  induction l as [|x r IH]; simpl; [constructor|]. by apply insert_oldest_sorted.
Qed.

Lemma StronglySorted_filter {A} (R : A -> A -> Prop) (f : A -> bool) (l : list A) :
  StronglySorted R l -> StronglySorted R (List.filter f l).
Proof.
  induction 1 as [|x r Hs IH Hall]; simpl; [constructor|].
  destruct (f x); [|done]. constructor; [done|].
  apply Forall_forall. intros y Hy. apply list_elem_of_In, filter_In in Hy as [Hy _].
  rewrite Forall_forall in Hall. apply Hall. by apply list_elem_of_In.
Qed.

Lemma next_order_candidates (held : gset Z) (status : string) (l : list Order) (o : Order) :
  o ∈ List.filter (fun o => negb (bool_decide (Order_ID o ∈ held)))
        (sort_oldest (List.filter (fun o => String.eqb (Order_Status o) status) l))
  <-> o ∈ l /\ Order_Status o = status /\ Order_ID o ∉ held.
Proof.
  rewrite list_elem_of_In, filter_In, <- list_elem_of_In, (sort_oldest_perm _),
    list_elem_of_In, filter_In, <- list_elem_of_In.
  rewrite String.eqb_eq, negb_true_iff, bool_decide_eq_false. tauto.
Qed.

(** X20. [GetNextPendingOrder], when the server answers: the order it
    returns is a row of the table (its lines left empty) that is pending
    and that no other transaction holds locked, and no pending row free
    of locks is older; it returns [ErrOrderNotFound] exactly when every
    pending row is held by another transaction (or none is pending),
    whatever else the table holds; and the tables are left as they
    were. *)
Theorem GetNextPendingOrder_oldest_free (held : gset Z) (db : DB) :
  faults db (stmts db) = None ->
  (GetNextPendingOrder held db).2 = tick db /\
  (forall o, (GetNextPendingOrder held db).1 = inr o ->
     (exists row, row ∈ orders db /\ o = with_items row []) /\
     Order_Status o = OrderStatusPending /\ (Order_ID o ∉ held) /\
     forall o', o' ∈ orders db -> Order_Status o' = OrderStatusPending ->
       (Order_ID o' ∉ held) -> Order_CreatedAt o <= Order_CreatedAt o') /\
  ((GetNextPendingOrder held db).1 = inl ErrOrderNotFound <->
   forall o, o ∈ orders db -> Order_Status o = OrderStatusPending -> Order_ID o ∈ held).
Proof.
  intros Hf. unfold GetNextPendingOrder, bind, map_err, select_next_order, ret.
  rewrite stmt_ok by done. cbn [orders tick].
  pose proof (next_order_candidates held OrderStatusPending (orders db)) as Hmem.
  assert (StronglySorted oldest
            (List.filter (fun o => negb (bool_decide (Order_ID o ∈ held)))
               (sort_oldest (List.filter (fun o => String.eqb (Order_Status o) OrderStatusPending)
                               (orders db))))) as Hsorted
    by apply StronglySorted_filter, sort_oldest_sorted.
  destruct (List.filter _ (sort_oldest _)) as [|first rest]; cbn [fst snd].
  - split; [done|]. split; [done|]. split; [|done].
    intros _ o Hin Hst. destruct (decide (Order_ID o ∈ held)) as [|Hfree]; [done|].
    exfalso. eapply elem_of_nil, Hmem. done.
  - split; [done|]. split.
    + intros o [= <-]. cbn [with_items Order_Status Order_ID Order_CreatedAt].
      destruct (proj1 (Hmem first) (list_elem_of_here _ _)) as (Hin & Hst & Hfree).
      split; [by exists first|]. split; [done|]. split; [done|].
      intros o' Hin' Hst' Hfree'.
      assert (o' ∈ first :: rest) as Ho' by (by apply Hmem).
      apply elem_of_cons in Ho' as [->|Ho']; [lia|].
      apply StronglySorted_inv in Hsorted as [_ Hall].
      rewrite Forall_forall in Hall. by apply Hall.
    + split; [done|]. intros Hall. exfalso.
      destruct (proj1 (Hmem first) (list_elem_of_here _ _)) as (Hin & Hst & Hfree).
      by apply Hfree, Hall.
Qed.

Lemma GetNextPendingOrder_oldest_free_witness :
  (GetNextPendingOrder {[ 3 ]} scenario.queue_shop).1
  = inr (scenario.queued 4 OrderStatusPending 1705314300000000000) /\
  Order_Status (scenario.queued 4 OrderStatusPending 1705314300000000000) = OrderStatusPending /\
  4 ∉ ({[ 3 ]} : gset Z).
Proof.
  assert ((GetNextPendingOrder {[ 3 ]} scenario.queue_shop).1
          = inr (scenario.queued 4 OrderStatusPending 1705314300000000000)) as H
    by (vm_compute; reflexivity).
  destruct (GetNextPendingOrder_oldest_free {[ 3 ]} scenario.queue_shop eq_refl) as (_ & Hget & _).
  destruct (Hget _ H) as (_ & Hst & Hfree & _).
  split; [exact H|]. split; [exact Hst|exact Hfree].
Defined.

(** ** Listing with a limit that is not positive *)

(** X21. [ListOrdersCursor] with a limit a caller should not pass, a
    token that decodes and a store that answers.  With [limit = -1] the
    query asks for no row, the empty result counts as more than the
    limit, and slicing it to [limit] panics.  Below that, and at the
    largest [int], where [limit + 1] wraps around, the server refuses
    the negative [LIMIT] and the error comes back wrapped.  With
    [limit = 0] the page is empty and carries no token, and [HasMore]
    still tells whether the account has a row below the position. *)
Theorem ListOrdersCursor_bad_limit (db : DB) (userID : Z) (cursor : string) (limit : Z)
    (p : OrderCursor) :
  faults db (stmts db) = None ->
  DecodeCursor (go_now db) cursor = (p, None) ->
  (limit = -1 ->
     ListOrdersCursor db userID cursor limit = Panic "slice bounds out of range") /\
  (MinInt64 <= limit < -1 \/ limit = MaxInt64 ->
     ListOrdersCursor db userID cursor limit
     = Err (Errorf "list orders" (PqError "2201W"))) /\
  (limit = 0 ->
     exists page, ListOrdersCursor db userID cursor limit = Ok page /\
       Items page = [] /\ NextCursor page = "" /\
       (HasMore page = true <-> exists o, o ∈ orders db /\ selected userID p o = true)).
Proof.
  intros Hf Hd. unfold ListOrdersCursor, select_orders_before. rewrite Hd.
  rewrite stmt_ok by done. cbn [orders tick].
  split; [|split].
  - intros ->. reflexivity.
  - intros [Hl| ->].
    + rewrite (wrap64_id (limit + 1)) by (unfold MinInt64, MaxInt64 in *; lia).
      destruct (Z.ltb_spec (limit + 1) 0); [done|lia].
    + reflexivity.
  - intros ->. change (wrap64 (0 + 1)) with 1. cbn [Z.ltb Z.compare].
    set (rows := sort_desc (List.filter (selected userID p) (orders db))).
    assert ((exists o, o ∈ orders db /\ selected userID p o = true) <-> rows <> []) as Hrows.
    { split.
      - intros (o & Hin & Hs) Hnil.
        assert (o ∈ rows) as Ho.
        { unfold rows. rewrite (sort_desc_perm _). apply list_elem_of_In, filter_In.
          split; [by apply list_elem_of_In|done]. }
        rewrite Hnil in Ho. by apply elem_of_nil in Ho.
      - destruct rows as [|o rest] eqn:Hr; [done|]. intros _.
        assert (o ∈ rows) as Ho by (rewrite Hr; apply list_elem_of_here).
        unfold rows in Ho. rewrite (sort_desc_perm _) in Ho.
        apply list_elem_of_In, filter_In in Ho as [Hin Hs].
        exists o. split; [by apply list_elem_of_In|done]. }
    destruct rows as [|o rest]; cbn.
    + eexists. split; [reflexivity|]. cbn. split; [done|]. split; [done|].
      split; [done|]. intros H. by apply Hrows in H.
    + eexists. split; [reflexivity|]. cbn. split; [done|]. split; [done|].
      split; [|done]. intros _. by apply Hrows.
Qed.

Lemma ListOrdersCursor_bad_limit_witness :
  ListOrdersCursor scenario.busy_shop 7 "" (-1) = Panic "slice bounds out of range" /\
  ListOrdersCursor scenario.busy_shop 7 "" (-2) = Err (Errorf "list orders" (PqError "2201W")) /\
  ListOrdersCursor scenario.busy_shop 7 "" 0
  = Ok {| Items := []; NextCursor := ""; HasMore := true |}.
Proof.
  destruct (ListOrdersCursor_bad_limit scenario.busy_shop 7 "" (-1)
              {| CreatedAt := go_now scenario.busy_shop; ID := MaxInt64 |} eq_refl eq_refl)
    as (H1 & _).
  destruct (ListOrdersCursor_bad_limit scenario.busy_shop 7 "" (-2)
              {| CreatedAt := go_now scenario.busy_shop; ID := MaxInt64 |} eq_refl eq_refl)
    as (_ & H2 & _).
  split; [exact (H1 eq_refl)|]. split; [apply H2; left; unfold MinInt64; lia|].
  vm_compute. reflexivity.
Defined.

(** ** Following the next token *)

Lemma order_desc_trans (a b c : Order) :
  order_desc a b = true -> order_desc b c = true -> order_desc a c = true.
Proof. unfold order_desc. lia. Qed.

Lemma insert_desc_head (o : Order) (l : list Order) :
  Forall (fun x => order_desc o x = true) l -> insert_desc o l = o :: l.
Proof. destruct 1 as [|x r Hx _]; simpl; [done|]. by rewrite Hx. Qed.

Lemma desc_strong (l : list Order) : Sorted desc l -> StronglySorted desc l.
Proof.
  apply Sorted_StronglySorted. intros a b c. unfold desc. apply order_desc_trans.
Qed.

Lemma filter_insert_desc (f : Order -> bool) (o : Order) (l : list Order) :
  StronglySorted desc l ->
  List.filter f (insert_desc o l)
  = if f o then insert_desc o (List.filter f l) else List.filter f l.
Proof.
  induction 1 as [|x r Hs IH Hall]; simpl.
  - by destruct (f o).
  - destruct (order_desc o x) eqn:Hox; simpl.
    + destruct (f o) eqn:Hfo; [|done].
      destruct (f x) eqn:Hfx; simpl; [by rewrite Hox|].
      symmetry. apply insert_desc_head.
      apply Forall_forall. intros y Hy. apply list_elem_of_In, filter_In in Hy as [Hy _].
      rewrite Forall_forall in Hall. apply order_desc_trans with x; [done|].
      apply Hall. by apply list_elem_of_In.
    + rewrite IH. destruct (f x) eqn:Hfx; destruct (f o) eqn:Hfo; simpl; try done.
      by rewrite Hox.
Qed.

Lemma sort_desc_filter (f : Order -> bool) (l : list Order) :
  sort_desc (List.filter f l) = List.filter f (sort_desc l).
Proof.
  induction l as [|x r IH]; [done|].
  change (sort_desc (x :: r)) with (insert_desc x (sort_desc r)).
  rewrite filter_insert_desc by apply desc_strong, sort_desc_sorted.
  simpl. destruct (f x); [|done].
  change (sort_desc (x :: List.filter f r)) with (insert_desc x (sort_desc (List.filter f r))).
  by rewrite IH.
Qed.

Lemma filter_and {A} (f g : A -> bool) (l : list A) :
  List.filter (fun x => f x && g x) l = List.filter g (List.filter f l).
Proof.
  induction l as [|x r IH]; [done|]. simpl.
  destruct (f x); simpl; [|done]. destruct (g x); by rewrite IH.
Qed.

Lemma filter_filter_impl {A} (f g : A -> bool) (l : list A) :
  (forall x, f x = true -> g x = true) ->
  List.filter f (List.filter g l) = List.filter f l.
Proof.
  intros H. induction l as [|x r IH]; [done|]. simpl.
  destruct (g x) eqn:Hg; simpl.
  - destruct (f x); by rewrite IH.
  - destruct (f x) eqn:Hf; [|done]. apply H in Hf. congruence.
Qed.

Lemma selected_listing (db : DB) (userID : Z) (c : OrderCursor) :
  sort_desc (List.filter (selected userID c) (orders db))
  = List.filter (fun o => row_lt (Order_CreatedAt o) (Order_ID o) c) (listing db userID).
Proof.
  unfold listing, selected.
  rewrite (filter_and (fun o => Order_UserID o =? userID)
             (fun o => row_lt (Order_CreatedAt o) (Order_ID o) c)).
  apply sort_desc_filter.
Qed.

Lemma listing_strict (db : DB) (userID : Z) :
  NoDup (map Order_ID (orders db)) ->
  StronglySorted before (listing db userID).
Proof.
  intros Hnd.
  assert (NoDup (map Order_ID (listing db userID))) as Hnd'.
  { unfold listing. rewrite (sort_desc_perm _).
    clear -Hnd. induction (orders db) as [|x r IH]; simpl; [constructor|].
    apply NoDup_cons in Hnd as [Hx Hnd]. destruct (Order_UserID x =? userID); [|by apply IH].
    simpl. constructor; [|by apply IH].
    intros Hin. apply Hx. apply list_elem_of_fmap in Hin as (y & -> & Hy).
    apply list_elem_of_In, filter_In in Hy as [Hy _].
    apply list_elem_of_fmap_2. by apply list_elem_of_In. }
  pose proof (desc_strong _ (sort_desc_sorted
    (List.filter (fun o => Order_UserID o =? userID) (orders db)))) as Hs.
  fold (listing db userID) in Hs.
  induction Hs as [|x r Hs IH Hall]; [constructor|].
  simpl in Hnd'. apply NoDup_cons in Hnd' as [Hx Hnd'].
  constructor; [by apply IH|].
  apply Forall_forall. intros y Hy. rewrite Forall_forall in Hall. specialize (Hall y Hy).
  assert (Order_ID y <> Order_ID x) as Hne.
  { intros Heq. apply Hx. rewrite <- Heq. by apply list_elem_of_fmap_2. }
  unfold before, row_lt, desc, order_desc in *. cbn [CreatedAt ID]. lia.
Qed.

Lemma before_trans (a b c : Order) : before a b -> before b c -> before a c.
Proof. unfold before, row_lt. cbn [CreatedAt ID]. lia. Qed.

(** In a strictly descending list the rows below the position of one of
    its rows are those that come after it. *)
Lemma filter_below (pre post : list Order) (x : Order) :
  StronglySorted before (pre ++ x :: post) ->
  List.filter (fun o => row_lt (Order_CreatedAt o) (Order_ID o) (position x))
    (pre ++ x :: post) = post.
Proof.
  intros Hs. induction pre as [|y pre IH].
  - cbn [app] in *. apply StronglySorted_inv in Hs as [Hs Hall].
    cbn [List.filter].
    assert (row_lt (Order_CreatedAt x) (Order_ID x) (position x) = false) as ->
      by (unfold row_lt, position; cbn [CreatedAt ID]; lia).
    clear Hs. induction Hall as [|z post Hz _ IHp]; [done|].
    cbn [List.filter]. unfold before in Hz. fold (position x) in Hz. rewrite Hz.
    f_equal. exact IHp.
  - cbn [app] in *. apply StronglySorted_inv in Hs as [Hs Hall].
    cbn [List.filter].
    assert (before y x) as Hyx.
    { rewrite Forall_forall in Hall. apply Hall. apply elem_of_app. right. apply list_elem_of_here. }
    assert (row_lt (Order_CreatedAt y) (Order_ID y) (position x) = false) as ->.
    { unfold before, row_lt, position in *. cbn [CreatedAt ID] in *. lia. }
    by apply IH.
Qed.

Lemma StronglySorted_app_inv_r {A} (R : A -> A -> Prop) (l1 l2 : list A) :
  StronglySorted R (l1 ++ l2) -> StronglySorted R l2.
Proof.
  induction l1 as [|x l1 IH]; [done|]. cbn [app]. intros H.
  apply StronglySorted_inv in H as [H _]. by apply IH.
Qed.

Lemma DecodeCursor_EncodeCursor (now : Time) (c : OrderCursor) :
  0 <= time.Year (CreatedAt c) <= 9999 ->
  in_int64 (ID c) ->
  DecodeCursor now (EncodeCursor c) = (c, None) /\ EncodeCursor c <> "".
Proof.
  intros Hy Hid. unfold EncodeCursor, DecodeCursor.
  destruct (json_Marshal c) as [e|data] eqn:Hm.
  - unfold json_Marshal in Hm. cbv zeta in Hm.
    destruct (Z.ltb_spec (time.Year (CreatedAt c)) 0); [lia|].
    destruct (Z.geb_spec (time.Year (CreatedAt c)) 10000); [lia|]. done.
  - destruct (Unmarshal_Marshal c data Hid Hm) as [Hu Hne].
    destruct data as [|a data]; [done|].
    pose proof (base64_facts.Encode_nonempty a data) as Hnonempty.
    destruct (String.eqb_spec (base64.EncodeToString (String a data)) "") as [He|_]; [done|].
    by rewrite base64_facts.Decode_Encode.
Qed.

Lemma last_map {A B} (f : A -> B) (l : list A) : last (map f l) = f <$> last l.
Proof.
  induction l as [|x [|y r] IH]; [done|done|].
  change (map f (x :: y :: r)) with (f x :: map f (y :: r)).
  rewrite !last_cons_cons. exact IH.
Qed.

(** What a listing call returns, in terms of the rows of the account
    below the position. *)
Lemma ListOrdersCursor_run (db : DB) (userID : Z) (cursor : string) (limit : Z)
    (p : OrderCursor) :
  0 <= limit < MaxInt64 ->
  faults db (stmts db) = None ->
  DecodeCursor (go_now db) cursor = (p, None) ->
  let below :=
    List.filter (fun o => row_lt (Order_CreatedAt o) (Order_ID o) p) (listing db userID) in
  ListOrdersCursor db userID cursor limit =
  Ok {| Items := map scan_listed (take (Z.to_nat limit) below);
        NextCursor :=
          match (limit <? Z.of_nat (length below))%Z, last (take (Z.to_nat limit) below) with
          | true, Some x => EncodeCursor (position x)
          | _, _ => ""
          end;
        HasMore := limit <? Z.of_nat (length below) |}.
Proof.
  intros Hl Hf Hd below.
  unfold ListOrdersCursor, select_orders_before. rewrite Hd, stmt_ok by done.
  rewrite (wrap64_id (limit + 1)) by (unfold MinInt64, MaxInt64 in *; lia).
  destruct (Z.ltb_spec (limit + 1) 0) as [|_]; [lia|].
  cbn [orders tick]. rewrite selected_listing. fold below.
  rewrite length_map, length_take.
  destruct (Z.ltb_spec limit (Z.of_nat (length below))) as [Hmore|Hnomore].
  - destruct (Z.gtb_spec (Z.of_nat (Z.to_nat (limit + 1) `min` length below)) limit); [|lia].
    destruct (Z.ltb_spec limit 0); [lia|]. cbn [andb].
    rewrite !firstn_map, take_take.
    replace (Z.to_nat limit `min` Z.to_nat (limit + 1))%nat with (Z.to_nat limit) by lia.
    rewrite last_map. do 2 f_equal.
    destruct (last (take (Z.to_nat limit) below)); reflexivity.
  - destruct (Z.gtb_spec (Z.of_nat (Z.to_nat (limit + 1) `min` length below)) limit); [lia|].
    cbn [andb]. rewrite !take_ge by lia. reflexivity.
Qed.

Lemma take_add {A} (n m : nat) (l : list A) :
  take (n + m) l = (take n l ++ take m (drop n l))%list.
Proof.
  revert l. induction n as [|n IH]; intros l; [done|].
  destruct l as [|x l]; simpl; [by rewrite take_nil|]. f_equal. apply IH.
Qed.

(** X22. Following the token.  On a store whose order identifiers are
    unique and whose orders have timestamps [encoding/json] can render,
    when a page of at least one row says [HasMore], its token is not
    empty, and the call with that token on the unchanged table returns
    the rows that come next: the two pages together are the first
    [2 * limit] rows of the account below the starting position, in
    order, none repeated and none left out, and [HasMore] of the second
    page tells whether the account has more than these. *)
Theorem ListOrdersCursor_next_page (db db2 : DB) (userID : Z) (cursor : string) (limit : Z)
    (p : OrderCursor) (page1 : CursorPage) :
  1 <= limit < MaxInt64 ->
  faults db (stmts db) = None ->
  faults db2 (stmts db2) = None ->
  orders db2 = orders db ->
  NoDup (map Order_ID (orders db)) ->
  Forall (fun o => 0 <= time.Year (Order_CreatedAt o) <= 9999 /\ in_int64 (Order_ID o))
         (orders db) ->
  DecodeCursor (go_now db) cursor = (p, None) ->
  ListOrdersCursor db userID cursor limit = Ok page1 ->
  HasMore page1 = true ->
  let below :=
    List.filter (fun o => row_lt (Order_CreatedAt o) (Order_ID o) p) (listing db userID) in
  NextCursor page1 <> "" /\
  exists page2,
    ListOrdersCursor db2 userID (NextCursor page1) limit = Ok page2 /\
    (Items page1 ++ Items page2)%list = map scan_listed (take (Z.to_nat (2 * limit)) below) /\
    HasMore page2 = (2 * limit <? Z.of_nat (length below)).
Proof.
  intros Hl Hf Hf2 Ho2 Hnd Hvalid Hd Hrun Hmore below.
  rewrite (ListOrdersCursor_run db userID cursor limit p) in Hrun by (done || lia).
  fold below in Hrun. injection Hrun as <-. cbn [HasMore Items NextCursor] in *.
  rewrite Hmore. apply Z.ltb_lt in Hmore.
  (* the last row of the first page *)
  destruct (lookup_lt_is_Some_2 below (Z.to_nat limit - 1)) as [x Hx]; [lia|].
  assert (below = take (Z.to_nat limit - 1) below ++ x :: drop (Z.to_nat limit) below)%list
    as Hsplit.
  { rewrite <- (take_drop_middle below (Z.to_nat limit - 1) x Hx) at 1.
    do 3 f_equal. lia. }
  assert (last (take (Z.to_nat limit) below) = Some x) as Hlast.
  { rewrite last_lookup, length_take, lookup_take_lt by lia.
    rewrite <- Hx. f_equal. lia. }
  rewrite Hlast.
  assert (x ∈ below) as Hxin by (by eapply list_elem_of_lookup_2).
  assert (x ∈ orders db /\ row_lt (Order_CreatedAt x) (Order_ID x) p = true)
    as [Hxdb Hxp].
  { unfold below in Hxin. apply list_elem_of_In, filter_In in Hxin as [Hxin Hlt].
    split; [|done]. apply list_elem_of_In in Hxin. unfold listing in Hxin.
    rewrite (sort_desc_perm _) in Hxin.
    apply list_elem_of_In, filter_In in Hxin as [Hxin _]. by apply list_elem_of_In. }
  rewrite Forall_forall in Hvalid. destruct (Hvalid x Hxdb) as [Hyear Hid].
  destruct (DecodeCursor_EncodeCursor (go_now db2) (position x) Hyear Hid) as [Hdec Hne].
  split; [done|].
  (* the second page *)
  rewrite (ListOrdersCursor_run db2 userID (EncodeCursor (position x)) limit (position x))
    by (done || lia).
  eexists. split; [reflexivity|]. cbn [Items HasMore].
  assert (listing db2 userID = listing db userID) as -> by (unfold listing; by rewrite Ho2).
  assert (List.filter (fun o => row_lt (Order_CreatedAt o) (Order_ID o) (position x))
            (listing db userID) = drop (Z.to_nat limit) below) as ->.
  { rewrite <- (filter_filter_impl _
                  (fun o => row_lt (Order_CreatedAt o) (Order_ID o) p)).
    - fold below. rewrite Hsplit at 1. apply filter_below. rewrite <- Hsplit.
      apply StronglySorted_filter, listing_strict, Hnd.
    - intros o. unfold row_lt, position in *. cbn [CreatedAt ID]. lia. }
  rewrite length_drop. split.
  - rewrite <- map_app. f_equal.
    replace (Z.to_nat (2 * limit)) with (Z.to_nat limit + Z.to_nat limit)%nat by lia.
    symmetry. apply take_add.
  - destruct (Z.ltb_spec limit (Z.of_nat (length below - Z.to_nat limit)));
      destruct (Z.ltb_spec (2 * limit) (Z.of_nat (length below))); try done; lia.
Qed.

Lemma ListOrdersCursor_next_page_witness :
  exists page1 page2,
    ListOrdersCursor scenario.busy_shop 7 "" 1 = Ok page1 /\
    NextCursor page1 <> "" /\
    ListOrdersCursor scenario.busy_shop 7 (NextCursor page1) 1 = Ok page2 /\
    map Order_ID (Items page1 ++ Items page2) = [4; 3].
Proof.
  destruct (ListOrdersCursor scenario.busy_shop 7 "" 1) as [page1| |] eqn:H1;
    try (exfalso; vm_compute in H1; discriminate H1).
  destruct (ListOrdersCursor_next_page scenario.busy_shop scenario.busy_shop 7 "" 1
              {| CreatedAt := go_now scenario.busy_shop; ID := MaxInt64 |} page1)
    as (Hne & page2 & H2 & Hitems & _).
  - unfold MaxInt64. lia.
  - reflexivity.
  - reflexivity.
  - reflexivity.
  - vm_compute. repeat constructor; intros Hin; split_elem Hin; try discriminate;
      by apply elem_of_nil in Hin.
  - repeat constructor; try (vm_compute; congruence).
  - reflexivity.
  - exact H1.
  - vm_compute in H1. injection H1 as <-. reflexivity.
  - exists page1, page2. split; [reflexivity|]. split; [exact Hne|]. split; [exact H2|].
    rewrite Hitems. vm_compute. reflexivity.
Defined.

(** ** Lookups *)



(** ** Tokens *)

Lemma enc_url_safe (v : Z) : 0 <= v < 64 -> url_safe (base64.enc v) = true.
Proof.
  intros Hv. unfold url_safe. rewrite base64_facts.dec_enc by done.
  rewrite bool_decide_eq_true_2; [done|by eexists].
Qed.

Lemma EncodeToString_shape (s : string) :
  (String.length (base64.EncodeToString s) mod 4 = 0)%nat /\
  string_forall url_safe (base64.EncodeToString s) = true.
Proof.
  induction s as [|a|a b|a b c rest [IHl IHs]] using base64_facts.string_ind3.
  - done.
  - pose proof (byte_val_range a) as Ha.
    destruct (base64_facts.sextets (byte_val a) 0 0) as (H0 & H1 & _); try lia.
    change (0 / 16) with 0 in *. rewrite Z.add_0_r in *.
    cbn [base64.EncodeToString string_forall String.length]. cbv zeta.
    rewrite !enc_url_safe by lia. done.
  - pose proof (byte_val_range a) as Ha. pose proof (byte_val_range b) as Hb.
    destruct (base64_facts.sextets (byte_val a) (byte_val b) 0) as (H0 & H1 & H2 & _); try lia.
    change (0 / 64) with 0 in *. rewrite Z.add_0_r in *.
    cbn [base64.EncodeToString string_forall String.length]. cbv zeta.
    rewrite !enc_url_safe by lia. done.
  - pose proof (byte_val_range a) as Ha. pose proof (byte_val_range b) as Hb.
    pose proof (byte_val_range c) as Hc.
    destruct (base64_facts.sextets (byte_val a) (byte_val b) (byte_val c))
      as (H0 & H1 & H2 & H3 & _); try lia.
    cbn [base64.EncodeToString string_forall String.length]. cbv zeta.
    rewrite !enc_url_safe by lia. rewrite IHs. split; [|done].
    match goal with
    | |- (S (S (S (S ?n))) mod 4 = 0)%nat =>
        replace (S (S (S (S n)))) with (n + 1 * 4)%nat by lia
    end.
    rewrite Nat.Div0.mod_add. exact IHl.
Qed.

(** X23. The token [EncodeCursor] makes of a position it can render (a
    year within 0..9999, an [int64] identifier) is not empty, its length
    is a multiple of four, it consists of letters, digits, [-], [_] and
    the padding [=] only, and it determines the position: the tokens of
    two such positions are equal only when the positions are. *)
Theorem EncodeCursor_token (c : OrderCursor) :
  0 <= time.Year (CreatedAt c) <= 9999 ->
  in_int64 (ID c) ->
  EncodeCursor c <> "" /\
  (String.length (EncodeCursor c) mod 4 = 0)%nat /\
  string_forall url_safe (EncodeCursor c) = true /\
  forall c', 0 <= time.Year (CreatedAt c') <= 9999 -> in_int64 (ID c') ->
    EncodeCursor c' = EncodeCursor c -> c' = c.
Proof.
  intros Hy Hid.
  destruct (DecodeCursor_EncodeCursor 0 c Hy Hid) as [Hdec Hne].
  split; [done|].
  assert ((String.length (EncodeCursor c) mod 4 = 0)%nat /\
          string_forall url_safe (EncodeCursor c) = true) as [Hlen Hsafe].
  { unfold EncodeCursor. destruct (json_Marshal c); [done|apply EncodeToString_shape]. }
  split; [done|]. split; [done|].
  intros c' Hy' Hid' Heq.
  destruct (DecodeCursor_EncodeCursor 0 c' Hy' Hid') as [Hdec' _].
  rewrite Heq in Hdec'. congruence.
Qed.

Lemma EncodeCursor_token_witness :
  EncodeCursor scenario.a_position <> "" /\
  (String.length (EncodeCursor scenario.a_position) mod 4 = 0)%nat /\
  string_forall url_safe (EncodeCursor scenario.a_position) = true.
Proof.
  destruct (EncodeCursor_token scenario.a_position) as (H1 & H2 & H3 & _).
  - assert (time.Year (CreatedAt scenario.a_position) = 2024) as -> by (vm_compute; reflexivity).
    lia.
  - unfold in_int64, MinInt64, MaxInt64. simpl. lia.
  - split; [exact H1|]. split; [exact H2|exact H3].
Defined.

(** ** Order numbers *)

Lemma itoa_inj (a b : Z) : itoa a = itoa b -> a = b.
Proof.
  intros H. pose proof (int_of_itoa a) as Ha. rewrite H, int_of_itoa in Ha.
  injection Ha as Ha. apply (f_equal Z.of_int) in Ha. by rewrite !DecimalZ.of_to in Ha.
Qed.

(** X24. Order numbers are the process clock's nanoseconds: two instants
    give the same number only when they are the same instant.  When the
    number of the instant is already that of an order, the unit of work
    of [CreateOrder], on a request the store could otherwise serve,
    fails at the insertion of the order with the unique-violation error
    23505 wrapped as a failure to create the order; this is classified
    Permanent, and the tables are as they were. *)
Theorem order_number_taken (req : CreateOrderRequest) (tx : DB) (order : option Order) :
  quiet tx ->
  UserID req ∈ users tx ->
  Forall (orderable tx) (Request_Items req) ->
  (exists o, o ∈ orders tx /\ Order_OrderNumber o = generateOrderNumber (go_now tx)) ->
  (forall t1 t2, generateOrderNumber t1 = generateOrderNumber t2 -> t1 = t2) /\
  exists tx',
    CreateOrder_fn req tx order = (Some (Errorf "create order" (PqError "23505")), tx', order) /\
    ClassifyError (Some (Errorf "create order" (PqError "23505"))) = ErrorClassPermanent /\
    products tx' = products tx /\ orders tx' = orders tx /\ order_items tx' = order_items tx.
Proof.
  intros Hq Hu Hitems (o & Hin & Hnum). split.
  { intros t1 t2. unfold generateOrderNumber. intros [= H]. by apply itoa_inj. }
  unfold CreateOrder_fn, assemble.
  unfold bind at 1, map_err at 1, select_user_exists.
  rewrite stmt_ok by apply Hq. cbn [users tick].
  rewrite bool_decide_eq_true_2 by done. cbn [negb].
  unfold bind at 1.
  rewrite (lock_items_all (Request_Items req) ∅ 0 (tick tx)) by
    first [exact Hq | eapply Forall_impl; [exact Hitems|apply orderable_available]].
  change (price_of (tick tx)) with (price_of tx).
  destruct (iter_tick_fields (length (Request_Items req)) (tick tx))
    as (Hfr1 & Hp1 & Ho1 & Hi1 & _ & _ & _).
  set (tx1 := Nat.iter (length (Request_Items req)) tick (tick tx)) in *.
  destruct Hfr1 as (_ & _ & _ & Hgo1 & Hf1).
  cbn [products orders order_items go_now faults tick] in *.
  cbv beta iota. unfold bind at 1, map_err at 1. cbv beta.
  unfold insert_order. rewrite stmt_ok by (rewrite Hf1; apply Hq).
  cbn [orders users orders_id_seq pg_now tick]. rewrite Z.add_0_l.
  pose proof (total_nonneg tx (Request_Items req) Hitems) as Ht.
  destruct (Z.ltb_spec (foldr (fun item acc => price_of tx (ProductID item) * Quantity item + acc)
                          0 (Request_Items req)) 0); [lia|].
  change (valid_status OrderStatusPending) with true. cbn [negb orb].
  assert (existsb (fun o => String.eqb (Order_OrderNumber o) (generateOrderNumber (go_now tx1)))
            (orders tx1) = true) as ->.
  { apply existsb_exists. exists o. rewrite Ho1, Hgo1. split; [by apply list_elem_of_In|].
    by apply String.eqb_eq. }
  eexists. split; [reflexivity|]. split; [reflexivity|].
  cbn [products orders order_items tick]. done.
Qed.

Lemma order_number_taken_witness :
  Order_OrderNumber (scenario.placed 1 7 1705314600000000001)
  = generateOrderNumber (go_now scenario.same_instant_shop) /\
  (CreateOrder_fn scenario.two_widgets scenario.same_instant_shop None).1.1
  = Some (Errorf "create order" (PqError "23505")).
Proof.
  split; [reflexivity|].
  destruct (order_number_taken scenario.two_widgets scenario.same_instant_shop None)
    as (_ & tx' & Hrun & _).
  - intros n. reflexivity.
  - vm_compute. reflexivity.
  - repeat constructor. exists (scenario.widget 5 1).
    split; [reflexivity|]. split; [exact (not_elem_of_empty (C:=gset Z) 1)|].
    split; simpl; lia.
  - exists (scenario.placed 1 7 1705314600000000001).
    split; [apply list_elem_of_here|reflexivity].
  - by rewrite Hrun.
Defined.

(** ** Reservations one after the other *)

Lemma reservation_step (db : DB) (productID quantity : Z) (p : Product) :
  quiet db ->
  products db !! productID = Some p ->
  let r := WithTransaction (obliging db) DefaultTxOptions
             (reserve_and_decrement productID quantity) tt in
  if Product_StockQuantity p <? quantity
  then outcome r = Returned (Some ErrInsufficientStock) /\ committed db r = db
  else outcome r = Returned None /\
       committed db r
       = set_products
           (insert productID
              (restocked p (Product_StockQuantity p - quantity) (Product_Version p) (pg_now db)))
           (tick (tick db)).
Proof.
  intros Hq Hp. cbv zeta.
  unfold WithTransaction, obliging. cbn [attempts begin_tx rollback_err commit_err]. cbv zeta.
  unfold reserve_and_decrement, bind.
  rewrite (ReserveStock_run db productID quantity p) by (apply Hq || done).
  destruct (Z.ltb_spec (Product_StockQuantity p) quantity) as [Hlt|Hge].
  - cbn. done.
  - rewrite (DecrementStock_run (tick db) productID quantity p) by (apply Hq || done).
    destruct (Z.ltb_spec (Product_StockQuantity p) quantity); [lia|].
    cbn. done.
Qed.

(** X25. No overselling.  When the transactions of the reservation test
    run one after the other on a server that answers, each beginning on
    what the ones before it committed, as many succeed as the stock
    holds whole quantities, and at most all of them; the product read
    at the end holds the initial stock less the quantity times the
    number of successes, as the test expects, and this is not
    negative. *)
Theorem reservations_never_oversell (concurrency : nat) (productID quantity : Z)
    (db : DB) (p : Product) :
  quiet db ->
  products db !! productID = Some p ->
  0 < quantity ->
  0 <= Product_StockQuantity p ->
  let successCount := (reservations concurrency productID quantity db).1 in
  let final := (reservations concurrency productID quantity db).2 in
  successCount = Z.min (Z.of_nat concurrency) (Product_StockQuantity p / quantity) /\
  exists finalProduct,
    (GetProduct productID final).1 = inr finalProduct /\
    Product_StockQuantity finalProduct = Product_StockQuantity p - successCount * quantity /\
    0 <= Product_StockQuantity finalProduct.
Proof.
  cbv zeta. revert db p.
  induction concurrency as [|rest IH]; intros db p Hq Hp Hpos Hstock.
  - cbn [reservations fst snd]. split.
    + pose proof (Z.div_pos (Product_StockQuantity p) quantity). lia.
    + exists p. split; [|lia].
      unfold GetProduct, map_err, select_product. rewrite stmt_ok by apply Hq.
      cbn [products tick]. by rewrite Hp.
  - cbn [reservations]. cbv zeta.
    pose proof (reservation_step db productID quantity p Hq Hp) as Hstep. cbv zeta in Hstep.
    destruct (Z.ltb_spec (Product_StockQuantity p) quantity) as [Hlt|Hge];
      destruct Hstep as [-> ->].
    + specialize (IH db p Hq Hp Hpos Hstock).
      destruct (reservations rest productID quantity db) as [count db'].
      cbn [fst snd] in *. destruct IH as [Hc Hfinal].
      rewrite Z.div_small in * by lia. split; [lia|]. exact Hfinal.
    + set (p1 := restocked p (Product_StockQuantity p - quantity) (Product_Version p) (pg_now db)).
      set (db1 := set_products (insert productID p1) (tick (tick db))).
      assert (quiet db1) as Hq1 by (intros n; apply Hq).
      assert (products db1 !! productID = Some p1) as Hp1
        by (unfold db1; cbn [products set_products tick]; by rewrite lookup_insert_eq).
      specialize (IH db1 p1 Hq1 Hp1 Hpos).
      cbn [p1 restocked Product_StockQuantity] in IH. specialize (IH ltac:(lia)).
      destruct (reservations rest productID quantity db1) as [count db'].
      cbn [fst snd] in *. destruct IH as [Hc (fp & Hget & Hs & Hnn)].
      assert ((Product_StockQuantity p - quantity) / quantity
              = Product_StockQuantity p / quantity - 1) as Hdiv.
      { replace (Product_StockQuantity p - quantity)
          with (Product_StockQuantity p + (-1) * quantity) by lia.
        rewrite Z.div_add by lia. lia. }
      rewrite Hdiv in Hc. split; [lia|].
      exists fp. split; [exact Hget|]. split; [lia|exact Hnn].
Qed.

Lemma reservations_never_oversell_witness :
  (reservations 5 1 2 (scenario.shop ∅ 10)).1 = 5 /\
  (reservations 7 1 2 (scenario.shop ∅ 10)).1 = 5 /\
  exists finalProduct,
    (GetProduct 1 (reservations 7 1 2 (scenario.shop ∅ 10)).2).1 = inr finalProduct /\
    Product_StockQuantity finalProduct = 0.
Proof.
  split; [vm_compute; reflexivity|].
  destruct (reservations_never_oversell 7 1 2 (scenario.shop ∅ 10) (scenario.widget 10 1))
    as (Hc & fp & Hget & Hs & _).
  - intros n. reflexivity.
  - reflexivity.
  - lia.
  - simpl. lia.
  - split; [exact Hc|]. exists fp. split; [exact Hget|]. rewrite Hs, Hc. reflexivity.
Defined.
